(** * Reviewer assignment service: a shallow embedding and its properties

    The development follows the packages of the Go program:
    - [domain]: users, pull requests, statuses and the error values;
    - [rand]: the part of math/rand the service uses (Intn and Shuffle);
    - [storage]: the Repository interface the service is written against;
    - [postgres]: the relational store behind that interface, with the
      tables and constraints of the migration;
    - [service]: CreatePullRequest, MergePullRequest, ReassignReviewer and
      the selection helpers;
    - [team], [directory], [pgdirectory], [frontdesk]: teams, the active
      flag and the review lists, in the store and as methods of the service;
    - [httptransport]: the requests, the responses and the handlers behind
      the routes.

    Strings are Go strings, [int] is Z, slices are lists, a nil pointer is
    [None]. Time is a number handed to every operation that reads the clock. *)

From stdpp Require Import gmap strings list fin_maps fin_sets sorting pretty.
From Stdlib Require Import ZArith Lia.
From Stdlib Require OrderedTypeEx.

Open Scope string_scope.
Open Scope Z_scope.
Open Scope list_scope.

(* ===================================================================== *)
(** ** Package domain *)
(* ===================================================================== *)

Module domain.

(** [type PRStatus string]: any string is a value of the type; the program
    only ever writes the two constants. *)
Definition PRStatus := string.
Definition StatusOpen : PRStatus := "OPEN".
Definition StatusMerged : PRStatus := "MERGED".

(** [time.Time], as an instant on an integer time line. *)
Definition Time := Z.

Record User := mkUser {
  ID : string;
  Username : string;
  TeamName : string;
  IsActive : bool
}.

(** The field [ID] of [PullRequest] is [PRID] here, [ID] being the field of
    [User]. *)
Record PullRequest := mkPullRequest {
  PRID : string;
  Name : string;
  AuthorID : string;
  Status : PRStatus;
  AssignedReviewers : list string;
  CreatedAt : Time;
  MergedAt : option Time
}.

(** The error values of errors.go; [PgError] is an error of the database
    driver ([*pgconn.PgError]) with its Code (the SQLSTATE: 23505 unique
    violation, 23503 foreign-key violation) and ConstraintName. *)
Inductive error :=
| ErrTeamExists
| ErrPRExists
| ErrPRMerged
| ErrReviewerNotFound
| ErrNoReplacement
| ErrTeamNotFound
| ErrUserNotFound
| ErrPullRequestNotFound
| PgError (Code ConstraintName : string).

(** A Go result pair [(T, error)]: either the value or the error. *)
Inductive result (T : Type) :=
| Ok (v : T)
| Err (e : error).
Arguments Ok {T} v.
Arguments Err {T} e.

End domain.
Export domain.

(* ===================================================================== *)
(** ** Package math/rand, as far as the service uses it *)
(* ===================================================================== *)

Module rand.

(** The state of a [*rand.Rand] is the sequence of raw values it will still
    produce; every generator is such a sequence, so a property proved for
    all sequences holds for whatever the seeded source yields. A generator
    that has run dry keeps answering 0. *)
Definition Rand := list nat.

(** [r.Intn(n)]: a value in [0, n) and the advanced generator. Go panics
    for n <= 0; Shuffle calls it with i+1 for i >= 1 only. *)
Definition Intn (r : Rand) (n : nat) : nat * Rand :=
  match r with
  | [] => (0%nat, [])
  | x :: r' => (x mod n, r')%nat
  end.

(** The swap closure passed to Shuffle:
    [copyUsers[i], copyUsers[j] = copyUsers[j], copyUsers[i]].
    Go panics on an index out of range; Shuffle never asks for one. *)
Definition swap {A} (l : list A) (i j : nat) : list A :=
  match l !! i, l !! j with
  | Some x, Some y => <[i := y]> (<[j := x]> l)
  | _, _ => l
  end.

(** The loop of [Shuffle]: [for i := n-1; i > 0; i-- { j := Intn(i+1); swap(i, j) }];
    the argument is the current [i]. *)
Fixpoint ShuffleFrom {A} (i : nat) (r : Rand) (l : list A) : list A * Rand :=
  match i with
  | O => (l, r)
  | S i' =>
      let '(j, r') := Intn r (S i) in
      ShuffleFrom i' r' (swap l i j)
  end.

Definition Shuffle {A} (r : Rand) (l : list A) : list A * Rand :=
  ShuffleFrom (length l - 1)%nat r l.

End rand.

(* ===================================================================== *)
(** ** Package storage: the Repository interface *)
(* ===================================================================== *)

Module storage.

(** The methods of [storage.Repository] the core operations call, over a
    repository state [St]. Reads leave the state alone; writes return the
    state they leave behind. *)
Class Repository (St : Type) := {
  GetUser : St → string → result User;
  ListUsersByTeam : St → string → result (list User);
  CreatePullRequest : St → PullRequest → result PullRequest * St;
  UpdatePullRequest : St → PullRequest → result PullRequest * St;
  GetPullRequest : St → string → result PullRequest
}.

(** The write calls a repository can receive, with their argument. *)
Inductive Call :=
| CallCreatePullRequest (pr : PullRequest)
| CallUpdatePullRequest (pr : PullRequest).

(** A repository that notes every write call it receives, oldest first,
    and passes it on to the repository it wraps. *)
Record Recorder (St : Type) := mkRecorder {
  inner : St;
  calls : list Call
}.
Arguments mkRecorder {St} inner calls.
Arguments inner {St} r.
Arguments calls {St} r.

#[global] Instance Recorder_Repository `{Repository St} : Repository (Recorder St) := {
  GetUser r id := GetUser (inner r) id;
  ListUsersByTeam r team := ListUsersByTeam (inner r) team;
  CreatePullRequest r pr :=
    let '(res, s') := CreatePullRequest (inner r) pr in
    (res, mkRecorder s' (calls r ++ [CallCreatePullRequest pr]));
  UpdatePullRequest r pr :=
    let '(res, s') := UpdatePullRequest (inner r) pr in
    (res, mkRecorder s' (calls r ++ [CallUpdatePullRequest pr]));
  GetPullRequest r id := GetPullRequest (inner r) id
}.

End storage.

(* ===================================================================== *)
(** ** Package postgres: the relational store *)
(* ===================================================================== *)

Module postgres.

(** One row per primary key: a table is a finite map from its key to the
    other columns, and the key-only table of reviewers is a finite set.
    The columns the program never reads back (teams.created_at,
    users.updated_at) are left out. A timestamp is stored as it is handed
    over (the resolution of the column is not modelled). Failures of the
    connection itself are not part of the model: every statement reaches
    the database, and the operations run one after the other. *)
Record UserRow := mkUserRow {
  username : string;
  team_name : string;
  is_active : bool
}.

Record PullRequestRow := mkPullRequestRow {
  pull_request_name : string;
  author_id : string;
  status : string;
  created_at : Time;
  merged_at : option Time
}.

Record Store := mkStore {
  teams : gset string;
  users : gmap string UserRow;
  pull_requests : gmap string PullRequestRow;
  pull_request_reviewers : gset (string * string)
}.

Definition unique_violation : string := "23505".
Definition foreign_key_violation : string := "23503".

(** [translateError]: a unique violation of teams_pkey or pull_requests_pkey
    becomes the domain error, anything else passes through. *)
Definition translateError (err : error) : error :=
  match err with
  | PgError code constraintName =>
      if decide (code = unique_violation) then
        if decide (constraintName = "teams_pkey") then ErrTeamExists
        else if decide (constraintName = "pull_requests_pkey") then ErrPRExists
        else err
      else err
  | _ => err
  end.

Definition userOfRow (kv : string * UserRow) : User :=
  mkUser kv.1 (username kv.2) (team_name kv.2) (is_active kv.2).

Definition GetUser (s : Store) (userID : string) : result User :=
  match users s !! userID with
  | Some row => Ok (userOfRow (userID, row))
  | None => Err ErrUserNotFound
  end.

(** [SELECT ... FROM users WHERE team_name = $1], after the check that the
    team exists. The query has no ORDER BY; the rows come in table order. *)
Definition ListUsersByTeam (s : Store) (teamName : string) : result (list User) :=
  if decide (teamName ∈ teams s) then
    Ok (filter (λ u, TeamName u = teamName) (userOfRow <$> map_to_list (users s)))
  else Err ErrTeamNotFound.

(** The order of [ORDER BY reviewer_id]: the order of the strings byte by
    byte. The properties below use of it only that it is a total order. *)
Definition id_le (a b : string) : Prop := String.leb a b = true.

#[global] Instance id_le_dec (a b : string) : Decision (id_le a b).
Proof. unfold id_le. apply _. Defined.

(** [SELECT reviewer_id FROM pull_request_reviewers WHERE pull_request_id = $1
    ORDER BY reviewer_id]. *)
Definition reviewersOf (tbl : gset (string * string)) (id : string) : list string :=
  merge_sort id_le (snd <$> filter (λ p, p.1 = id) (elements tbl)).

Definition GetPullRequest (s : Store) (id : string) : result PullRequest :=
  match pull_requests s !! id with
  | None => Err ErrPullRequestNotFound
  | Some row =>
      Ok (mkPullRequest id (pull_request_name row) (author_id row) (status row)
            (reviewersOf (pull_request_reviewers s) id)
            (created_at row) (merged_at row))
  end.

(** The loop of INSERTs into pull_request_reviewers, one per reviewer: the
    primary key (pull_request_id, reviewer_id) refuses a pair that is already
    there, the foreign key refuses a reviewer who is not a user. *)
Fixpoint insertReviewers (us : gmap string UserRow) (tbl : gset (string * string))
    (id : string) (reviewers : list string) : result (gset (string * string)) :=
  match reviewers with
  | [] => Ok tbl
  | reviewer :: rest =>
      if decide ((id, reviewer) ∈ tbl) then
        Err (PgError unique_violation "pull_request_reviewers_pkey")
      else if decide (is_Some (us !! reviewer)) then
        insertReviewers us ({[ (id, reviewer) ]} ∪ tbl) id rest
      else Err (PgError foreign_key_violation "pull_request_reviewers_reviewer_id_fkey")
  end.

Definition rowOfPullRequest (pr : PullRequest) : PullRequestRow :=
  mkPullRequestRow (Name pr) (AuthorID pr) (Status pr) (CreatedAt pr) (MergedAt pr).

(** The transaction of [Store.CreatePullRequest]: on an error nothing is
    written (the deferred Rollback). *)
Definition createTx (s : Store) (pr : PullRequest) : result Store :=
  if decide (is_Some (pull_requests s !! PRID pr)) then
    Err (PgError unique_violation "pull_requests_pkey")
  else if decide (is_Some (users s !! AuthorID pr)) then
    match insertReviewers (users s) (pull_request_reviewers s) (PRID pr) (AssignedReviewers pr) with
    | Err e => Err e
    | Ok tbl =>
        Ok (mkStore (teams s) (users s)
              (<[PRID pr := rowOfPullRequest pr]> (pull_requests s)) tbl)
    end
  else Err (PgError foreign_key_violation "pull_requests_author_id_fkey").

Definition CreatePullRequest (s : Store) (pr : PullRequest) : result PullRequest * Store :=
  match createTx s pr with
  | Err e => (Err (translateError e), s)
  | Ok s' => (GetPullRequest s' (PRID pr), s')
  end.

(** The transaction of [Store.UpdatePullRequest]: the UPDATE of the row
    (no row affected: ErrPullRequestNotFound), the DELETE of the reviewer rows
    of this pull request, and the INSERT of the new ones. *)
Definition updateTx (s : Store) (pr : PullRequest) : result Store :=
  if decide (is_Some (pull_requests s !! PRID pr)) then
    if decide (is_Some (users s !! AuthorID pr)) then
      match insertReviewers (users s)
              (filter (λ p, p.1 ≠ PRID pr) (pull_request_reviewers s))
              (PRID pr) (AssignedReviewers pr) with
      | Err e => Err e
      | Ok tbl =>
          Ok (mkStore (teams s) (users s)
                (<[PRID pr := rowOfPullRequest pr]> (pull_requests s)) tbl)
      end
    else Err (PgError foreign_key_violation "pull_requests_author_id_fkey")
  else Err ErrPullRequestNotFound.

Definition UpdatePullRequest (s : Store) (pr : PullRequest) : result PullRequest * Store :=
  match updateTx s pr with
  | Err e => (Err (translateError e), s)
  | Ok s' => (GetPullRequest s' (PRID pr), s')
  end.

#[global] Instance Store_Repository : storage.Repository Store := {
  storage.GetUser := GetUser;
  storage.ListUsersByTeam := ListUsersByTeam;
  storage.CreatePullRequest := CreatePullRequest;
  storage.UpdatePullRequest := UpdatePullRequest;
  storage.GetPullRequest := GetPullRequest
}.

(** The foreign keys of the schema, as a property of a store. *)
Definition fk_users_team (s : Store) : Prop :=
  map_Forall (λ _ row, team_name row ∈ teams s) (users s).

Definition fk_pull_requests_author (s : Store) : Prop :=
  map_Forall (λ _ row, is_Some (users s !! author_id row)) (pull_requests s).

Definition fk_reviewers (s : Store) : Prop :=
  set_Forall (λ p : string * string,
      is_Some (pull_requests s !! p.1) ∧ is_Some (users s !! p.2))
    (pull_request_reviewers s).

Definition constraints (s : Store) : Prop :=
  fk_users_team s ∧ fk_pull_requests_author s ∧ fk_reviewers s.

#[global] Instance constraints_dec (s : Store) : Decision (constraints s).
Proof. unfold constraints, fk_users_team, fk_pull_requests_author, fk_reviewers. apply _. Defined.

End postgres.

(* ===================================================================== *)
(** ** Package service *)
(* ===================================================================== *)

Module service.
Import rand.

Fixpoint contains (items : list string) (target : string) : bool :=
  match items with
  | [] => false
  | item :: rest => if decide (item = target) then true else contains rest target
  end.

(** [reviewerIndex], with the loop counter made explicit. *)
Fixpoint reviewerIndexFrom (i : Z) (reviewers : list string) (target : string) : Z :=
  match reviewers with
  | [] => -1
  | reviewer :: rest =>
      if decide (reviewer = target) then i
      else reviewerIndexFrom (i + 1) rest target
  end.

Definition reviewerIndex (reviewers : list string) (target : string) : Z :=
  reviewerIndexFrom 0 reviewers target.

Fixpoint filterReviewers (users : list User) (authorID : string) : list User :=
  match users with
  | [] => []
  | user :: rest =>
      if decide (ID user = authorID) then filterReviewers rest authorID
      else if negb (IsActive user) then filterReviewers rest authorID
      else user :: filterReviewers rest authorID
  end.

Fixpoint filterForReplacement (users : list User) (oldReviewerID : string)
    (assigned : list string) : list User :=
  match users with
  | [] => []
  | user :: rest =>
      if decide (ID user = oldReviewerID) then filterForReplacement rest oldReviewerID assigned
      else if negb (IsActive user) then filterForReplacement rest oldReviewerID assigned
      else if contains assigned (ID user) then filterForReplacement rest oldReviewerID assigned
      else user :: filterForReplacement rest oldReviewerID assigned
  end.

(** [pickReviewers]: nil for an empty pool or a non-positive limit; otherwise
    the ids of the first [min limit (len users)] users of a shuffled copy. *)
Definition pickReviewers (rnd : Rand) (users : list User) (limit : Z)
    : list string * Rand :=
  if decide (length users = 0%nat ∨ limit <= 0) then ([], rnd)
  else
    let '(copyUsers, rnd') := Shuffle rnd users in
    let limit := if decide (Z.of_nat (length copyUsers) < limit)
                 then Z.of_nat (length copyUsers) else limit in
    (ID <$> take (Z.to_nat limit) copyUsers, rnd').

(** [type ReviewerService struct { repo; rnd }], over a repository state. *)
Record ReviewerService (St : Type) := mkReviewerService {
  repo : St;
  rnd : Rand
}.
Arguments mkReviewerService {St} repo rnd.
Arguments repo {St} r.
Arguments rnd {St} r.

(** [CreatePullRequest]; [now] is the value of [time.Now().UTC()]. The
    fields ID, Name, AuthorID and MergedAt of the argument are passed on as
    they come. *)
Definition CreatePullRequest `{storage.Repository St} (s : ReviewerService St)
    (now : Time) (pr : PullRequest) : result PullRequest * ReviewerService St :=
  match storage.GetUser (repo s) (AuthorID pr) with
  | Err err => (Err err, s)
  | Ok author =>
      match storage.ListUsersByTeam (repo s) (TeamName author) with
      | Err err => (Err err, s)
      | Ok members =>
          let candidates := filterReviewers members (AuthorID pr) in
          let '(picked, rnd') := pickReviewers (rnd s) candidates 2 in
          let pr := mkPullRequest (PRID pr) (Name pr) (AuthorID pr) StatusOpen
                      picked now (MergedAt pr) in
          let '(res, repo') := storage.CreatePullRequest (repo s) pr in
          (res, mkReviewerService repo' rnd')
      end
  end.

Definition MergePullRequest `{storage.Repository St} (s : ReviewerService St)
    (now : Time) (prID : string) : result PullRequest * ReviewerService St :=
  match storage.GetPullRequest (repo s) prID with
  | Err err => (Err err, s)
  | Ok pr =>
      if decide (Status pr = StatusMerged) then (Ok pr, s)
      else
        let pr := mkPullRequest (PRID pr) (Name pr) (AuthorID pr) StatusMerged
                    (AssignedReviewers pr) (CreatedAt pr) (Some now) in
        let '(res, repo') := storage.UpdatePullRequest (repo s) pr in
        (res, mkReviewerService repo' (rnd s))
  end.

(** [ReassignReviewer]. The generator advances only when a replacement is
    drawn; [replacement[0]] is read after the length check; [index] is a
    position of the slice whenever it is not -1, so the assignment
    [pr.AssignedReviewers[index] = replacement[0]] is in range. *)
Definition ReassignReviewer `{storage.Repository St} (s : ReviewerService St)
    (prID oldReviewerID : string)
    : result (PullRequest * string) * ReviewerService St :=
  match storage.GetPullRequest (repo s) prID with
  | Err err => (Err err, s)
  | Ok pr =>
      if decide (Status pr = StatusMerged) then (Err ErrPRMerged, s)
      else
        let index := reviewerIndex (AssignedReviewers pr) oldReviewerID in
        if decide (index = -1) then (Err ErrReviewerNotFound, s)
        else
          match storage.GetUser (repo s) oldReviewerID with
          | Err err => (Err err, s)
          | Ok oldReviewer =>
              match storage.ListUsersByTeam (repo s) (TeamName oldReviewer) with
              | Err err => (Err err, s)
              | Ok members =>
                  let candidates :=
                    filterForReplacement members oldReviewerID (AssignedReviewers pr) in
                  if decide (length candidates = 0%nat) then (Err ErrNoReplacement, s)
                  else
                    let '(replacement, rnd') := pickReviewers (rnd s) candidates 1 in
                    match replacement with
                    | [] => (Err ErrNoReplacement, mkReviewerService (repo s) rnd')
                    | replacement0 :: _ =>
                        let pr := mkPullRequest (PRID pr) (Name pr) (AuthorID pr) (Status pr)
                                    (<[Z.to_nat index := replacement0]> (AssignedReviewers pr))
                                    (CreatedAt pr) (MergedAt pr) in
                        match storage.UpdatePullRequest (repo s) pr with
                        | (Err err, repo') => (Err err, mkReviewerService repo' rnd')
                        | (Ok updatedPR, repo') =>
                            (Ok (updatedPR, replacement0), mkReviewerService repo' rnd')
                        end
                    end
              end
          end
  end.

(** A call of one of the three core operations, and what it returns. *)
Inductive Op :=
| OpCreate (now : Time) (pr : PullRequest)
| OpMerge (now : Time) (prID : string)
| OpReassign (prID oldReviewerID : string).

Inductive Outcome :=
| Returned (pr : PullRequest)
| Reassigned (pr : PullRequest) (replacedBy : string)
| Failed (err : error).

Definition exec `{storage.Repository St} (s : ReviewerService St) (op : Op)
    : Outcome * ReviewerService St :=
  match op with
  | OpCreate now pr =>
      match CreatePullRequest s now pr with
      | (Ok pr', s') => (Returned pr', s')
      | (Err err, s') => (Failed err, s')
      end
  | OpMerge now prID =>
      match MergePullRequest s now prID with
      | (Ok pr', s') => (Returned pr', s')
      | (Err err, s') => (Failed err, s')
      end
  | OpReassign prID oldReviewerID =>
      match ReassignReviewer s prID oldReviewerID with
      | (Ok (pr', replacedBy), s') => (Reassigned pr' replacedBy, s')
      | (Err err, s') => (Failed err, s')
      end
  end.

(** A sequence of calls, each on the state the previous one left. *)
Fixpoint run `{storage.Repository St} (s : ReviewerService St) (ops : list Op)
    : list Outcome * ReviewerService St :=
  match ops with
  | [] => ([], s)
  | op :: rest =>
      let '(out, s') := exec s op in
      let '(outs, s'') := run s' rest in
      (out :: outs, s'')
  end.

End service.

(* ===================================================================== *)
(** ** The vocabulary of the specification, over the store *)
(* ===================================================================== *)

Module spec.
Import postgres.

(** [id] is an active teammate of [anchorID]: another user of the same team
    whose active flag is set. *)
Definition activeTeammate (s : Store) (anchorID id : string) : Prop :=
  ∃ anchorRow row,
    users s !! anchorID = Some anchorRow
    ∧ users s !! id = Some row
    ∧ id ≠ anchorID
    ∧ team_name row = team_name anchorRow
    ∧ is_active row = true.

(** The candidate pool of a reassignment, in the words of the glossary: team
    members minus anchor minus inactive minus already-assigned. *)
Definition replacementCandidate (s : Store) (pr : PullRequest)
    (oldReviewerID id : string) : Prop :=
  activeTeammate s oldReviewerID id ∧ id ∉ AssignedReviewers pr.

(** The new id stands where the old one stood and every other position is
    as before. *)
Definition samePosition (before after : list string) (old new : string) : Prop :=
  ∃ k : nat,
    before !! k = Some old
    ∧ after !! k = Some new
    ∧ ∀ j : nat, j ≠ k → after !! j = before !! j.

(** The merge timestamp is present iff the status is MERGED. *)
Definition mergedIffTimestamp (pr : PullRequest) : Prop :=
  is_Some (MergedAt pr) ↔ Status pr = StatusMerged.

Definition rowMergedIffTimestamp (row : PullRequestRow) : Prop :=
  is_Some (merged_at row) ↔ status row = StatusMerged.

(** The same, of every row of the pull_requests table. *)
Definition storeMergedIffTimestamp (s : Store) : Prop :=
  map_Forall (λ _ row, rowMergedIffTimestamp row) (pull_requests s).

(** A creation request that carries no merge timestamp, as the HTTP handler
    builds it; the other operations take no record. *)
Definition requestWithoutTimestamp (op : service.Op) : Prop :=
  match op with
  | service.OpCreate _ pr => MergedAt pr = None
  | _ => True
  end.

(** The record an operation returned, if any, has its timestamp iff MERGED. *)
Definition outcomeMergedIffTimestamp (out : service.Outcome) : Prop :=
  match out with
  | service.Returned pr | service.Reassigned pr _ => mergedIffTimestamp pr
  | service.Failed _ => True
  end.

End spec.

(* ===================================================================== *)
(** ** The scenario of the tests: team backend *)
(* ===================================================================== *)

Module scenario.
Import postgres service.

(** Team backend with u1, u2 and u3, all active, and no pull request yet. *)
Definition backend : Store :=
  mkStore {[ "backend" ]}
    (<["u1" := mkUserRow "Alice" "backend" true]>
       (<["u2" := mkUserRow "Bob" "backend" true]>
          (<["u3" := mkUserRow "Charlie" "backend" true]> ∅)))
    ∅ ∅.

(** The same team with pr-1 by u1 open and reviewed by u2 and u3, after u1
    was switched to inactive. *)
Definition backend_author_inactive : Store :=
  mkStore {[ "backend" ]}
    (<["u1" := mkUserRow "Alice" "backend" false]>
       (<["u2" := mkUserRow "Bob" "backend" true]>
          (<["u3" := mkUserRow "Charlie" "backend" true]> ∅)))
    {[ "pr-1" := mkPullRequestRow "Initial" "u1" StatusOpen 100 None ]}
    {[ ("pr-1", "u2"); ("pr-1", "u3") ]}.

(** A store without the foreign key of reviewer_id: pr-1 lists a reviewer
    who is in no team. *)
Definition backend_stray_reviewer : Store :=
  mkStore {[ "backend" ]}
    (<["u1" := mkUserRow "Alice" "backend" true]> ∅)
    {[ "pr-1" := mkPullRequestRow "Initial" "u1" StatusOpen 100 None ]}
    {[ ("pr-1", "u9") ]}.

(** Team backend with a fourth member, as in TestReassignReviewer. *)
Definition backend4 : Store :=
  mkStore {[ "backend" ]}
    (<["u1" := mkUserRow "Alice" "backend" true]>
       (<["u2" := mkUserRow "Bob" "backend" true]>
          (<["u3" := mkUserRow "Charlie" "backend" true]>
             (<["u4" := mkUserRow "Dora" "backend" true]> ∅))))
    ∅ ∅.

(** The request the HTTP handler builds: ID, Name and AuthorID only. *)
Definition request (id name author : string) : PullRequest :=
  mkPullRequest id name author "" [] 0 None.

Definition seed : rand.Rand := [5; 7; 11; 13]%nat.

(** A creation request whose MergedAt is already set. *)
Definition requestWithTimestamp : PullRequest :=
  mkPullRequest "pr-1" "Initial" "u1" "" [] 0 (Some 50).

(** The calls of TestReassignReviewer and TestMergePullRequestIdempotent on
    one pull request. *)
Definition session : list Op :=
  [OpCreate 100 (request "pr-1" "Initial" "u1");
   OpReassign "pr-1" "u2";
   OpMerge 200 "pr-1";
   OpMerge 300 "pr-1"].

(** A generator whose draws make the creation on [backend4] by u1 pick u2
    and u3, and the reassignment of u2 pick u4. *)
Definition seed4 : rand.Rand := [2; 0; 0]%nat.

(** [backend] after u1 opened pr-1, and after pr-1 was merged. *)
Definition opened : ReviewerService Store :=
  (CreatePullRequest (mkReviewerService backend seed) 100
     (request "pr-1" "Initial" "u1")).2.

Definition merged : ReviewerService Store :=
  (MergePullRequest opened 200 "pr-1").2.

(** [backend4] behind a recorder, after u1 opened pr-2. *)
Definition recorded4 : ReviewerService (storage.Recorder Store) :=
  (CreatePullRequest (mkReviewerService (storage.mkRecorder backend4 []) seed4) 100
     (request "pr-2" "Replace reviewer" "u1")).2.

(** [backend4] after u1 opened pr-2. *)
Definition opened4 : ReviewerService Store :=
  (CreatePullRequest (mkReviewerService backend4 seed4) 100
     (request "pr-2" "Replace reviewer" "u1")).2.

Definition alice : User := mkUser "u1" "Alice" "backend" true.
Definition bob : User := mkUser "u2" "Bob" "backend" true.
Definition charlie : User := mkUser "u3" "Charlie" "backend" true.

End scenario.

(* ===================================================================== *)
(** ** Teams, the active flag and the review lists *)
(* ===================================================================== *)

(** [domain.Team]. The module is not imported anywhere: its field [Name] is
    written [team.Name], [Name] alone being the field of [PullRequest]. *)
Module team.

Record Team := mkTeam {
  Name : string;
  Members : list User
}.

End team.

(** The methods of [storage.Repository] that the core operations do not
    call, in a class of their own over the same repository state. *)
Module directory.

Class Directory (St : Type) := {
  CreateTeam : St → team.Team → result team.Team * St;
  GetTeam : St → string → result team.Team;
  SetUserActive : St → string → bool → result User * St;
  ListPullRequestsByReviewer : St → string → result (list PullRequest)
}.

End directory.

(** The same methods of the relational store. *)
Module pgdirectory.
Import postgres.

#[global] Instance User_eq_dec : EqDecision User.
Proof. solve_decision. Defined.

(** The order of [ORDER BY user_id] on the rows of users. *)
Definition user_le (u v : User) : Prop := id_le (ID u) (ID v).

#[global] Instance user_le_dec (u v : User) : Decision (user_le u v).
Proof. unfold user_le. apply _. Defined.

(** [Store.GetTeam]: the team must be in teams; its members are the users
    whose team_name is the name, in the order of their ids, each with
    TeamName set to the name asked for. *)
Definition GetTeam (s : Store) (name : string) : result team.Team :=
  if decide (name ∈ teams s) then
    Ok (team.mkTeam name
          (merge_sort user_le
             (filter (λ u, TeamName u = name) (userOfRow <$> map_to_list (users s)))))
  else Err ErrTeamNotFound.

(** The loop of upserts of [Store.CreateTeam]:
    [INSERT INTO users ... ON CONFLICT (user_id) DO UPDATE], with the name of
    the team as team_name whatever the member's own TeamName says. *)
Fixpoint upsertMembers (us : gmap string UserRow) (teamName : string)
    (members : list User) : gmap string UserRow :=
  match members with
  | [] => us
  | member :: rest =>
      upsertMembers
        (<[ID member := mkUserRow (Username member) teamName (IsActive member)]> us)
        teamName rest
  end.

(** The user a member of a new team is stored as: the member with the name
    of the team as TeamName. *)
Definition enrolled (teamName : string) (member : User) : User :=
  mkUser (ID member) (Username member) teamName (IsActive member).

(** The transaction of [Store.CreateTeam]: the SELECT that refuses a name
    already there, the INSERT of the team and the upserts of its members. *)
Definition createTeamTx (s : Store) (t : team.Team) : result Store :=
  if decide (team.Name t ∈ teams s) then Err ErrTeamExists
  else
    Ok (mkStore ({[ team.Name t ]} ∪ teams s)
          (upsertMembers (users s) (team.Name t) (team.Members t))
          (pull_requests s) (pull_request_reviewers s)).

Definition CreateTeam (s : Store) (t : team.Team) : result team.Team * Store :=
  match createTeamTx s t with
  | Err e => (Err (translateError e), s)
  | Ok s' => (GetTeam s' (team.Name t), s')
  end.

(** [Store.SetUserActive]: [UPDATE users SET is_active = $2 WHERE user_id = $1
    RETURNING ...]; no row: ErrUserNotFound. *)
Definition SetUserActive (s : Store) (userID : string) (isActive : bool)
    : result User * Store :=
  match users s !! userID with
  | None => (Err ErrUserNotFound, s)
  | Some row =>
      let row' := mkUserRow (username row) (team_name row) isActive in
      (Ok (userOfRow (userID, row')),
       mkStore (teams s) (<[userID := row']> (users s))
         (pull_requests s) (pull_request_reviewers s))
  end.

(** The order of [ORDER BY pr.created_at DESC]. *)
Definition newer_first (a b : PullRequest) : Prop := CreatedAt b <= CreatedAt a.

#[global] Instance newer_first_dec (a b : PullRequest) : Decision (newer_first a b).
Proof. unfold newer_first. apply _. Defined.

(** One row of the join of pull_requests with pull_request_reviewers: the
    columns of the pull request. The reviewers are not read: the slice stays
    nil. *)
Definition joinedRow (s : Store) (id : string) : option PullRequest :=
  match pull_requests s !! id with
  | Some row =>
      Some (mkPullRequest id (pull_request_name row) (author_id row) (status row) []
              (created_at row) (merged_at row))
  | None => None
  end.

(** [Store.ListPullRequestsByReviewer]: the pull requests joined with the
    reviewer rows of the user, newest first. *)
Definition ListPullRequestsByReviewer (s : Store) (userID : string)
    : result (list PullRequest) :=
  Ok (merge_sort newer_first
        (omap (joinedRow s)
           (fst <$> filter (λ p, p.2 = userID) (elements (pull_request_reviewers s))))).

#[global] Instance Store_Directory : directory.Directory Store := {
  directory.CreateTeam := CreateTeam;
  directory.GetTeam := GetTeam;
  directory.SetUserActive := SetUserActive;
  directory.ListPullRequestsByReviewer := ListPullRequestsByReviewer
}.

End pgdirectory.

(** The pass-through methods of [ReviewerService], and the service as a
    whole: every call it can receive. *)
Module frontdesk.
Import service.

Definition CreateTeam `{directory.Directory St} (s : ReviewerService St)
    (t : team.Team) : result team.Team * ReviewerService St :=
  let '(res, repo') := directory.CreateTeam (repo s) t in
  (res, mkReviewerService repo' (rnd s)).

Definition GetTeam `{directory.Directory St} (s : ReviewerService St)
    (name : string) : result team.Team :=
  directory.GetTeam (repo s) name.

Definition SetUserActive `{directory.Directory St} (s : ReviewerService St)
    (userID : string) (isActive : bool) : result User * ReviewerService St :=
  let '(res, repo') := directory.SetUserActive (repo s) userID isActive in
  (res, mkReviewerService repo' (rnd s)).

Definition ListUserReviews `{directory.Directory St} (s : ReviewerService St)
    (userID : string) : result (list PullRequest) :=
  directory.ListPullRequestsByReviewer (repo s) userID.

(** A call of a method of the [Service] interface (Health apart), with the
    reading of the clock where the method reads it. *)
Inductive Call :=
| CallCreateTeam (t : team.Team)
| CallGetTeam (name : string)
| CallSetUserActive (userID : string) (isActive : bool)
| CallCore (op : Op)
| CallListUserReviews (userID : string).

(** The state a call leaves behind. *)
Definition after `{storage.Repository St} `{directory.Directory St}
    (s : ReviewerService St) (c : Call) : ReviewerService St :=
  match c with
  | CallCreateTeam t => (CreateTeam s t).2
  | CallGetTeam _ => s
  | CallSetUserActive userID isActive => (SetUserActive s userID isActive).2
  | CallCore op => (exec s op).2
  | CallListUserReviews _ => s
  end.

Definition afterAll `{storage.Repository St} `{directory.Directory St}
    (s : ReviewerService St) (cs : list Call) : ReviewerService St :=
  foldl after s cs.

End frontdesk.

(** How two states of the store can differ after a core operation. *)
Module writes.
Import postgres.

(** The write of a core operation: none, or the creation of a record under
    a new id with at most two reviewers, or the update of a record that was
    not MERGED with as many reviewers as it had. *)
Inductive Write (s s' : Store) : Prop :=
| NoWrite : s' = s → Write s s'
| Created (written : PullRequest) :
    createTx s written = Ok s' →
    (length (AssignedReviewers written) ≤ 2)%nat →
    Write s s'
| Updated (loaded written : PullRequest) :
    GetPullRequest s (PRID written) = Ok loaded →
    Status loaded ≠ StatusMerged →
    updateTx s written = Ok s' →
    length (AssignedReviewers written) = length (AssignedReviewers loaded) →
    Write s s'.

End writes.

(** Teams and calls used as examples below. *)
Module casebook.
Import postgres service.

(** A new team of two, one of them inactive; the members come without
    TeamName, as [toDomain] would fill it in or not. *)
Definition payments : team.Team :=
  team.mkTeam "payments"
    [mkUser "u5" "Eve" "" false; mkUser "u4" "Dora" "" true].

(** A new team that names u2, who is in team backend already. *)
Definition mobile : team.Team :=
  team.mkTeam "mobile"
    [mkUser "u2" "Bobby" "backend" true; mkUser "u6" "Frank" "mobile" true].

(** [backend] with pr-1 by u1 open and reviewed by u2 and u3. *)
Definition reviewing : ReviewerService Store := scenario.opened.

(** A day of calls on team backend: a second team is created, u1 opens
    pr-1, u3 is switched to inactive, u2 is reassigned, pr-1 is merged, and
    a reassignment and a merge are tried after the merge. *)
Definition day : list frontdesk.Call :=
  [frontdesk.CallCreateTeam payments;
   frontdesk.CallCore (OpCreate 100 (scenario.request "pr-1" "Initial" "u1"));
   frontdesk.CallSetUserActive "u3" false;
   frontdesk.CallCore (OpReassign "pr-1" "u2");
   frontdesk.CallListUserReviews "u3";
   frontdesk.CallCore (OpMerge 200 "pr-1");
   frontdesk.CallCore (OpReassign "pr-1" "u3");
   frontdesk.CallCore (OpMerge 300 "pr-1")].

Definition morning : ReviewerService Store :=
  mkReviewerService scenario.backend scenario.seed.

(** A team of one. *)
Definition solo : ReviewerService Store :=
  mkReviewerService
    (mkStore {[ "solo" ]} {[ "u9" := mkUserRow "Ivan" "solo" true ]} ∅ ∅)
    scenario.seed.

End casebook.

(* ===================================================================== *)
(** ** Package httptransport: the requests (dto.go) *)
(* ===================================================================== *)

(** Each struct of dto.go and response.go is a record [t] in a module of
    the struct's name, the structs sharing field names. An [error] made by
    [errors.New] or [fmt.Errorf] is its message; [None] is [nil]. *)

Module teamMemberRequest.
Record t := mk {
  UserID : string;
  Username : string;
  IsActive : bool
}.
End teamMemberRequest.

Module teamRequest.
Record t := mk {
  TeamName : string;
  Members : list teamMemberRequest.t
}.

(** The loop of [validate] from index [i] on; [%d] prints [i] in decimal. *)
Fixpoint validateMembers (i : nat) (members : list teamMemberRequest.t)
    : option string :=
  match members with
  | [] => None
  | member :: rest =>
      if decide (teamMemberRequest.UserID member = "") then
        Some ("members[" +:+ pretty i +:+ "].user_id is required")
      else if decide (teamMemberRequest.Username member = "") then
        Some ("members[" +:+ pretty i +:+ "].username is required")
      else validateMembers (S i) rest
  end.

Definition validate (req : t) : option string :=
  if decide (TeamName req = "") then Some "team_name is required"
  else if decide (length (Members req) = 0%nat) then Some "members are required"
  else validateMembers 0 (Members req).

Definition toDomain (req : t) : team.Team :=
  team.mkTeam (TeamName req)
    ((λ member,
        mkUser (teamMemberRequest.UserID member) (teamMemberRequest.Username member)
          (TeamName req) (teamMemberRequest.IsActive member))
       <$> Members req).

End teamRequest.

Module setUserActiveRequest.
Record t := mk {
  UserID : string;
  IsActive : bool
}.

Definition validate (r : t) : option string :=
  if decide (UserID r = "") then Some "user_id is required" else None.

End setUserActiveRequest.

Module createPRRequest.
Record t := mk {
  ID : string;
  Name : string;
  AuthorID : string
}.

Definition validate (r : t) : option string :=
  if decide (ID r = "") then Some "pull_request_id is required"
  else if decide (Name r = "") then Some "pull_request_name is required"
  else if decide (AuthorID r = "") then Some "author_id is required"
  else None.

End createPRRequest.

Module mergePRRequest.
Record t := mk {
  ID : string
}.

Definition validate (r : t) : option string :=
  if decide (ID r = "") then Some "pull_request_id is required" else None.

End mergePRRequest.

Module reassignRequest.
Record t := mk {
  PullRequestID : string;
  OldUserID : string
}.

Definition validate (r : t) : option string :=
  if decide (PullRequestID r = "") then Some "pull_request_id is required"
  else if decide (OldUserID r = "") then Some "old_user_id is required"
  else None.

End reassignRequest.

(* ===================================================================== *)
(** ** Package httptransport: the responses (response.go) *)
(* ===================================================================== *)

Module teamMemberPayload.
Record t := mk {
  UserID : string;
  Username : string;
  IsActive : bool
}.
End teamMemberPayload.

Module teamPayload.
Record t := mk {
  TeamName : string;
  Members : list teamMemberPayload.t
}.
End teamPayload.

Module userPayload.
Record t := mk {
  UserID : string;
  Username : string;
  TeamName : string;
  IsActive : bool
}.
End userPayload.

(** [CreatedAt] and [MergedAt] are pointers with [omitempty]: [None] is the
    nil pointer, which leaves the key out of the JSON object. *)
Module pullRequestPayload.
Record t := mk {
  ID : string;
  Name : string;
  AuthorID : string;
  Status : string;
  AssignedReviewers : list string;
  CreatedAt : option Time;
  MergedAt : option Time
}.
End pullRequestPayload.

(** The map of four keys that [mapPullRequestShort] builds. *)
Module pullRequestShort.
Record t := mk {
  pull_request_id : string;
  pull_request_name : string;
  author_id : string;
  status : string
}.
End pullRequestShort.

(** The status codes of net/http that the handlers use. *)
Module http.
Definition StatusOK : Z := 200.
Definition StatusCreated : Z := 201.
Definition StatusBadRequest : Z := 400.
Definition StatusNotFound : Z := 404.
Definition StatusConflict : Z := 409.
Definition StatusInternalServerError : Z := 500.
End http.

(* ===================================================================== *)
(** ** Package httptransport: the handlers *)
(* ===================================================================== *)

Module httptransport.
Import service.

(** What a handler passes to [respondJSON]: the error response, a payload of
    response.go, or one of the [map[string]any] literals of the handlers. *)
Inductive Payload :=
| errorResponse (Code Message : string)
| teamEnvelope (team : teamPayload.t)
| teamBody (team : teamPayload.t)
| userEnvelope (user : userPayload.t)
| prEnvelope (pr : pullRequestPayload.t)
| reassignEnvelope (pr : pullRequestPayload.t) (replaced_by : string)
| reviewsEnvelope (user_id : string) (pull_requests : list pullRequestShort.t).

(** What is written to the [http.ResponseWriter]: the status and the
    payload that is encoded as the body. *)
Record Response := mkResponse {
  status : Z;
  payload : Payload
}.

Definition respondJSON (status : Z) (payload : Payload) : Response :=
  mkResponse status payload.

Definition respondError (status : Z) (code message : string) : Response :=
  respondJSON status (errorResponse code message).

Definition mapTeam (t : team.Team) : teamPayload.t :=
  teamPayload.mk (team.Name t)
    ((λ member, teamMemberPayload.mk (ID member) (Username member) (IsActive member))
       <$> team.Members t).

Definition mapUser (user : User) : userPayload.t :=
  userPayload.mk (ID user) (Username user) (TeamName user) (IsActive user).

(** [time.Time.IsZero]: the zero value of [time.Time] is the origin of the
    time line. *)
Definition IsZero (t : Time) : bool := bool_decide (t = 0).

Definition mapPullRequest (pr : PullRequest) : pullRequestPayload.t :=
  let createdAt := if IsZero (CreatedAt pr) then None else Some (CreatedAt pr) in
  pullRequestPayload.mk (PRID pr) (Name pr) (AuthorID pr) (Status pr)
    (AssignedReviewers pr) createdAt (MergedAt pr).

Definition mapPullRequestShort (pr : PullRequest) : pullRequestShort.t :=
  pullRequestShort.mk (PRID pr) (Name pr) (AuthorID pr) (Status pr).

(** [handleDomainError], called with a non-nil error only; the default
    branch takes every error that is not one of errors.go. *)
Definition handleDomainError (err : error) : Response :=
  match err with
  | ErrTeamExists =>
      respondError http.StatusBadRequest "TEAM_EXISTS" "team_name already exists"
  | ErrPRExists =>
      respondError http.StatusConflict "PR_EXISTS" "pull request already exists"
  | ErrPRMerged =>
      respondError http.StatusConflict "PR_MERGED" "cannot modify merged pull request"
  | ErrReviewerNotFound =>
      respondError http.StatusConflict "NOT_ASSIGNED"
        "reviewer is not assigned to this pull request"
  | ErrNoReplacement =>
      respondError http.StatusConflict "NO_CANDIDATE"
        "no active replacement candidate in team"
  | ErrTeamNotFound | ErrUserNotFound | ErrPullRequestNotFound =>
      respondError http.StatusNotFound "NOT_FOUND" "resource not found"
  | PgError _ _ =>
      respondError http.StatusInternalServerError "INTERNAL" "internal server error"
  end.

(** The handlers take the request as the JSON decoder leaves it: [None] when
    [Decode] fails, otherwise the struct, a key that is absent leaving the
    zero value of its field; or the value of the query parameter, empty when
    it is absent. [now] is the reading of the clock during the request. *)
Section handlers.
Context `{storage.Repository St} `{directory.Directory St}.

Definition CreateTeam (h : ReviewerService St) (body : option teamRequest.t)
    : Response * ReviewerService St :=
  match body with
  | None => (respondError http.StatusBadRequest "BAD_REQUEST" "invalid request body", h)
  | Some req =>
      match teamRequest.validate req with
      | Some message => (respondError http.StatusBadRequest "BAD_REQUEST" message, h)
      | None =>
          match frontdesk.CreateTeam h (teamRequest.toDomain req) with
          | (Err err, h') => (handleDomainError err, h')
          | (Ok created, h') =>
              (respondJSON http.StatusCreated (teamEnvelope (mapTeam created)), h')
          end
      end
  end.

Definition GetTeam (h : ReviewerService St) (teamName : string) : Response :=
  if decide (teamName = "") then
    respondError http.StatusBadRequest "BAD_REQUEST" "team_name is required"
  else
    match frontdesk.GetTeam h teamName with
    | Err err => handleDomainError err
    | Ok t => respondJSON http.StatusOK (teamBody (mapTeam t))
    end.

Definition SetUserActive (h : ReviewerService St) (body : option setUserActiveRequest.t)
    : Response * ReviewerService St :=
  match body with
  | None => (respondError http.StatusBadRequest "BAD_REQUEST" "invalid request body", h)
  | Some req =>
      match setUserActiveRequest.validate req with
      | Some message => (respondError http.StatusBadRequest "BAD_REQUEST" message, h)
      | None =>
          match frontdesk.SetUserActive h (setUserActiveRequest.UserID req)
                  (setUserActiveRequest.IsActive req) with
          | (Err err, h') => (handleDomainError err, h')
          | (Ok user, h') => (respondJSON http.StatusOK (userEnvelope (mapUser user)), h')
          end
      end
  end.

(** The record handed to the service has the three fields of the request;
    Status, AssignedReviewers, CreatedAt and MergedAt are the zero values. *)
Definition CreatePullRequest (h : ReviewerService St) (now : Time)
    (body : option createPRRequest.t) : Response * ReviewerService St :=
  match body with
  | None => (respondError http.StatusBadRequest "BAD_REQUEST" "invalid request body", h)
  | Some req =>
      match createPRRequest.validate req with
      | Some message => (respondError http.StatusBadRequest "BAD_REQUEST" message, h)
      | None =>
          match service.CreatePullRequest h now
                  (mkPullRequest (createPRRequest.ID req) (createPRRequest.Name req)
                     (createPRRequest.AuthorID req) "" [] 0 None) with
          | (Err err, h') => (handleDomainError err, h')
          | (Ok pr, h') =>
              (respondJSON http.StatusCreated (prEnvelope (mapPullRequest pr)), h')
          end
      end
  end.

Definition MergePullRequest (h : ReviewerService St) (now : Time)
    (body : option mergePRRequest.t) : Response * ReviewerService St :=
  match body with
  | None => (respondError http.StatusBadRequest "BAD_REQUEST" "invalid request body", h)
  | Some req =>
      match mergePRRequest.validate req with
      | Some message => (respondError http.StatusBadRequest "BAD_REQUEST" message, h)
      | None =>
          match service.MergePullRequest h now (mergePRRequest.ID req) with
          | (Err err, h') => (handleDomainError err, h')
          | (Ok pr, h') => (respondJSON http.StatusOK (prEnvelope (mapPullRequest pr)), h')
          end
      end
  end.

Definition ReassignReviewer (h : ReviewerService St) (body : option reassignRequest.t)
    : Response * ReviewerService St :=
  match body with
  | None => (respondError http.StatusBadRequest "BAD_REQUEST" "invalid request body", h)
  | Some req =>
      match reassignRequest.validate req with
      | Some message => (respondError http.StatusBadRequest "BAD_REQUEST" message, h)
      | None =>
          match service.ReassignReviewer h (reassignRequest.PullRequestID req)
                  (reassignRequest.OldUserID req) with
          | (Err err, h') => (handleDomainError err, h')
          | (Ok (pr, replacedBy), h') =>
              (respondJSON http.StatusOK (reassignEnvelope (mapPullRequest pr) replacedBy),
               h')
          end
      end
  end.

Definition GetUserReviews (h : ReviewerService St) (userID : string) : Response :=
  if decide (userID = "") then
    respondError http.StatusBadRequest "BAD_REQUEST" "user_id is required"
  else
    match frontdesk.ListUserReviews h userID with
    | Err err => handleDomainError err
    | Ok prs =>
        respondJSON http.StatusOK (reviewsEnvelope userID (mapPullRequestShort <$> prs))
    end.

(** A request as [Router] routes it, /health apart: the method and path,
    with the decoded body or the query parameter. *)
Inductive Request :=
| PostTeamAdd (body : option teamRequest.t)
| GetTeamGet (team_name : string)
| PostUsersSetIsActive (body : option setUserActiveRequest.t)
| GetUsersGetReview (user_id : string)
| PostPullRequestCreate (now : Time) (body : option createPRRequest.t)
| PostPullRequestMerge (now : Time) (body : option mergePRRequest.t)
| PostPullRequestReassign (body : option reassignRequest.t).

(** The routes of [Router]. *)
Definition serve (h : ReviewerService St) (r : Request) : Response * ReviewerService St :=
  match r with
  | PostTeamAdd body => CreateTeam h body
  | GetTeamGet teamName => (GetTeam h teamName, h)
  | PostUsersSetIsActive body => SetUserActive h body
  | GetUsersGetReview userID => (GetUserReviews h userID, h)
  | PostPullRequestCreate now body => CreatePullRequest h now body
  | PostPullRequestMerge now body => MergePullRequest h now body
  | PostPullRequestReassign body => ReassignReviewer h body
  end.

(** Requests served one after the other. *)
Fixpoint serveAll (h : ReviewerService St) (rs : list Request)
    : list Response * ReviewerService St :=
  match rs with
  | [] => ([], h)
  | r :: rest =>
      let '(resp, h') := serve h r in
      let '(resps, h'') := serveAll h' rest in
      (resp :: resps, h'')
  end.

End handlers.

(** A pull request in a response carries mergedAt iff its status is MERGED. *)
Definition payloadMergedIffTimestamp (p : Payload) : Prop :=
  match p with
  | prEnvelope pr | reassignEnvelope pr _ =>
      is_Some (pullRequestPayload.MergedAt pr) ↔ pullRequestPayload.Status pr = StatusMerged
  | _ => True
  end.

End httptransport.

(** The vocabulary of the properties of the HTTP interface. *)
Module apispec.
Import httptransport.

(** A response whose status is none of a server error. *)
Definition answered (resp : Response) : Prop :=
  status resp ∈ [http.StatusOK; http.StatusCreated; http.StatusBadRequest;
                 http.StatusNotFound; http.StatusConflict].

(** A member of a team request with both of its names. *)
Definition complete (member : teamMemberRequest.t) : Prop :=
  teamMemberRequest.UserID member ≠ "" ∧ teamMemberRequest.Username member ≠ "".

(** The payload of a member as the request gives it. *)
Definition echo (member : teamMemberRequest.t) : teamMemberPayload.t :=
  teamMemberPayload.mk (teamMemberRequest.UserID member)
    (teamMemberRequest.Username member) (teamMemberRequest.IsActive member).

(** The order of the members of a team payload: by user_id. *)
Definition by_user_id (a b : teamMemberPayload.t) : Prop :=
  postgres.id_le (teamMemberPayload.UserID a) (teamMemberPayload.UserID b).

End apispec.

(** Requests used as examples below. *)
Module wire.
Import httptransport.

Definition payments : teamRequest.t :=
  teamRequest.mk "payments"
    [teamMemberRequest.mk "u5" "Eve" false; teamMemberRequest.mk "u4" "Dora" true].

(** The third member has no username. *)
Definition unnamed : teamRequest.t :=
  teamRequest.mk "platform"
    [teamMemberRequest.mk "u7" "Gina" true; teamMemberRequest.mk "u8" "Hugo" true;
     teamMemberRequest.mk "u9" "" true].

(** Requests to a service that knows team backend: valid and invalid ones,
    and ones the service refuses. *)
Definition traffic : list Request :=
  [PostTeamAdd (Some payments);
   PostTeamAdd (Some unnamed);
   PostTeamAdd (Some (teamRequest.mk "backend" [teamMemberRequest.mk "u1" "Alice" true]));
   PostPullRequestCreate 100 (Some (createPRRequest.mk "pr-1" "Initial" "u1"));
   PostPullRequestCreate 110 (Some (createPRRequest.mk "pr-1" "Again" "u2"));
   PostPullRequestCreate 120 (Some (createPRRequest.mk "pr-2" "Orphan" "u0"));
   PostPullRequestCreate 130 None;
   PostUsersSetIsActive (Some (setUserActiveRequest.mk "u3" false));
   PostPullRequestReassign (Some (reassignRequest.mk "pr-1" "u2"));
   GetUsersGetReview "u3";
   PostPullRequestMerge 200 (Some (mergePRRequest.mk "pr-1"));
   PostPullRequestReassign (Some (reassignRequest.mk "pr-1" "u3"));
   PostPullRequestMerge 300 (Some (mergePRRequest.mk "pr-7"));
   PostPullRequestMerge 310 (Some (mergePRRequest.mk ""));
   GetTeamGet "payments";
   GetTeamGet ""].

End wire.

(* ===================================================================== *)
(** ** Properties of the random source *)
(* ===================================================================== *)

Module rand_facts.
Import rand.

Lemma insert_head_Permutation {A} (l : list A) (j : nat) (a y : A) :
  l !! j = Some y → y :: <[j := a]> l ≡ₚ a :: l.
Proof.
  revert j. induction l as [|b l IH]; intros [|j] Hj; simplify_eq/=.
  - apply perm_swap.
  - etrans; [apply perm_swap|]. rewrite (IH j Hj). apply perm_swap.
Qed.

Lemma swap_Permutation {A} (l : list A) (i j : nat) : swap l i j ≡ₚ l.
Proof.
  unfold swap.
  destruct (l !! i) as [x|] eqn:Hi; [|done].
  destruct (l !! j) as [y|] eqn:Hj; [|done].
  revert i j Hi Hj. induction l as [|a l IH]; intros [|i] [|j] Hi Hj; simplify_eq/=.
  - done.
  - by apply insert_head_Permutation.
  - by apply insert_head_Permutation.
  - f_equiv. by apply IH.
Qed.

Lemma ShuffleFrom_Permutation {A} (i : nat) (r : Rand) (l : list A) :
  (ShuffleFrom i r l).1 ≡ₚ l.
Proof.
  revert r l. induction i as [|i IH]; intros r l; [done|].
  cbn [ShuffleFrom]. destruct (Intn r (S (S i))) as [j r'].
  rewrite IH. apply swap_Permutation.
Qed.

Lemma Shuffle_Permutation {A} (r : Rand) (l : list A) : (Shuffle r l).1 ≡ₚ l.
Proof. apply ShuffleFrom_Permutation. Qed.

Lemma Shuffle_length {A} (r : Rand) (l : list A) :
  length (Shuffle r l).1 = length l.
Proof. apply Permutation_length, Shuffle_Permutation. Qed.

(** [Intn] stays below its bound, so the swaps of Shuffle are in range. *)
Lemma Intn_lt (r : Rand) (n : nat) : (0 < n)%nat → ((Intn r n).1 < n)%nat.
Proof.
  intros Hn. destruct r as [|x r]; simpl; [done|].
  apply Nat.mod_upper_bound. lia.
Qed.

End rand_facts.

(* ===================================================================== *)
(** ** Properties of the selection helpers *)
(* ===================================================================== *)

Module selection.
Import rand rand_facts service.

Lemma contains_true (items : list string) (target : string) :
  contains items target = true ↔ target ∈ items.
Proof.
  induction items as [|item rest IH]; simpl.
  - split; [done | by intros ?%elem_of_nil].
  - rewrite elem_of_cons. case_decide; subst; [naive_solver|].
    rewrite IH. naive_solver.
Qed.

Lemma contains_false (items : list string) (target : string) :
  contains items target = false ↔ target ∉ items.
Proof. rewrite <- contains_true. by destruct (contains items target). Qed.

(** [reviewerIndex] answers -1 exactly when the target is absent, and the
    position of its first occurrence otherwise. *)
Lemma reviewerIndexFrom_absent (i : Z) (reviewers : list string) (target : string) :
  0 <= i → reviewerIndexFrom i reviewers target = -1 ↔ target ∉ reviewers.
Proof.
  revert i. induction reviewers as [|r rest IH]; intros i Hi; simpl.
  - split; [by intros _ ?%elem_of_nil | done].
  - rewrite not_elem_of_cons. case_decide; subst.
    + split; [lia | naive_solver].
    + rewrite IH by lia. naive_solver.
Qed.

Lemma reviewerIndexFrom_found (i : Z) (reviewers : list string) (target : string) :
  0 <= i → target ∈ reviewers →
  ∃ k : nat, reviewerIndexFrom i reviewers target = i + Z.of_nat k
             ∧ reviewers !! k = Some target
             ∧ target ∉ take k reviewers.
Proof.
  revert i. induction reviewers as [|r rest IH]; intros i Hi Hin.
  - by apply elem_of_nil in Hin.
  - simpl. case_decide; subst.
    + exists 0%nat. split_and!; [lia | done | apply not_elem_of_nil].
    + apply elem_of_cons in Hin as [?|Hin]; [congruence|].
      destruct (IH (i + 1) ltac:(lia) Hin) as (k & Hk & Hl & Ht).
      exists (S k). split_and!; [lia | done |].
      simpl. rewrite not_elem_of_cons. naive_solver.
Qed.

Lemma reviewerIndex_absent (reviewers : list string) (target : string) :
  reviewerIndex reviewers target = -1 ↔ target ∉ reviewers.
Proof. by apply reviewerIndexFrom_absent. Qed.

Lemma reviewerIndex_found (reviewers : list string) (target : string) :
  reviewerIndex reviewers target ≠ -1 →
  ∃ k : nat, reviewerIndex reviewers target = Z.of_nat k
             ∧ reviewers !! k = Some target
             ∧ target ∉ take k reviewers.
Proof.
  intros Hne.
  assert (target ∈ reviewers) as Hin.
  { destruct (decide (target ∈ reviewers)) as [|Hn]; [done|].
    by apply reviewerIndex_absent in Hn. }
  destruct (reviewerIndexFrom_found 0 reviewers target ltac:(lia) Hin)
    as (k & Hk & Hl & Ht).
  exists k. by rewrite Z.add_0_l in Hk.
Qed.

(** The two filters are the declarative filters of their conditions. *)
Lemma filterReviewers_filter (users : list User) (authorID : string) :
  filterReviewers users authorID
  = filter (λ u, ID u ≠ authorID ∧ IsActive u = true) users.
Proof.
  induction users as [|u rest IH]; [done|]. simpl.
  rewrite filter_cons. case_decide as Ha.
  - rewrite decide_False by naive_solver. done.
  - destruct (IsActive u) eqn:Hact; simpl.
    + rewrite decide_True by done. by rewrite IH.
    + rewrite decide_False by naive_solver. done.
Qed.

Lemma filterForReplacement_filter (users : list User) (oldReviewerID : string)
    (assigned : list string) :
  filterForReplacement users oldReviewerID assigned
  = filter (λ u, ID u ≠ oldReviewerID ∧ IsActive u = true ∧ ID u ∉ assigned) users.
Proof.
  induction users as [|u rest IH]; [done|]. simpl.
  rewrite filter_cons. case_decide as Ha.
  - rewrite decide_False by naive_solver. done.
  - destruct (IsActive u) eqn:Hact; simpl.
    + destruct (contains assigned (ID u)) eqn:Hc.
      * apply contains_true in Hc. rewrite decide_False by naive_solver. done.
      * apply contains_false in Hc. rewrite decide_True by done. by rewrite IH.
    + rewrite decide_False by naive_solver. done.
Qed.

(** What [pickReviewers] returns: the ids of a prefix of some rearrangement
    of the pool, of length min(limit, len(users)) (nothing for limit <= 0). *)
Lemma pickReviewers_prefix (rnd : Rand) (users : list User) (limit : Z) :
  ∃ shuffled : list User,
    shuffled ≡ₚ users
    ∧ (pickReviewers rnd users limit).1
      = ID <$> take (Z.to_nat (Z.min limit (Z.of_nat (length users)))) shuffled.
Proof.
  unfold pickReviewers. case_decide as Hc.
  - exists users. split; [done|]. destruct Hc as [Hc|Hc].
    + apply nil_length_inv in Hc. subst. by rewrite take_nil.
    + replace (Z.to_nat _) with 0%nat by lia. done.
  - pose proof (Shuffle_Permutation rnd users) as Hp.
    pose proof (Shuffle_length rnd users) as Hl.
    destruct (Shuffle rnd users) as [copyUsers rnd']. simpl in *.
    exists copyUsers. split; [done|]. do 2 f_equal.
    case_decide; lia.
Qed.

Lemma pickReviewers_length (rnd : Rand) (users : list User) (limit : Z) :
  length (pickReviewers rnd users limit).1
  = Z.to_nat (Z.min limit (Z.of_nat (length users))).
Proof.
  destruct (pickReviewers_prefix rnd users limit) as (sh & Hp & ->).
  rewrite length_fmap, length_take, (Permutation_length Hp). lia.
Qed.

(** The picks are ids of users of the pool, and distinct when the ids of the
    pool are. *)
Lemma pickReviewers_elem_of (rnd : Rand) (users : list User) (limit : Z) (id : string) :
  id ∈ (pickReviewers rnd users limit).1 → ∃ u, u ∈ users ∧ ID u = id.
Proof.
  destruct (pickReviewers_prefix rnd users limit) as (sh & Hp & ->).
  intros (u & -> & Hu)%list_elem_of_fmap.
  exists u. split; [|done]. rewrite <- Hp.
  apply elem_of_take in Hu as (i & Hi & _). by eapply list_elem_of_lookup_2.
Qed.

Lemma pickReviewers_NoDup (rnd : Rand) (users : list User) (limit : Z) :
  NoDup (ID <$> users) → NoDup (pickReviewers rnd users limit).1.
Proof.
  destruct (pickReviewers_prefix rnd users limit) as (sh & Hp & ->).
  intros Hnd. rewrite <- Hp in Hnd.
  rewrite <- (take_drop (Z.to_nat (Z.min limit (Z.of_nat (length users)))) sh) in Hnd.
  rewrite fmap_app in Hnd. by apply NoDup_app in Hnd as (? & _ & _).
Qed.

(** Overwriting one position of a list: the elements and distinctness. *)
Lemma elem_of_insert_inv {A} (l : list A) (k : nat) (x y : A) :
  y ∈ <[k := x]> l → y = x ∨ y ∈ l.
Proof.
  revert k. induction l as [|a l IH]; intros [|k]; simpl;
    rewrite ?elem_of_cons; naive_solver.
Qed.

Lemma NoDup_insert {A} (l : list A) (k : nat) (x : A) :
  NoDup l → x ∉ l → NoDup (<[k := x]> l).
Proof.
  revert k. induction l as [|a l IH]; intros [|k] Hnd Hx; simpl; try done.
  - apply NoDup_cons in Hnd as [Ha Hnd]. apply not_elem_of_cons in Hx as [_ Hx].
    by apply NoDup_cons.
  - apply NoDup_cons in Hnd as [Ha Hnd]. apply not_elem_of_cons in Hx as [Hxa Hx].
    apply NoDup_cons. split; [|by apply IH].
    intros [->|Hin]%elem_of_insert_inv; done.
Qed.

(** The elements of a duplicate-free list after one position is overwritten. *)
Lemma elem_of_insert_NoDup {A} (l : list A) (k : nat) (old new y : A) :
  NoDup l → l !! k = Some old →
  y ∈ <[k := new]> l ↔ y = new ∨ (y ∈ l ∧ y ≠ old).
Proof.
  intros Hnd Hk. pose proof (lookup_lt_Some _ _ _ Hk) as Hlt.
  rewrite insert_take_drop by done.
  rewrite <- (take_drop_middle l k old Hk) in Hnd at 1.
  apply NoDup_app in Hnd as (_ & Hdisj & [Hold _]%NoDup_cons).
  rewrite <- (take_drop_middle l k old Hk) at 3.
  rewrite !elem_of_app, !elem_of_cons. split.
  - intros [Hy|[->|Hy]]; [right | by left | right].
    + split; [by left|]. intros ->. apply (Hdisj old Hy). by left.
    + split; [by right; right|]. by intros ->.
  - intros [->|[[Hy|[->|Hy]] Hne]]; [by right; left | by left | done | by right; right].
Qed.

(** Two candidates and a limit of two: both are picked, in one of the two
    orders, whatever the generator yields. *)
Lemma pickReviewers_pair (rnd : Rand) (a b : User) :
  ∃ rnd', pickReviewers rnd [a; b] 2 = ([ID a; ID b], rnd')
          ∨ pickReviewers rnd [a; b] 2 = ([ID b; ID a], rnd').
Proof.
  unfold pickReviewers.
  rewrite decide_False by (simpl; intros [?|?]; [done|lia]).
  unfold Shuffle. change (length [a; b] - 1)%nat with 1%nat. unfold ShuffleFrom.
  destruct rnd as [|x rnd]; unfold Intn.
  - exists []. right. reflexivity.
  - exists rnd. pose proof (Nat.mod_upper_bound x 2 ltac:(lia)) as Hx.
    destruct (x mod 2)%nat as [|[|n]]; [right; reflexivity | left; reflexivity | lia].
Qed.

End selection.

(* ===================================================================== *)
(** ** Properties of the relational store *)
(* ===================================================================== *)

Module postgres_facts.
Import postgres.

(** *** The order of reviewer ids is a total order *)

Lemma id_le_cases (a b : string) :
  id_le a b ↔ a = b ∨ OrderedTypeEx.String_as_OT.lt a b.
Proof.
  unfold id_le, String.leb.
  rewrite <- OrderedTypeEx.String_as_OT.cmp_eq, <- OrderedTypeEx.String_as_OT.cmp_lt.
  unfold OrderedTypeEx.String_as_OT.cmp.
  destruct (String.compare a b); naive_solver.
Qed.

#[global] Instance id_le_trans : Transitive id_le.
Proof.
  intros a b c [->|Hab]%id_le_cases [->|Hbc]%id_le_cases; apply id_le_cases; auto.
  right. by eapply OrderedTypeEx.String_as_OT.lt_trans.
Qed.

#[global] Instance id_le_antisymm : AntiSymm eq id_le.
Proof. intros a b. apply String.leb_antisym. Qed.

#[global] Instance id_le_total : Total id_le.
Proof. intros a b. apply String.leb_total. Qed.

(** *** Reading the reviewers of a pull request *)

Lemma reviewersOf_Permutation (tbl : gset (string * string)) (id : string) :
  reviewersOf tbl id ≡ₚ snd <$> filter (λ p, p.1 = id) (elements tbl).
Proof. apply merge_sort_Permutation. Qed.

Lemma reviewersOf_elem_of (tbl : gset (string * string)) (id r : string) :
  r ∈ reviewersOf tbl id ↔ (id, r) ∈ tbl.
Proof.
  rewrite reviewersOf_Permutation, list_elem_of_fmap. split.
  - intros ([i r'] & -> & Hin). apply list_elem_of_filter in Hin as [Hi Hin].
    simpl in *. subst. by apply elem_of_elements in Hin.
  - intros Hin. exists (id, r). split; [done|].
    apply list_elem_of_filter. split; [done|]. by apply elem_of_elements.
Qed.

Lemma reviewersOf_NoDup (tbl : gset (string * string)) (id : string) :
  NoDup (reviewersOf tbl id).
Proof.
  rewrite reviewersOf_Permutation. apply NoDup_fmap_2_strong.
  - intros [i1 r1] [i2 r2] [H1 _]%list_elem_of_filter [H2 _]%list_elem_of_filter ?.
    simpl in *. congruence.
  - apply NoDup_filter, NoDup_elements.
Qed.

Lemma reviewersOf_sorted (tbl : gset (string * string)) (id : string) :
  StronglySorted id_le (reviewersOf tbl id).
Proof. apply StronglySorted_merge_sort; apply _. Qed.

(** Two tables with the same rows for a pull request read back the same
    list, whatever their other rows. *)
Lemma reviewersOf_ext (tbl1 tbl2 : gset (string * string)) (id : string) :
  (∀ r, (id, r) ∈ tbl1 ↔ (id, r) ∈ tbl2) →
  reviewersOf tbl1 id = reviewersOf tbl2 id.
Proof.
  intros Hrows. apply (StronglySorted_unique id_le); try apply reviewersOf_sorted.
  apply NoDup_Permutation; try apply reviewersOf_NoDup.
  intros r. by rewrite !reviewersOf_elem_of.
Qed.

(** A table whose rows for a pull request are those of a duplicate-free
    list reads back a rearrangement of that list. *)
Lemma reviewersOf_of_list (tbl : gset (string * string)) (id : string)
    (reviewers : list string) :
  NoDup reviewers → (∀ r, (id, r) ∈ tbl ↔ r ∈ reviewers) →
  reviewersOf tbl id ≡ₚ reviewers.
Proof.
  intros Hnd Hrows. apply NoDup_Permutation; [apply reviewersOf_NoDup | done |].
  intros r. by rewrite reviewersOf_elem_of.
Qed.

(** *** The loop of reviewer inserts *)

Lemma insertReviewers_Ok (us : gmap string UserRow) (tbl tbl' : gset (string * string))
    (id : string) (reviewers : list string) :
  insertReviewers us tbl id reviewers = Ok tbl' →
  NoDup reviewers
  ∧ (∀ r, r ∈ reviewers → ((id, r) ∉ tbl) ∧ is_Some (us !! r))
  ∧ (∀ p, p ∈ tbl' ↔ p ∈ tbl ∨ (p.1 = id ∧ p.2 ∈ reviewers)).
Proof.
  revert tbl. induction reviewers as [|r rest IH]; intros tbl Hins; simpl in Hins.
  - simplify_eq. split_and!; [constructor | by intros ? ?%elem_of_nil |].
    intros p. split; [auto | intros [|[_ ?%elem_of_nil]]; done].
  - case_decide as Hdup; [done|]. case_decide as Hfk; [|done].
    apply IH in Hins as (Hnd & Hfresh & Hrows). split_and!.
    + constructor; [|done]. intros Hin. apply Hfresh in Hin as [Hin _].
      apply Hin. set_solver.
    + intros r' [->|Hin]%elem_of_cons; [done|].
      apply Hfresh in Hin as [Hin ?]. split; [set_solver | done].
    + intros [i r']. rewrite Hrows. simpl. rewrite elem_of_cons.
      rewrite elem_of_union, elem_of_singleton. naive_solver.
Qed.

Lemma insertReviewers_succeeds (us : gmap string UserRow) (tbl : gset (string * string))
    (id : string) (reviewers : list string) :
  NoDup reviewers →
  (∀ r, r ∈ reviewers → ((id, r) ∉ tbl) ∧ is_Some (us !! r)) →
  ∃ tbl', insertReviewers us tbl id reviewers = Ok tbl'.
Proof.
  revert tbl. induction reviewers as [|r rest IH]; intros tbl Hnd Hfresh; simpl.
  - by eexists.
  - apply NoDup_cons in Hnd as [Hr Hnd].
    destruct (Hfresh r) as [Hnew Hu]; [set_solver|].
    rewrite decide_False by done. rewrite decide_True by done.
    apply IH; [done|]. intros r' Hin.
    destruct (Hfresh r') as [Hnew' Hu']; [set_solver|].
    split; [|done]. rewrite elem_of_union, elem_of_singleton.
    intros [?|?]; [|done]. simplify_eq. done.
Qed.

(** *** The reads *)

Lemma GetUser_Ok (s : Store) (userID : string) (u : User) :
  GetUser s userID = Ok u ↔
  ∃ row, users s !! userID = Some row ∧ u = userOfRow (userID, row).
Proof.
  unfold GetUser. destruct (users s !! userID) as [row|]; split.
  - intros [= <-]. by exists row.
  - intros (row' & [= <-] & ->). done.
  - done.
  - by intros (row' & ? & _).
Qed.

Lemma GetUser_Err (s : Store) (userID : string) (err : error) :
  GetUser s userID = Err err ↔ users s !! userID = None ∧ err = ErrUserNotFound.
Proof.
  unfold GetUser. destruct (users s !! userID) as [row|]; split;
    [done | by intros [? _] | by intros [= <-] | by intros [_ ->]].
Qed.

Lemma GetUser_ID (s : Store) (userID : string) (u : User) :
  GetUser s userID = Ok u → ID u = userID.
Proof. intros (row & _ & ->)%GetUser_Ok. done. Qed.

Lemma ListUsersByTeam_Ok (s : Store) (teamName : string) (members : list User) :
  ListUsersByTeam s teamName = Ok members →
  teamName ∈ teams s
  ∧ NoDup (ID <$> members)
  ∧ (∀ u, u ∈ members ↔ GetUser s (ID u) = Ok u ∧ TeamName u = teamName).
Proof.
  unfold ListUsersByTeam. case_decide as Hteam; [|done]. intros [= <-].
  split_and!; [done | |].
  - pose proof (NoDup_fst_map_to_list (users s)) as Hnd.
    eapply sublist_NoDup; [|apply fmap_sublist, sublist_filter].
    rewrite <- list_fmap_compose.
    by rewrite (list_fmap_ext (ID ∘ userOfRow) fst (map_to_list (users s))).
  - intros u. rewrite list_elem_of_filter, list_elem_of_fmap. split.
    + intros [Ht ([id row] & -> & Hin)]. split; [|done].
      apply elem_of_map_to_list in Hin. apply GetUser_Ok. by exists row.
    + intros [(row & Hrow & Hu)%GetUser_Ok Ht]. split; [done|].
      exists (ID u, row). split; [done|]. by apply elem_of_map_to_list.
Qed.

Lemma ListUsersByTeam_Err (s : Store) (teamName : string) (err : error) :
  ListUsersByTeam s teamName = Err err → (teamName ∉ teams s) ∧ err = ErrTeamNotFound.
Proof. unfold ListUsersByTeam. case_decide; [done|]. by intros [= <-]. Qed.

(** With the foreign key of users.team_name in force, the team of a stored
    user can always be listed. *)
Lemma ListUsersByTeam_of_user (s : Store) (userID : string) (u : User) :
  fk_users_team s → GetUser s userID = Ok u →
  ∃ members, ListUsersByTeam s (TeamName u) = Ok members.
Proof.
  intros Hfk (row & Hrow & ->)%GetUser_Ok. unfold ListUsersByTeam.
  rewrite decide_True; [by eexists|]. simpl. by apply (Hfk userID row).
Qed.

Lemma GetPullRequest_Ok (s : Store) (id : string) (pr : PullRequest) :
  GetPullRequest s id = Ok pr ↔
  ∃ row, pull_requests s !! id = Some row
         ∧ pr = mkPullRequest id (pull_request_name row) (author_id row) (status row)
                  (reviewersOf (pull_request_reviewers s) id)
                  (created_at row) (merged_at row).
Proof.
  unfold GetPullRequest. destruct (pull_requests s !! id) as [row|]; split.
  - intros [= <-]. by exists row.
  - intros (row' & [= <-] & ->). done.
  - done.
  - by intros (row' & ? & _).
Qed.

Lemma GetPullRequest_Err (s : Store) (id : string) (err : error) :
  GetPullRequest s id = Err err ↔
  pull_requests s !! id = None ∧ err = ErrPullRequestNotFound.
Proof.
  unfold GetPullRequest. destruct (pull_requests s !! id) as [row|]; split;
    [done | by intros [? _] | by intros [= <-] | by intros [_ ->]].
Qed.

Lemma GetPullRequest_PRID (s : Store) (id : string) (pr : PullRequest) :
  GetPullRequest s id = Ok pr → PRID pr = id.
Proof. intros (row & _ & ->)%GetPullRequest_Ok. done. Qed.

Lemma GetPullRequest_NoDup (s : Store) (id : string) (pr : PullRequest) :
  GetPullRequest s id = Ok pr → NoDup (AssignedReviewers pr).
Proof. intros (row & _ & ->)%GetPullRequest_Ok. apply reviewersOf_NoDup. Qed.

(** *** The writes *)

Lemma updateTx_Ok (s s' : Store) (pr : PullRequest) :
  updateTx s pr = Ok s' →
  is_Some (pull_requests s !! PRID pr)
  ∧ is_Some (users s !! AuthorID pr)
  ∧ NoDup (AssignedReviewers pr)
  ∧ (∀ r, r ∈ AssignedReviewers pr → is_Some (users s !! r))
  ∧ teams s' = teams s
  ∧ users s' = users s
  ∧ pull_requests s' = <[PRID pr := rowOfPullRequest pr]> (pull_requests s)
  ∧ (∀ p, p ∈ pull_request_reviewers s' ↔
          (p ∈ pull_request_reviewers s ∧ p.1 ≠ PRID pr)
          ∨ (p.1 = PRID pr ∧ p.2 ∈ AssignedReviewers pr)).
Proof.
  unfold updateTx. case_decide as Hpr; [|done]. case_decide as Hau; [|done].
  destruct (insertReviewers _ _ _ _) as [tbl|e] eqn:Hins; [|done].
  intros [= <-]. apply insertReviewers_Ok in Hins as (Hnd & Hfresh & Hrows).
  split_and!; try done.
  - intros r Hr. by apply Hfresh.
  - intros p. simpl. rewrite Hrows, elem_of_filter. naive_solver.
Qed.

Lemma updateTx_succeeds (s : Store) (pr : PullRequest) :
  is_Some (pull_requests s !! PRID pr) →
  is_Some (users s !! AuthorID pr) →
  NoDup (AssignedReviewers pr) →
  (∀ r, r ∈ AssignedReviewers pr → is_Some (users s !! r)) →
  ∃ s', updateTx s pr = Ok s'.
Proof.
  intros Hpr Hau Hnd Hus. unfold updateTx.
  rewrite !decide_True by done.
  destruct (insertReviewers_succeeds (users s)
              (filter (λ p, p.1 ≠ PRID pr) (pull_request_reviewers s))
              (PRID pr) (AssignedReviewers pr)) as [tbl ->]; [done| |by eexists].
  intros r Hr. split; [|by apply Hus].
  rewrite elem_of_filter. simpl. naive_solver.
Qed.

(** A successful update returns the record as it reads back: the fields
    written, and the reviewers in the order of their ids. *)
Lemma UpdatePullRequest_Ok (s s' : Store) (pr pr' : PullRequest) :
  UpdatePullRequest s pr = (Ok pr', s') →
  updateTx s pr = Ok s'
  ∧ GetPullRequest s' (PRID pr) = Ok pr'
  ∧ PRID pr' = PRID pr ∧ Name pr' = Name pr ∧ AuthorID pr' = AuthorID pr
  ∧ Status pr' = Status pr ∧ CreatedAt pr' = CreatedAt pr ∧ MergedAt pr' = MergedAt pr
  ∧ AssignedReviewers pr' ≡ₚ AssignedReviewers pr.
Proof.
  unfold UpdatePullRequest. destruct (updateTx s pr) as [s1|e] eqn:Htx; [|done].
  intros [= Hget <-]. split; [done|]. split; [done|].
  pose proof Htx as (_ & _ & Hnd & _ & _ & _ & Hprs & Hrows)%updateTx_Ok.
  apply GetPullRequest_Ok in Hget as (row & Hrow & ->).
  rewrite Hprs, lookup_insert_eq in Hrow. simplify_eq. simpl.
  split_and!; try done.
  apply reviewersOf_of_list; [done|]. intros r. rewrite Hrows. simpl. naive_solver.
Qed.

Lemma UpdatePullRequest_Err (s s' : Store) (pr : PullRequest) (err : error) :
  UpdatePullRequest s pr = (Err err, s') →
  s' = s ∧ ∃ e, updateTx s pr = Err e ∧ err = translateError e.
Proof.
  unfold UpdatePullRequest. destruct (updateTx s pr) as [s1|e] eqn:Htx.
  - intros [= Hget <-]. apply updateTx_Ok in Htx as (_ & _ & _ & _ & _ & _ & Hprs & _).
    apply GetPullRequest_Err in Hget as [Hget _].
    by rewrite Hprs, lookup_insert_eq in Hget.
  - intros [= <- <-]. split; [done|]. by exists e.
Qed.

Lemma createTx_Ok (s s' : Store) (pr : PullRequest) :
  createTx s pr = Ok s' →
  pull_requests s !! PRID pr = None
  ∧ is_Some (users s !! AuthorID pr)
  ∧ NoDup (AssignedReviewers pr)
  ∧ (∀ r, r ∈ AssignedReviewers pr → is_Some (users s !! r))
  ∧ teams s' = teams s
  ∧ users s' = users s
  ∧ pull_requests s' = <[PRID pr := rowOfPullRequest pr]> (pull_requests s)
  ∧ (∀ p, p ∈ pull_request_reviewers s' ↔
          p ∈ pull_request_reviewers s
          ∨ (p.1 = PRID pr ∧ p.2 ∈ AssignedReviewers pr)).
Proof.
  unfold createTx. case_decide as Hpr; [done|]. case_decide as Hau; [|done].
  destruct (insertReviewers _ _ _ _) as [tbl|e] eqn:Hins; [|done].
  intros [= <-]. apply insertReviewers_Ok in Hins as (Hnd & Hfresh & Hrows).
  split_and!; try done.
  - by apply eq_None_not_Some.
  - intros r Hr. by apply Hfresh.
Qed.

Lemma createTx_succeeds (s : Store) (pr : PullRequest) :
  pull_requests s !! PRID pr = None →
  is_Some (users s !! AuthorID pr) →
  NoDup (AssignedReviewers pr) →
  (∀ r, r ∈ AssignedReviewers pr →
        ((PRID pr, r) ∉ pull_request_reviewers s) ∧ is_Some (users s !! r)) →
  ∃ s', createTx s pr = Ok s'.
Proof.
  intros Hpr Hau Hnd Hus. unfold createTx.
  rewrite decide_False by (by apply eq_None_not_Some).
  rewrite decide_True by done.
  destruct (insertReviewers_succeeds (users s) (pull_request_reviewers s)
              (PRID pr) (AssignedReviewers pr)) as [tbl ->]; [done..|by eexists].
Qed.

Lemma CreatePullRequest_Ok (s s' : Store) (pr pr' : PullRequest) :
  CreatePullRequest s pr = (Ok pr', s') →
  createTx s pr = Ok s'
  ∧ GetPullRequest s' (PRID pr) = Ok pr'
  ∧ PRID pr' = PRID pr ∧ Name pr' = Name pr ∧ AuthorID pr' = AuthorID pr
  ∧ Status pr' = Status pr ∧ CreatedAt pr' = CreatedAt pr ∧ MergedAt pr' = MergedAt pr
  ∧ (∀ r, r ∈ AssignedReviewers pr' ↔
          (PRID pr, r) ∈ pull_request_reviewers s ∨ r ∈ AssignedReviewers pr).
Proof.
  unfold CreatePullRequest. destruct (createTx s pr) as [s1|e] eqn:Htx; [|done].
  intros [= Hget <-]. split; [done|]. split; [done|].
  pose proof Htx as (_ & _ & Hnd & _ & _ & _ & Hprs & Hrows)%createTx_Ok.
  apply GetPullRequest_Ok in Hget as (row & Hrow & ->).
  rewrite Hprs, lookup_insert_eq in Hrow. simplify_eq. simpl.
  split_and!; try done.
  intros r. rewrite reviewersOf_elem_of, Hrows. simpl. naive_solver.
Qed.

Lemma CreatePullRequest_Err (s s' : Store) (pr : PullRequest) (err : error) :
  CreatePullRequest s pr = (Err err, s') →
  s' = s ∧ ∃ e, createTx s pr = Err e ∧ err = translateError e.
Proof.
  unfold CreatePullRequest. destruct (createTx s pr) as [s1|e] eqn:Htx.
  - intros [= Hget <-]. apply createTx_Ok in Htx as (_ & _ & _ & _ & _ & _ & Hprs & _).
    apply GetPullRequest_Err in Hget as [Hget _].
    by rewrite Hprs, lookup_insert_eq in Hget.
  - intros [= <- <-]. split; [done|]. by exists e.
Qed.

(** *** The foreign keys survive every write *)

Lemma pull_requests_insert_is_Some (m : gmap string PullRequestRow) (id id' : string)
    (row : PullRequestRow) :
  is_Some (m !! id') → is_Some (<[id := row]> m !! id').
Proof.
  intros Hs. destruct (decide (id = id')) as [->|Hne].
  - rewrite lookup_insert_eq. by eexists.
  - by rewrite lookup_insert_ne.
Qed.

Lemma updateTx_constraints (s s' : Store) (pr : PullRequest) :
  constraints s → updateTx s pr = Ok s' → constraints s'.
Proof.
  intros (Hut & Hpa & Hrv) (Hpr & Hau & _ & Hus & Ht & Hu & Hprs & Hrows)%updateTx_Ok.
  unfold constraints, fk_users_team, fk_pull_requests_author, fk_reviewers.
  rewrite Ht, Hu, Hprs. split_and!; [done| |].
  - apply map_Forall_insert_2; done.
  - intros p [[Hp _]|[Hp1 Hp2]]%Hrows.
    + destruct (Hrv p Hp) as [? ?]. split; [|done].
      by apply pull_requests_insert_is_Some.
    + split; [|by apply Hus]. rewrite Hp1, lookup_insert_eq. by eexists.
Qed.

Lemma createTx_constraints (s s' : Store) (pr : PullRequest) :
  constraints s → createTx s pr = Ok s' → constraints s'.
Proof.
  intros (Hut & Hpa & Hrv) (Hpr & Hau & _ & Hus & Ht & Hu & Hprs & Hrows)%createTx_Ok.
  unfold constraints, fk_users_team, fk_pull_requests_author, fk_reviewers.
  rewrite Ht, Hu, Hprs. split_and!; [done| |].
  - apply map_Forall_insert_2; done.
  - intros p [Hp|[Hp1 Hp2]]%Hrows.
    + destruct (Hrv p Hp) as [? ?]. split; [|done].
      by apply pull_requests_insert_is_Some.
    + split; [|by apply Hus]. rewrite Hp1, lookup_insert_eq. by eexists.
Qed.

(** No reviewer row refers to a pull request that does not exist. *)
Lemma fk_reviewers_fresh (s : Store) (id r : string) :
  fk_reviewers s → pull_requests s !! id = None → (id, r) ∉ pull_request_reviewers s.
Proof.
  intros Hfk Hnone Hin. destruct (Hfk _ Hin) as [[row Hrow] _]. simpl in *. congruence.
Qed.

Lemma fk_reviewers_user (s : Store) (id : string) (pr : PullRequest) (r : string) :
  fk_reviewers s → GetPullRequest s id = Ok pr → r ∈ AssignedReviewers pr →
  is_Some (users s !! r).
Proof.
  intros Hfk (row & _ & ->)%GetPullRequest_Ok Hin. simpl in Hin.
  apply reviewersOf_elem_of in Hin. by destruct (Hfk _ Hin) as [_ ?].
Qed.

Lemma fk_author_user (s : Store) (id : string) (pr : PullRequest) :
  fk_pull_requests_author s → GetPullRequest s id = Ok pr →
  is_Some (users s !! AuthorID pr).
Proof.
  intros Hfk (row & Hrow & ->)%GetPullRequest_Ok. simpl. by apply (Hfk id row).
Qed.

End postgres_facts.

(* ===================================================================== *)
(** ** The filters, read against the store *)
(* ===================================================================== *)

Module pool.
Import postgres postgres_facts service selection spec.

Lemma two_elements_length {A} (l : list A) (x y : A) :
  x ∈ l → y ∈ l → x ≠ y → (2 ≤ length l)%nat.
Proof.
  intros Hx Hy Hne. destruct l as [|a [|b l]]; simpl; [| |lia].
  - by apply elem_of_nil in Hx.
  - apply list_elem_of_singleton in Hx, Hy. congruence.
Qed.

(** The pool of a creation is the set of active teammates of the author. *)
Lemma filterReviewers_activeTeammate (s : Store) (authorID : string)
    (authorRow : UserRow) (members : list User) (u : User) :
  users s !! authorID = Some authorRow →
  ListUsersByTeam s (team_name authorRow) = Ok members →
  u ∈ filterReviewers members authorID ↔
  activeTeammate s authorID (ID u) ∧ GetUser s (ID u) = Ok u.
Proof.
  intros Ha (_ & _ & Hmem)%ListUsersByTeam_Ok.
  rewrite filterReviewers_filter, list_elem_of_filter, Hmem. split.
  - intros [[Hne Hact] [Hget Hteam]]. split; [|done].
    pose proof Hget as (row & Hrow & Hu)%GetUser_Ok.
    exists authorRow, row. split_and!; try done.
    + by rewrite Hu in Hteam.
    + by rewrite Hu in Hact.
  - intros [(arow & row & Ha' & Hrow & Hne & Hteam & Hact) Hget].
    pose proof Hget as (row' & Hrow' & Hu)%GetUser_Ok. simplify_eq.
    destruct u as [i n t a]. unfold userOfRow in Hu. simpl in *.
    injection Hu as -> -> ->. done.
Qed.

(** The pool of a reassignment is the set of replacement candidates. *)
Lemma filterForReplacement_candidate (s : Store) (pr : PullRequest)
    (oldReviewerID : string) (oldRow : UserRow) (members : list User) (u : User) :
  users s !! oldReviewerID = Some oldRow →
  ListUsersByTeam s (team_name oldRow) = Ok members →
  u ∈ filterForReplacement members oldReviewerID (AssignedReviewers pr) ↔
  replacementCandidate s pr oldReviewerID (ID u) ∧ GetUser s (ID u) = Ok u.
Proof.
  intros Ha (_ & _ & Hmem)%ListUsersByTeam_Ok.
  rewrite filterForReplacement_filter, list_elem_of_filter, Hmem. split.
  - intros [(Hne & Hact & Hnin) [Hget Hteam]]. split; [|done].
    pose proof Hget as (row & Hrow & Hu)%GetUser_Ok.
    split; [|done]. exists oldRow, row. split_and!; try done.
    + by rewrite Hu in Hteam.
    + by rewrite Hu in Hact.
  - intros [[(arow & row & Ha' & Hrow & Hne & Hteam & Hact) Hnin] Hget].
    pose proof Hget as (row' & Hrow' & Hu)%GetUser_Ok. simplify_eq.
    destruct u as [i n t a]. unfold userOfRow in Hu. simpl in *.
    injection Hu as -> -> ->. done.
Qed.

Lemma activeTeammate_user (s : Store) (anchorID id : string) :
  activeTeammate s anchorID id → ∃ u, GetUser s id = Ok u ∧ ID u = id.
Proof.
  intros (arow & row & _ & Hrow & _). exists (userOfRow (id, row)).
  split; [|done]. apply GetUser_Ok. by exists row.
Qed.

End pool.

(* ===================================================================== *)
(** ** Creation keeps the author out *)
(* ===================================================================== *)

Module creation.
Import rand postgres postgres_facts service selection.

(** Closes a decidable proposition about closed terms by evaluating its
    decision procedure. *)
Ltac by_evaluation := apply (bool_decide_unpack _); vm_compute; exact I.

(** With the foreign keys in force, a pull request that was just created
    never has its author among its reviewers: [filterReviewers] drops the
    author before the selection. *)
Lemma CreatePullRequest_excludes_author (svc svc' : ReviewerService Store)
    (now : Time) (pr pr' : PullRequest) :
  constraints (repo svc) →
  service.CreatePullRequest svc now pr = (Ok pr', svc') →
  AuthorID pr' ∉ AssignedReviewers pr'.
Proof.
  intros (_ & _ & Hrv). unfold service.CreatePullRequest. simpl.
  destruct (GetUser (repo svc) (AuthorID pr)) as [author|err]; [|done].
  destruct (ListUsersByTeam (repo svc) (TeamName author)) as [members|err]; [|done].
  pose proof (pickReviewers_elem_of (rnd svc)
                (filterReviewers members (AuthorID pr)) 2) as Hpick.
  destruct (pickReviewers _ _ 2) as [picked rnd'].
  destruct (postgres.CreatePullRequest (repo svc) _) as [res s'] eqn:Hcreate.
  intros [= -> <-].
  apply CreatePullRequest_Ok in Hcreate as (Htx & _ & _ & _ & Hauthor & _ & _ & _ & Hrevs).
  apply createTx_Ok in Htx as (Hfresh & _).
  simpl in *. rewrite Hauthor. intros [Hin|Hin]%Hrevs.
  - by apply fk_reviewers_fresh in Hin.
  - apply Hpick in Hin as (u & Hu & Hid).
    rewrite filterReviewers_filter in Hu. apply list_elem_of_filter in Hu as [[Hne _] _].
    by rewrite Hid in Hne.
Qed.

End creation.

(* ===================================================================== *)
(** ** The path of a successful reassignment *)
(* ===================================================================== *)

Module reassign.
Import rand service selection.

(** Every successful [ReassignReviewer] went through the same steps, over
    any repository: the pull request was read and is not MERGED, the old
    reviewer sits at index [k] (its first occurrence), the old reviewer and
    the team were read, the replacement is the id of a user of the filtered
    pool, and the repository accepted the record with position [k]
    overwritten. *)
Lemma ReassignReviewer_Ok_inv {St : Type} {R : storage.Repository St}
    (svc svc' : ReviewerService St) (prID oldReviewerID : string)
    (pr' : PullRequest) (new : string) :
  ReassignReviewer svc prID oldReviewerID = (Ok (pr', new), svc') →
  ∃ (pr : PullRequest) (k : nat) (oldReviewer : User) (members : list User),
    storage.GetPullRequest (repo svc) prID = Ok pr
    ∧ Status pr ≠ StatusMerged
    ∧ AssignedReviewers pr !! k = Some oldReviewerID
    ∧ (oldReviewerID ∉ take k (AssignedReviewers pr))
    ∧ storage.GetUser (repo svc) oldReviewerID = Ok oldReviewer
    ∧ storage.ListUsersByTeam (repo svc) (TeamName oldReviewer) = Ok members
    ∧ (∃ u, u ∈ filterForReplacement members oldReviewerID (AssignedReviewers pr)
            ∧ ID u = new)
    ∧ storage.UpdatePullRequest (repo svc)
        (mkPullRequest (PRID pr) (Name pr) (AuthorID pr) (Status pr)
           (<[k := new]> (AssignedReviewers pr)) (CreatedAt pr) (MergedAt pr))
      = (Ok pr', repo svc').
Proof.
  unfold ReassignReviewer. intros Hre.
  destruct (storage.GetPullRequest (repo svc) prID) as [pr|err] eqn:Hget; [|done].
  case_decide as Hst; [done|].
  case_decide as Hidx; [done|].
  destruct (storage.GetUser (repo svc) oldReviewerID) as [oldReviewer|err] eqn:Huser; [|done].
  destruct (storage.ListUsersByTeam (repo svc) (TeamName oldReviewer))
    as [members|err] eqn:Hlist; [|done].
  case_decide as Hempty; [done|].
  pose proof (pickReviewers_elem_of (rnd svc)
                (filterForReplacement members oldReviewerID (AssignedReviewers pr)) 1)
    as Hpick.
  destruct (pickReviewers _ _ 1) as [replacement rnd'].
  destruct replacement as [|replacement0 rest]; [done|].
  destruct (storage.UpdatePullRequest _ _) as [[updatedPR|err] repo'] eqn:Hupd; [|done].
  simplify_eq. simpl in *.
  apply reviewerIndex_found in Hidx as (k & Hk & Hlook & Hfirst).
  exists pr, k, oldReviewer, members.
  rewrite Hk, Nat2Z.id in Hupd.
  split_and!; try done.
  apply Hpick. by left.
Qed.

(** Over the relational store with its constraints in force, a reassignment
    that reaches a non-empty pool goes through. *)
Lemma ReassignReviewer_succeeds (svc : ReviewerService postgres.Store)
    (prID oldReviewerID : string) (pr : PullRequest) :
  postgres.constraints (repo svc) →
  postgres.GetPullRequest (repo svc) prID = Ok pr →
  Status pr ≠ StatusMerged →
  oldReviewerID ∈ AssignedReviewers pr →
  (∃ id, spec.replacementCandidate (repo svc) pr oldReviewerID id) →
  ∃ pr' new svc', ReassignReviewer svc prID oldReviewerID = (Ok (pr', new), svc').
Proof.
  intros (Hut & Hpa & Hrv) Hget Hst Hold (id & Hcand).
  pose proof Hcand as [(oldRow & row & HoldRow & _) _].
  unfold ReassignReviewer. simpl. rewrite Hget.
  rewrite decide_False by done.
  destruct (decide (reviewerIndex (AssignedReviewers pr) oldReviewerID = -1)) as [Hidx|Hidx].
  { by apply reviewerIndex_absent in Hidx. }
  apply reviewerIndex_found in Hidx as (k & -> & Hk & _).
  assert (postgres.GetUser (repo svc) oldReviewerID
          = Ok (postgres.userOfRow (oldReviewerID, oldRow))) as Huser.
  { apply postgres_facts.GetUser_Ok. by exists oldRow. }
  rewrite Huser.
  destruct (postgres_facts.ListUsersByTeam_of_user _ _ _ Hut Huser) as [members Hlist].
  rewrite Hlist. simpl in Hlist.
  set (candidates := filterForReplacement members oldReviewerID (AssignedReviewers pr)).
  assert (∀ u, u ∈ candidates ↔
            spec.replacementCandidate (repo svc) pr oldReviewerID (ID u)
            ∧ postgres.GetUser (repo svc) (ID u) = Ok u) as Hpool.
  { intros u. by apply pool.filterForReplacement_candidate with oldRow. }
  assert (length candidates ≠ 0%nat) as Hne.
  { destruct Hcand as [Hteam Hnin].
    destruct (pool.activeTeammate_user _ _ _ Hteam) as (u & Hu & Hid).
    assert (u ∈ candidates) as Hin.
    { apply Hpool. rewrite Hid. by repeat split. }
    intros ->%nil_length_inv. by apply elem_of_nil in Hin. }
  rewrite decide_False by done.
  pose proof (pickReviewers_length (rnd svc) candidates 1) as Hlen.
  pose proof (pickReviewers_elem_of (rnd svc) candidates 1) as Hpick.
  destruct (pickReviewers (rnd svc) candidates 1) as [replacement rnd'].
  simpl in Hlen, Hpick.
  destruct replacement as [|replacement0 rest]; [simpl in Hlen; lia|].
  destruct (Hpick replacement0) as (u & Hu & Hid); [by left|].
  apply Hpool in Hu as [[Hteam Hnin] Hgetu]. rewrite Hid in Hteam, Hnin.
  rewrite Nat2Z.id.
  set (written := mkPullRequest (PRID pr) (Name pr) (AuthorID pr) (Status pr)
                    (<[k := replacement0]> (AssignedReviewers pr)) (CreatedAt pr)
                    (MergedAt pr)).
  destruct (postgres_facts.updateTx_succeeds (repo svc) written) as [s' Htx]; simpl.
  { rewrite (postgres_facts.GetPullRequest_PRID _ _ _ Hget).
    apply postgres_facts.GetPullRequest_Ok in Hget as (prow & -> & _). by eexists. }
  { by eapply postgres_facts.fk_author_user. }
  { apply NoDup_insert; [|done]. by eapply postgres_facts.GetPullRequest_NoDup. }
  { intros r [->|Hr]%elem_of_insert_inv.
    - destruct Hteam as (_ & row' & _ & Hrow' & _). by eexists.
    - by eapply postgres_facts.fk_reviewers_user. }
  destruct (postgres.UpdatePullRequest (repo svc) written) as [[updatedPR|err] repo'] eqn:Hupd.
  - by eexists _, _, _.
  - apply postgres_facts.UpdatePullRequest_Err in Hupd as (_ & e & He & _). congruence.
Qed.

(** With an empty pool the reassignment fails with ErrNoReplacement and
    leaves the service as it was. *)
Lemma ReassignReviewer_no_candidate (svc : ReviewerService postgres.Store)
    (prID oldReviewerID : string) (pr : PullRequest) :
  postgres.fk_users_team (repo svc) →
  postgres.GetPullRequest (repo svc) prID = Ok pr →
  Status pr ≠ StatusMerged →
  oldReviewerID ∈ AssignedReviewers pr →
  is_Some (postgres.users (repo svc) !! oldReviewerID) →
  ¬ (∃ id, spec.replacementCandidate (repo svc) pr oldReviewerID id) →
  ReassignReviewer svc prID oldReviewerID = (Err ErrNoReplacement, svc).
Proof.
  intros Hut Hget Hst Hold [oldRow HoldRow] Hnone.
  unfold ReassignReviewer. simpl. rewrite Hget.
  rewrite decide_False by done.
  rewrite decide_False by (by rewrite reviewerIndex_absent; intros ?).
  assert (postgres.GetUser (repo svc) oldReviewerID
          = Ok (postgres.userOfRow (oldReviewerID, oldRow))) as Huser.
  { apply postgres_facts.GetUser_Ok. by exists oldRow. }
  rewrite Huser.
  destruct (postgres_facts.ListUsersByTeam_of_user _ _ _ Hut Huser) as [members Hlist].
  rewrite Hlist. simpl in Hlist.
  destruct (filterForReplacement members oldReviewerID (AssignedReviewers pr))
    as [|u rest] eqn:Hpool; [done|].
  exfalso. apply Hnone. exists (ID u).
  eapply (pool.filterForReplacement_candidate _ _ _ oldRow members u); [done..|].
  rewrite Hpool. by left.
Qed.

End reassign.

(* ===================================================================== *)
(** ** What each operation does to the pull_requests table *)
(* ===================================================================== *)

Module lifecycle.
Import rand postgres postgres_facts service spec.

(** A creation either fails and leaves the store alone, or adds one row
    under a fresh id: status OPEN, merge timestamp as in the request. *)
Lemma CreatePullRequest_effect (svc svc' : ReviewerService Store) (now : Time)
    (pr : PullRequest) (res : result PullRequest) :
  CreatePullRequest svc now pr = (res, svc') →
  (∃ err, res = Err err ∧ repo svc' = repo svc)
  ∨ (∃ pr' row,
       res = Ok pr'
       ∧ pull_requests (repo svc) !! PRID pr = None
       ∧ pull_requests (repo svc') = <[PRID pr := row]> (pull_requests (repo svc))
       ∧ status row = StatusOpen ∧ merged_at row = MergedAt pr
       ∧ Status pr' = StatusOpen ∧ MergedAt pr' = MergedAt pr).
Proof.
  unfold CreatePullRequest. simpl.
  destruct (GetUser (repo svc) (AuthorID pr)) as [author|err]; [|intros [= <- <-]; eauto].
  destruct (ListUsersByTeam (repo svc) (TeamName author)) as [members|err];
    [|intros [= <- <-]; eauto].
  destruct (pickReviewers _ _ 2) as [picked rnd'].
  destruct (postgres.CreatePullRequest (repo svc) _) as [res0 s'] eqn:Hcreate.
  intros [= <- <-]. simpl. destruct res0 as [pr'|err].
  - right. apply CreatePullRequest_Ok in Hcreate
      as (Htx & _ & _ & _ & _ & Hst & _ & Hm & _).
    apply createTx_Ok in Htx as (Hfresh & _ & _ & _ & _ & _ & Hprs & _).
    eexists pr', _. simpl in *. split_and!; done.
  - left. apply CreatePullRequest_Err in Hcreate as [-> _]. eauto.
Qed.

(** A merge either fails, or returns a MERGED record untouched, or rewrites
    the row of a record that was not MERGED with status MERGED and the
    current time. *)
Lemma MergePullRequest_effect (svc svc' : ReviewerService Store) (now : Time)
    (prID : string) (res : result PullRequest) :
  MergePullRequest svc now prID = (res, svc') →
  (∃ err, res = Err err ∧ repo svc' = repo svc)
  ∨ (∃ pr, res = Ok pr ∧ svc' = svc
           ∧ GetPullRequest (repo svc) prID = Ok pr ∧ Status pr = StatusMerged)
  ∨ (∃ pr pr' row,
       res = Ok pr'
       ∧ GetPullRequest (repo svc) prID = Ok pr ∧ Status pr ≠ StatusMerged
       ∧ pull_requests (repo svc') = <[prID := row]> (pull_requests (repo svc))
       ∧ status row = StatusMerged ∧ merged_at row = Some now
       ∧ Status pr' = StatusMerged ∧ MergedAt pr' = Some now).
Proof.
  unfold MergePullRequest. simpl.
  destruct (GetPullRequest (repo svc) prID) as [pr|err] eqn:Hget;
    [|intros [= <- <-]; eauto].
  case_decide as Hst; [intros [= <- <-]; right; left; eauto|].
  destruct (UpdatePullRequest (repo svc) _) as [res0 s'] eqn:Hupd.
  intros [= <- <-]. simpl. destruct res0 as [pr'|err].
  - right. right. apply UpdatePullRequest_Ok in Hupd
      as (Htx & _ & _ & _ & _ & Hst' & _ & Hm & _).
    apply updateTx_Ok in Htx as (_ & _ & _ & _ & _ & _ & Hprs & _).
    simpl in *. rewrite (GetPullRequest_PRID _ _ _ Hget) in Hprs.
    eexists pr, pr', _. split_and!; done.
  - left. apply UpdatePullRequest_Err in Hupd as [-> _]. eauto.
Qed.

(** A reassignment either fails and leaves the store alone, or rewrites the
    row of a record that was not MERGED with its status and merge timestamp
    as they were. *)
Lemma ReassignReviewer_effect (svc svc' : ReviewerService Store)
    (prID oldReviewerID : string) (res : result (PullRequest * string)) :
  ReassignReviewer svc prID oldReviewerID = (res, svc') →
  (∃ err, res = Err err ∧ repo svc' = repo svc)
  ∨ (∃ pr pr' new row,
       res = Ok (pr', new)
       ∧ GetPullRequest (repo svc) prID = Ok pr ∧ Status pr ≠ StatusMerged
       ∧ pull_requests (repo svc') = <[prID := row]> (pull_requests (repo svc))
       ∧ status row = Status pr ∧ merged_at row = MergedAt pr
       ∧ Status pr' = Status pr ∧ MergedAt pr' = MergedAt pr).
Proof.
  intros Hre. destruct res as [[pr' new]|err].
  - right. apply reassign.ReassignReviewer_Ok_inv in Hre
      as (pr & k & oldReviewer & members & Hget & Hst & _ & _ & _ & _ & _ & Hupd).
    simpl in Hget, Hupd.
    apply UpdatePullRequest_Ok in Hupd as (Htx & _ & _ & _ & _ & Hst' & _ & Hm & _).
    apply updateTx_Ok in Htx as (_ & _ & _ & _ & _ & _ & Hprs & _).
    simpl in *. rewrite (GetPullRequest_PRID _ _ _ Hget) in Hprs.
    eexists pr, pr', new, _. split_and!; done.
  - left. exists err. split; [done|].
    unfold ReassignReviewer in Hre. simpl in Hre.
    destruct (GetPullRequest (repo svc) prID) as [pr|e]; [|by simplify_eq].
    case_decide; [by simplify_eq|]. case_decide; [by simplify_eq|].
    destruct (GetUser (repo svc) oldReviewerID) as [oldReviewer|e]; [|by simplify_eq].
    destruct (ListUsersByTeam (repo svc) (TeamName oldReviewer)) as [members|e];
      [|by simplify_eq].
    case_decide; [by simplify_eq|].
    destruct (pickReviewers _ _ 1) as [replacement rnd'].
    destruct replacement as [|replacement0 rest]; [by simplify_eq|].
    destruct (UpdatePullRequest (repo svc) _) as [[updatedPR|e] repo'] eqn:Hupd;
      [done|].
    apply UpdatePullRequest_Err in Hupd as [-> _]. by simplify_eq.
Qed.

Lemma GetPullRequest_row_inv (s : Store) (id : string) (pr : PullRequest) :
  storeMergedIffTimestamp s → GetPullRequest s id = Ok pr → mergedIffTimestamp pr.
Proof.
  intros Hinv (row & Hrow & ->)%GetPullRequest_Ok. by apply (Hinv id row).
Qed.

(** One operation keeps the table invariant and returns a record that
    satisfies it, provided a creation request carries no merge timestamp. *)
Lemma exec_invariant (svc svc' : ReviewerService Store) (op : Op) (out : Outcome) :
  storeMergedIffTimestamp (repo svc) → requestWithoutTimestamp op →
  exec svc op = (out, svc') →
  outcomeMergedIffTimestamp out ∧ storeMergedIffTimestamp (repo svc').
Proof.
  intros Hinv Hreq Hexec. destruct op as [now pr|now prID|prID oldReviewerID];
    simpl in Hexec, Hreq.
  - destruct (CreatePullRequest svc now pr) as [res s'] eqn:Hop.
    apply CreatePullRequest_effect in Hop
      as [(err & -> & Hs)|(pr' & row & -> & _ & Hprs & Hst & Hm & Hst' & Hm')];
      simplify_eq; simpl.
    + by rewrite Hs.
    + unfold mergedIffTimestamp, storeMergedIffTimestamp.
      rewrite Hprs, Hst', Hm', Hreq. split.
      * split; [by intros [? ?] | done].
      * apply map_Forall_insert_2; [|done].
        unfold rowMergedIffTimestamp. rewrite Hst, Hm, Hreq.
        split; [by intros [? ?] | done].
  - destruct (MergePullRequest svc now prID) as [res s'] eqn:Hop.
    apply MergePullRequest_effect in Hop
      as [(err & -> & Hs)|[(pr & -> & -> & Hget & Hst)
          |(pr & pr' & row & -> & _ & _ & Hprs & Hst & Hm & Hst' & Hm')]];
      simplify_eq; simpl.
    + by rewrite Hs.
    + split; [|done]. by eapply GetPullRequest_row_inv.
    + unfold mergedIffTimestamp, storeMergedIffTimestamp.
      rewrite Hprs, Hst', Hm'. split; [done|].
      apply map_Forall_insert_2; [|done].
      unfold rowMergedIffTimestamp. by rewrite Hst, Hm.
  - destruct (ReassignReviewer svc prID oldReviewerID) as [res s'] eqn:Hop.
    apply ReassignReviewer_effect in Hop
      as [(err & -> & Hs)|(pr & pr' & new & row & -> & Hget & _ & Hprs & Hst & Hm & Hst' & Hm')];
      simplify_eq; simpl.
    + by rewrite Hs.
    + pose proof (GetPullRequest_row_inv _ _ _ Hinv Hget) as Hpr.
      unfold mergedIffTimestamp, storeMergedIffTimestamp in *.
      rewrite Hprs, Hst', Hm'. split; [done|].
      apply map_Forall_insert_2; [|done].
      unfold rowMergedIffTimestamp. by rewrite Hst, Hm.
Qed.

(** One operation leaves the row of a MERGED pull request as it is. *)
Lemma exec_keeps_merged (svc svc' : ReviewerService Store) (op : Op) (out : Outcome)
    (id : string) (row : PullRequestRow) :
  pull_requests (repo svc) !! id = Some row → status row = StatusMerged →
  exec svc op = (out, svc') →
  pull_requests (repo svc') !! id = Some row.
Proof.
  intros Hrow Hmerged Hexec.
  assert (∀ pr, GetPullRequest (repo svc) id = Ok pr → Status pr = StatusMerged) as Hget.
  { intros pr (row' & Hrow' & ->)%GetPullRequest_Ok. by simplify_eq. }
  destruct op as [now pr|now prID|prID oldReviewerID]; simpl in Hexec.
  - destruct (CreatePullRequest svc now pr) as [res s'] eqn:Hop.
    apply CreatePullRequest_effect in Hop
      as [(err & -> & Hs)|(pr' & row' & -> & Hfresh & Hprs & _)]; simplify_eq.
    + by rewrite Hs.
    + rewrite Hprs, lookup_insert_ne; [done|]. intros Heq.
      rewrite Heq in Hfresh. congruence.
  - destruct (MergePullRequest svc now prID) as [res s'] eqn:Hop.
    apply MergePullRequest_effect in Hop
      as [(err & -> & Hs)|[(pr & -> & -> & _)
          |(pr & pr' & row' & -> & Hget' & Hst & Hprs & _)]]; simplify_eq.
    + by rewrite Hs.
    + done.
    + rewrite Hprs, lookup_insert_ne; [done|]. intros ->. by apply Hst, Hget.
  - destruct (ReassignReviewer svc prID oldReviewerID) as [res s'] eqn:Hop.
    apply ReassignReviewer_effect in Hop
      as [(err & -> & Hs)|(pr & pr' & new & row' & -> & Hget' & Hst & Hprs & _)];
      simplify_eq.
    + by rewrite Hs.
    + rewrite Hprs, lookup_insert_ne; [done|]. intros ->. by apply Hst, Hget.
Qed.

Lemma run_invariant (ops : list Op) (svc : ReviewerService Store) :
  storeMergedIffTimestamp (repo svc) → Forall requestWithoutTimestamp ops →
  Forall outcomeMergedIffTimestamp (run svc ops).1
  ∧ storeMergedIffTimestamp (repo (run svc ops).2).
Proof.
  revert svc. induction ops as [|op rest IH]; intros svc Hinv Hreq; simpl.
  - by split.
  - apply Forall_cons in Hreq as [Hop Hrest].
    destruct (exec svc op) as [out s1] eqn:Hexec.
    destruct (exec_invariant _ _ _ _ Hinv Hop Hexec) as [Hout Hinv1].
    destruct (IH s1 Hinv1 Hrest) as [Houts Hinv2].
    destruct (run s1 rest) as [outs s2]. simpl in *. split; [by constructor | done].
Qed.

Lemma run_keeps_merged (ops : list Op) (svc : ReviewerService Store)
    (id : string) (row : PullRequestRow) :
  pull_requests (repo svc) !! id = Some row → status row = StatusMerged →
  pull_requests (repo (run svc ops).2) !! id = Some row.
Proof.
  revert svc. induction ops as [|op rest IH]; intros svc Hrow Hmerged; simpl; [done|].
  destruct (exec svc op) as [out s1] eqn:Hexec.
  pose proof (exec_keeps_merged _ _ _ _ _ _ Hrow Hmerged Hexec) as Hrow1.
  specialize (IH s1 Hrow1 Hmerged).
  by destruct (run s1 rest) as [outs s2].
Qed.

End lifecycle.

(* ===================================================================== *)
(** ** The Assignment Engine: how many reviewers are selected *)
(* ===================================================================== *)

(** C4. For every pool and requested count, [pickReviewers] returns
    min(count, pool size) ids (none for a count below zero) and has no error
    result at all; a pool smaller than the count is returned whole; a team
    with one active member besides the author gives one reviewer when two
    are asked for. *)
Theorem pickReviewers_min_count (rnd : rand.Rand) (users : list User) (limit : Z) :
  length (service.pickReviewers rnd users limit).1
    = Z.to_nat (Z.min limit (Z.of_nat (length users)))
  ∧ (Z.of_nat (length users) < limit →
     (service.pickReviewers rnd users limit).1 ≡ₚ (ID <$> users))
  ∧ (∀ (members : list User) (authorID : string),
       length (service.filterReviewers members authorID) = 1%nat →
       length (service.pickReviewers rnd (service.filterReviewers members authorID) 2).1
         = 1%nat).
Proof.
  split_and!.
  - apply selection.pickReviewers_length.
  - intros Hlt.
    destruct (selection.pickReviewers_prefix rnd users limit) as (sh & Hp & ->).
    rewrite take_ge; [by rewrite Hp|].
    rewrite (Permutation_length Hp). lia.
  - intros members authorID Hone.
    rewrite selection.pickReviewers_length, Hone. reflexivity.
Qed.

Lemma pickReviewers_min_count_witness :
  (service.pickReviewers scenario.seed [scenario.bob] 2).1 ≡ₚ (ID <$> [scenario.bob])
  ∧ length (service.pickReviewers scenario.seed
              (service.filterReviewers [scenario.alice; scenario.bob] "u1") 2).1 = 1%nat.
Proof.
  pose proof (pickReviewers_min_count scenario.seed [scenario.bob] 2) as (_ & Hall & Hone).
  split.
  - apply Hall. simpl. lia.
  - apply (Hone [scenario.alice; scenario.bob] "u1"). reflexivity.
Defined.

(* ===================================================================== *)
(** ** CreatePullRequest *)
(* ===================================================================== *)

(** C3. When the author has at least two active teammates and the id is not
    in use, [CreatePullRequest] succeeds and the pull request it returns has
    exactly two reviewers, distinct, none of them the author, each an active
    member of the author's team. *)
Theorem CreatePullRequest_assigns_two
    (svc : service.ReviewerService postgres.Store) (now : Time) (pr : PullRequest)
    (id1 id2 : string) :
  postgres.constraints (service.repo svc) →
  postgres.pull_requests (service.repo svc) !! PRID pr = None →
  spec.activeTeammate (service.repo svc) (AuthorID pr) id1 →
  spec.activeTeammate (service.repo svc) (AuthorID pr) id2 →
  id1 ≠ id2 →
  ∃ pr' svc',
    service.CreatePullRequest svc now pr = (Ok pr', svc')
    ∧ length (AssignedReviewers pr') = 2%nat
    ∧ (AuthorID pr ∉ AssignedReviewers pr')
    ∧ NoDup (AssignedReviewers pr')
    ∧ (∀ r, r ∈ AssignedReviewers pr' →
            spec.activeTeammate (service.repo svc) (AuthorID pr) r).
Proof.
  intros (Hut & Hpa & Hrv) Hfresh Ht1 Ht2 Hne.
  pose proof Ht1 as (arow & row1 & Ha & _).
  unfold service.CreatePullRequest. simpl.
  assert (postgres.GetUser (service.repo svc) (AuthorID pr)
          = Ok (postgres.userOfRow (AuthorID pr, arow))) as ->.
  { apply postgres_facts.GetUser_Ok. by exists arow. }
  destruct (postgres_facts.ListUsersByTeam_of_user (service.repo svc) (AuthorID pr)
              (postgres.userOfRow (AuthorID pr, arow)) Hut) as [members Hlist].
  { apply postgres_facts.GetUser_Ok. by exists arow. }
  rewrite Hlist. simpl in Hlist.
  set (candidates := service.filterReviewers members (AuthorID pr)).
  assert (∀ u, u ∈ candidates ↔
            spec.activeTeammate (service.repo svc) (AuthorID pr) (ID u)
            ∧ postgres.GetUser (service.repo svc) (ID u) = Ok u) as Hcand.
  { intros u. by apply pool.filterReviewers_activeTeammate with arow. }
  assert (2 ≤ length candidates)%nat as Hlen.
  { destruct (pool.activeTeammate_user _ _ _ Ht1) as (u1 & Hu1 & Hi1).
    destruct (pool.activeTeammate_user _ _ _ Ht2) as (u2 & Hu2 & Hi2).
    apply (pool.two_elements_length _ u1 u2).
    - apply Hcand. by rewrite Hi1.
    - apply Hcand. by rewrite Hi2.
    - congruence. }
  assert (NoDup (ID <$> candidates)) as Hnd.
  { apply postgres_facts.ListUsersByTeam_Ok in Hlist as (_ & Hnd & _).
    eapply sublist_NoDup; [exact Hnd|]. apply fmap_sublist.
    unfold candidates. rewrite selection.filterReviewers_filter. apply sublist_filter. }
  pose proof (selection.pickReviewers_length (service.rnd svc) candidates 2) as Hplen.
  pose proof (selection.pickReviewers_NoDup (service.rnd svc) candidates 2 Hnd) as Hpnd.
  pose proof (selection.pickReviewers_elem_of (service.rnd svc) candidates 2) as Hpin.
  destruct (service.pickReviewers (service.rnd svc) candidates 2) as [picked rnd'].
  simpl in Hplen, Hpnd, Hpin.
  assert (∀ r, r ∈ picked →
            spec.activeTeammate (service.repo svc) (AuthorID pr) r) as Hteam.
  { intros r (u & Hu & <-)%Hpin. by apply Hcand. }
  set (record := mkPullRequest (PRID pr) (Name pr) (AuthorID pr) StatusOpen picked now
                   (MergedAt pr)).
  destruct (postgres_facts.createTx_succeeds (service.repo svc) record) as [s' Htx];
    simpl; [done | by eexists | done | |].
  { intros r Hr. split.
    - by apply postgres_facts.fk_reviewers_fresh.
    - destruct (Hteam r Hr) as (_ & row & _ & Hrow & _). by eexists. }
  destruct (postgres.CreatePullRequest (service.repo svc) record) as [res s''] eqn:Hcreate.
  destruct res as [pr'|err].
  - exists pr', (service.mkReviewerService s'' rnd'). split; [done|].
    apply postgres_facts.CreatePullRequest_Ok in Hcreate
      as (_ & Hget & _ & _ & _ & _ & _ & _ & Hrevs).
    assert (∀ r, r ∈ AssignedReviewers pr' ↔ r ∈ picked) as Hsame.
    { intros r. rewrite Hrevs. simpl. split; [|auto].
      intros [Hin|]; [|done]. by apply postgres_facts.fk_reviewers_fresh in Hin. }
    pose proof (postgres_facts.GetPullRequest_NoDup _ _ _ Hget) as Hnd'.
    split_and!.
    + rewrite (Permutation_length (NoDup_Permutation _ _ Hnd' Hpnd Hsame)). lia.
    + intros Hin%Hsame. by destruct (Hteam _ Hin) as (_ & _ & _ & _ & ? & _).
    + done.
    + intros r Hr%Hsame. by apply Hteam.
  - apply postgres_facts.CreatePullRequest_Err in Hcreate as (_ & e & He & _). congruence.
Qed.

Lemma CreatePullRequest_assigns_two_witness :
  ∃ pr' svc',
    service.CreatePullRequest (service.mkReviewerService scenario.backend scenario.seed)
      100 (scenario.request "pr-1" "Initial" "u1") = (Ok pr', svc')
    ∧ length (AssignedReviewers pr') = 2%nat
    ∧ ("u1" ∉ AssignedReviewers pr')
    ∧ NoDup (AssignedReviewers pr')
    ∧ (∀ r, r ∈ AssignedReviewers pr' → spec.activeTeammate scenario.backend "u1" r).
Proof.
  apply (CreatePullRequest_assigns_two
           (service.mkReviewerService scenario.backend scenario.seed)
           100 (scenario.request "pr-1" "Initial" "u1") "u2" "u3").
  - creation.by_evaluation.
  - reflexivity.
  - exists (postgres.mkUserRow "Alice" "backend" true),
      (postgres.mkUserRow "Bob" "backend" true).
    split_and!; [reflexivity | reflexivity | discriminate | reflexivity | reflexivity].
  - exists (postgres.mkUserRow "Alice" "backend" true),
      (postgres.mkUserRow "Charlie" "backend" true).
    split_and!; [reflexivity | reflexivity | discriminate | reflexivity | reflexivity].
  - discriminate.
Defined.

(** C9. Whatever status and reviewer list the caller puts into the argument,
    the record [CreatePullRequest] hands to the repository has Status OPEN
    and, as AssignedReviewers, exactly the selection of [pickReviewers] over
    the filtered team of the author. The caller's status, reviewers and
    creation time have no influence on the call at all, and no record is
    handed over when the author or the team cannot be read. *)
Theorem CreatePullRequest_record_passed {St : Type} {R : storage.Repository St}
    (svc : service.ReviewerService (storage.Recorder St)) (now : Time) (pr : PullRequest) :
  (∀ author members,
     storage.GetUser (service.repo svc) (AuthorID pr) = Ok author →
     storage.ListUsersByTeam (service.repo svc) (TeamName author) = Ok members →
     ∃ record,
       storage.calls (service.repo (service.CreatePullRequest svc now pr).2)
         = storage.calls (service.repo svc) ++ [storage.CallCreatePullRequest record]
       ∧ Status record = StatusOpen
       ∧ AssignedReviewers record
           = (service.pickReviewers (service.rnd svc)
                (service.filterReviewers members (AuthorID pr)) 2).1
       ∧ PRID record = PRID pr ∧ Name record = Name pr ∧ AuthorID record = AuthorID pr
       ∧ CreatedAt record = now)
  ∧ (∀ (status : PRStatus) (reviewers : list string) (createdAt : Time),
       service.CreatePullRequest svc now
         (mkPullRequest (PRID pr) (Name pr) (AuthorID pr) status reviewers createdAt
            (MergedAt pr))
       = service.CreatePullRequest svc now pr)
  ∧ (∀ err,
       storage.GetUser (service.repo svc) (AuthorID pr) = Err err
       ∨ (∃ author, storage.GetUser (service.repo svc) (AuthorID pr) = Ok author
                    ∧ storage.ListUsersByTeam (service.repo svc) (TeamName author) = Err err) →
       service.CreatePullRequest svc now pr = (Err err, svc)).
Proof.
  split_and!.
  - intros author members Hauthor Hmembers.
    unfold service.CreatePullRequest. rewrite Hauthor, Hmembers.
    destruct (service.pickReviewers _ _ 2) as [picked rnd'].
    eexists. simpl.
    destruct (storage.CreatePullRequest (storage.inner (service.repo svc)) _) as [res s'].
    simpl. split; [reflexivity|]. done.
  - intros status reviewers createdAt. reflexivity.
  - intros err [Herr|(author & Hauthor & Herr)]; unfold service.CreatePullRequest.
    + by rewrite Herr.
    + by rewrite Hauthor, Herr.
Qed.

Lemma CreatePullRequest_record_passed_witness :
  ∃ record,
    storage.calls (service.repo (service.CreatePullRequest
        (service.mkReviewerService (storage.mkRecorder scenario.backend []) scenario.seed)
        100 (mkPullRequest "pr-1" "Initial" "u1" StatusMerged ["u1"; "u1"] 7 None)).2)
      = [] ++ [storage.CallCreatePullRequest record]
    ∧ Status record = StatusOpen
    ∧ AssignedReviewers record = ["u3"; "u2"].
Proof.
  destruct (CreatePullRequest_record_passed
              (service.mkReviewerService (storage.mkRecorder scenario.backend []) scenario.seed)
              100 (mkPullRequest "pr-1" "Initial" "u1" StatusMerged ["u1"; "u1"] 7 None))
    as (Hpassed & _ & _).
  edestruct (Hpassed scenario.alice)
    as (record & Hcalls & Hstatus & Hrevs & _); [reflexivity | reflexivity |].
  exists record. split_and!; [exact Hcalls | exact Hstatus | exact Hrevs].
Defined.

(* ===================================================================== *)
(** ** MergePullRequest *)
(* ===================================================================== *)

(** C2. Merging is idempotent. A pull request that is already MERGED is
    returned as it was read, and the service, with its repository and the
    list of write calls the repository has received, is left as it was (no
    call of UpdatePullRequest). Hence a second merge, at any later time,
    returns the very record the first merge returned: same status, same
    merge timestamp. *)
Theorem MergePullRequest_idempotent
    (svc : service.ReviewerService (storage.Recorder postgres.Store))
    (now now' : Time) (prID : string) :
  (∀ pr, storage.GetPullRequest (service.repo svc) prID = Ok pr →
         Status pr = StatusMerged →
         service.MergePullRequest svc now prID = (Ok pr, svc))
  ∧ (∀ first svc1,
       service.MergePullRequest svc now prID = (Ok first, svc1) →
       Status first = StatusMerged
       ∧ service.MergePullRequest svc1 now' prID = (Ok first, svc1)).
Proof.
  assert (∀ (svc0 : service.ReviewerService (storage.Recorder postgres.Store)) t pr,
            storage.GetPullRequest (service.repo svc0) prID = Ok pr →
            Status pr = StatusMerged →
            service.MergePullRequest svc0 t prID = (Ok pr, svc0)) as Hshort.
  { intros svc0 t pr Hget Hst. unfold service.MergePullRequest.
    rewrite Hget. by rewrite decide_True. }
  split; [by apply Hshort|].
  intros first svc1 Hmerge. unfold service.MergePullRequest in Hmerge.
  destruct (storage.GetPullRequest (service.repo svc) prID) as [pr|err] eqn:Hget; [|done].
  case_decide as Hst.
  - simplify_eq. split; [done|]. by apply Hshort.
  - simpl in Hget, Hmerge.
    destruct (postgres.UpdatePullRequest _ _) as [res s'] eqn:Hupd.
    simplify_eq.
    apply postgres_facts.UpdatePullRequest_Ok in Hupd
      as (_ & Hget' & _ & _ & _ & Hstatus & _).
    simpl in Hget', Hstatus.
    rewrite (postgres_facts.GetPullRequest_PRID _ _ _ Hget) in Hget'.
    split; [done|]. by apply Hshort.
Qed.

Lemma MergePullRequest_idempotent_witness :
  Status (mkPullRequest "pr-1" "Initial" "u1" StatusMerged ["u2"; "u3"] 100 (Some 200))
  = StatusMerged
  ∧ service.MergePullRequest
      (service.run
         (service.mkReviewerService (storage.mkRecorder scenario.backend []) scenario.seed)
         [service.OpCreate 100 (scenario.request "pr-1" "Initial" "u1");
          service.OpMerge 200 "pr-1"]).2
      300 "pr-1"
    = (Ok (mkPullRequest "pr-1" "Initial" "u1" StatusMerged ["u2"; "u3"] 100 (Some 200)),
       (service.run
         (service.mkReviewerService (storage.mkRecorder scenario.backend []) scenario.seed)
         [service.OpCreate 100 (scenario.request "pr-1" "Initial" "u1");
          service.OpMerge 200 "pr-1"]).2).
Proof.
  apply (proj2 (MergePullRequest_idempotent
                  (service.run
                     (service.mkReviewerService (storage.mkRecorder scenario.backend [])
                        scenario.seed)
                     [service.OpCreate 100 (scenario.request "pr-1" "Initial" "u1")]).2
                  200 300 "pr-1")).
  vm_compute. reflexivity.
Defined.

(** C10. Merging an OPEN pull request changes Status and MergedAt and
    nothing else: with the constraints of the schema in force the merge
    succeeds, the record handed to UpdatePullRequest is the record read with
    these two fields set, and the record returned has the ID, Name, AuthorID,
    AssignedReviewers and CreatedAt of the record read. *)
Theorem MergePullRequest_frame
    (svc : service.ReviewerService (storage.Recorder postgres.Store))
    (now : Time) (prID : string) (pr : PullRequest) :
  postgres.constraints (storage.inner (service.repo svc)) →
  storage.GetPullRequest (service.repo svc) prID = Ok pr →
  Status pr = StatusOpen →
  ∃ pr' svc',
    service.MergePullRequest svc now prID = (Ok pr', svc')
    ∧ PRID pr' = PRID pr ∧ Name pr' = Name pr ∧ AuthorID pr' = AuthorID pr
    ∧ AssignedReviewers pr' = AssignedReviewers pr ∧ CreatedAt pr' = CreatedAt pr
    ∧ Status pr' = StatusMerged ∧ MergedAt pr' = Some now
    ∧ storage.calls (service.repo svc')
      = storage.calls (service.repo svc)
        ++ [storage.CallUpdatePullRequest
              (mkPullRequest (PRID pr) (Name pr) (AuthorID pr) StatusMerged
                 (AssignedReviewers pr) (CreatedAt pr) (Some now))].
Proof.
  intros (Hut & Hpa & Hrv) Hget Hopen. simpl in Hget.
  unfold service.MergePullRequest. simpl. rewrite Hget.
  rewrite decide_False by (rewrite Hopen; discriminate).
  set (written := mkPullRequest (PRID pr) (Name pr) (AuthorID pr) StatusMerged
                    (AssignedReviewers pr) (CreatedAt pr) (Some now)).
  set (s := storage.inner (service.repo svc)) in *.
  pose proof (postgres_facts.GetPullRequest_PRID _ _ _ Hget) as Hid.
  destruct (postgres_facts.updateTx_succeeds s written) as [s' Htx]; simpl.
  { rewrite Hid. apply postgres_facts.GetPullRequest_Ok in Hget as (row & -> & _).
    by eexists. }
  { by eapply postgres_facts.fk_author_user. }
  { by eapply postgres_facts.GetPullRequest_NoDup. }
  { intros r Hr. by eapply postgres_facts.fk_reviewers_user. }
  destruct (postgres.UpdatePullRequest s written) as [res s''] eqn:Hupd.
  destruct res as [pr'|err].
  - eexists pr', _. split; [reflexivity|].
    apply postgres_facts.UpdatePullRequest_Ok in Hupd
      as (Htx' & Hget' & ? & ? & ? & ? & ? & ? & _).
    split_and!; try done.
    apply postgres_facts.updateTx_Ok in Htx' as (_ & _ & _ & _ & _ & _ & _ & Hrows).
    assert (AssignedReviewers pr
            = postgres.reviewersOf (postgres.pull_request_reviewers s) prID) as Hrevs.
    { by apply postgres_facts.GetPullRequest_Ok in Hget as (row & _ & ->). }
    apply postgres_facts.GetPullRequest_Ok in Hget' as (row' & _ & ->).
    simpl. rewrite Hid, Hrevs. apply postgres_facts.reviewersOf_ext.
    intros r. rewrite Hrows. simpl. rewrite Hid, Hrevs.
    rewrite postgres_facts.reviewersOf_elem_of. naive_solver.
  - apply postgres_facts.UpdatePullRequest_Err in Hupd as (_ & e & He & _). congruence.
Qed.

Lemma MergePullRequest_frame_witness :
  ∃ pr' svc',
    service.MergePullRequest
      (service.run
         (service.mkReviewerService (storage.mkRecorder scenario.backend []) scenario.seed)
         [service.OpCreate 100 (scenario.request "pr-1" "Initial" "u1")]).2
      200 "pr-1" = (Ok pr', svc')
    ∧ AssignedReviewers pr' = ["u2"; "u3"]
    ∧ Status pr' = StatusMerged ∧ MergedAt pr' = Some 200.
Proof.
  destruct (MergePullRequest_frame
              (service.run
                 (service.mkReviewerService (storage.mkRecorder scenario.backend [])
                    scenario.seed)
                 [service.OpCreate 100 (scenario.request "pr-1" "Initial" "u1")]).2
              200 "pr-1"
              (mkPullRequest "pr-1" "Initial" "u1" StatusOpen ["u2"; "u3"] 100 None))
    as (pr' & svc' & Hmerge & _ & _ & _ & Hrevs & _ & Hstatus & Hmerged & _).
  - creation.by_evaluation.
  - vm_compute. reflexivity.
  - reflexivity.
  - exists pr', svc'. split_and!; [exact Hmerge | exact Hrevs | exact Hstatus | exact Hmerged].
Defined.

(* ===================================================================== *)
(** ** ReassignReviewer *)
(* ===================================================================== *)

(** C5. The replacement of a successful reassignment is not among the
    reviewers the pull request had (so it is none of the remaining
    reviewers), is not the reviewer removed, and is a user whose active flag
    is set: it is a replacement candidate in the sense of the glossary. *)
Theorem ReassignReviewer_replacement
    (svc svc' : service.ReviewerService postgres.Store) (prID oldReviewerID : string)
    (pr pr' : PullRequest) (new : string) :
  postgres.GetPullRequest (service.repo svc) prID = Ok pr →
  service.ReassignReviewer svc prID oldReviewerID = (Ok (pr', new), svc') →
  (∀ r, r ∈ AssignedReviewers pr → r ≠ oldReviewerID → new ≠ r)
  ∧ (new ∉ AssignedReviewers pr)
  ∧ new ≠ oldReviewerID
  ∧ (∃ row, postgres.users (service.repo svc) !! new = Some row
            ∧ postgres.is_active row = true)
  ∧ spec.replacementCandidate (service.repo svc) pr oldReviewerID new.
Proof.
  intros Hget Hre.
  apply reassign.ReassignReviewer_Ok_inv in Hre
    as (pr0 & k & oldReviewer & members & Hget0 & _ & _ & _ & Huser & Hlist
        & (u & Hu & Hnew) & _).
  subst new. simpl in Hget0, Huser, Hlist. rewrite Hget in Hget0. simplify_eq.
  apply postgres_facts.GetUser_Ok in Huser as (oldRow & HoldRow & ->).
  apply (pool.filterForReplacement_candidate (service.repo svc) pr0 oldReviewerID
           oldRow members u HoldRow Hlist) in Hu as [Hcand _].
  pose proof Hcand as [(oldRow' & row & _ & Hrow & Hne & _ & Hact) Hnin].
  split_and!; try done.
  - intros r Hr _ Heq. by rewrite Heq in Hnin.
  - by exists row.
Qed.

Lemma ReassignReviewer_replacement_witness :
  ("u4" ∉ ["u2"; "u3"]) ∧ "u4" ≠ "u2"
  ∧ (∃ row, postgres.users scenario.backend4 !! "u4" = Some row
            ∧ postgres.is_active row = true).
Proof.
  destruct (ReassignReviewer_replacement
              scenario.opened4
              (service.ReassignReviewer scenario.opened4 "pr-2" "u2").2
              "pr-2" "u2"
              (mkPullRequest "pr-2" "Replace reviewer" "u1" StatusOpen ["u2"; "u3"] 100 None)
              (mkPullRequest "pr-2" "Replace reviewer" "u1" StatusOpen ["u3"; "u4"] 100 None)
              "u4")
    as (_ & Hnin & Hne & Hact & _).
  - vm_compute. reflexivity.
  - vm_compute. reflexivity.
  - split_and!; [exact Hnin | exact Hne | exact Hact].
Defined.

(** C8, as the code has it. A successful reassignment hands to
    UpdatePullRequest the record it read with the new reviewer written over
    the old one at the old one's position [k]: position [k] holds the new
    id, every other position and every other field is unchanged. What is
    persisted and returned is the pull request as the repository reads it
    back after that update: every field but the reviewers as read before,
    and as reviewers those of before with the old one replaced by the new
    one (the old one is gone, the new one is there, every other one stays,
    the number is the same), listed in the order of their ids and not in
    the order of the record written. The new reviewer's id is returned with
    it. *)
Theorem ReassignReviewer_replaces_reviewer
    (svc svc' : service.ReviewerService (storage.Recorder postgres.Store))
    (prID oldReviewerID : string) (pr pr' : PullRequest) (new : string) :
  storage.GetPullRequest (service.repo svc) prID = Ok pr →
  service.ReassignReviewer svc prID oldReviewerID = (Ok (pr', new), svc') →
  ∃ (k : nat) (written : PullRequest),
    AssignedReviewers pr !! k = Some oldReviewerID
    ∧ storage.calls (service.repo svc')
      = storage.calls (service.repo svc) ++ [storage.CallUpdatePullRequest written]
    ∧ AssignedReviewers written !! k = Some new
    ∧ (∀ j, j ≠ k → AssignedReviewers written !! j = AssignedReviewers pr !! j)
    ∧ length (AssignedReviewers written) = length (AssignedReviewers pr)
    ∧ PRID written = PRID pr ∧ Name written = Name pr ∧ AuthorID written = AuthorID pr
    ∧ Status written = Status pr ∧ CreatedAt written = CreatedAt pr
    ∧ MergedAt written = MergedAt pr
    ∧ storage.GetPullRequest (service.repo svc') prID = Ok pr'
    ∧ AssignedReviewers pr' ≡ₚ AssignedReviewers written
    ∧ new ∈ AssignedReviewers pr'
    ∧ (oldReviewerID ∉ AssignedReviewers pr')
    ∧ (∀ r, r ∈ AssignedReviewers pr' ↔
            r = new ∨ (r ∈ AssignedReviewers pr ∧ r ≠ oldReviewerID))
    ∧ length (AssignedReviewers pr') = length (AssignedReviewers pr)
    ∧ NoDup (AssignedReviewers pr')
    ∧ StronglySorted postgres.id_le (AssignedReviewers pr')
    ∧ PRID pr' = PRID pr ∧ Name pr' = Name pr ∧ AuthorID pr' = AuthorID pr
    ∧ Status pr' = Status pr ∧ CreatedAt pr' = CreatedAt pr
    ∧ MergedAt pr' = MergedAt pr.
Proof.
  intros Hget Hre.
  apply reassign.ReassignReviewer_Ok_inv in Hre
    as (pr0 & k & oldReviewer & members & Hget0 & _ & Hk & _ & _ & _ & Hcand & Hupd).
  rewrite Hget in Hget0. simplify_eq. simpl in Hget, Hupd.
  set (written := mkPullRequest (PRID pr0) (Name pr0) (AuthorID pr0) (Status pr0)
                    (<[k := new]> (AssignedReviewers pr0)) (CreatedAt pr0) (MergedAt pr0))
    in *.
  destruct (postgres.UpdatePullRequest (storage.inner (service.repo svc)) written)
    as [res s'] eqn:Hstore.
  injection Hupd as -> Hrepo.
  apply postgres_facts.UpdatePullRequest_Ok in Hstore
    as (_ & Hget' & Hid & Hname & Hauthor & Hstatus & Hcreated & Hmerged & Hperm).
  pose proof (lookup_lt_Some _ _ _ Hk) as Hlt.
  pose proof (postgres_facts.GetPullRequest_NoDup _ _ _ Hget) as Hnd.
  assert (new ≠ oldReviewerID) as Hne.
  { destruct Hcand as (u & Hu & <-).
    rewrite selection.filterForReplacement_filter in Hu.
    by apply list_elem_of_filter in Hu as [(Hne & _) _]. }
  assert (∀ r, r ∈ AssignedReviewers pr' ↔
               r = new ∨ (r ∈ AssignedReviewers pr0 ∧ r ≠ oldReviewerID)) as Hmem.
  { intros r. rewrite Hperm. simpl. by apply selection.elem_of_insert_NoDup. }
  pose proof Hget' as (row' & _ & Hpr')%postgres_facts.GetPullRequest_Ok.
  exists k, written. rewrite <- Hrepo. simpl.
  split_and!; try done.
  - by apply list_lookup_insert_eq.
  - intros j Hj. by apply list_lookup_insert_ne.
  - apply length_insert.
  - by rewrite <- (postgres_facts.GetPullRequest_PRID _ _ _ Hget).
  - apply Hmem. by left.
  - rewrite Hmem. naive_solver.
  - rewrite Hperm. simpl. apply length_insert.
  - by eapply postgres_facts.GetPullRequest_NoDup.
  - rewrite Hpr'. simpl. apply postgres_facts.reviewersOf_sorted.
Qed.

Lemma ReassignReviewer_replaces_reviewer_witness :
  ∃ (k : nat) (written : PullRequest),
    ["u2"; "u3"] !! k = Some "u2"
    ∧ storage.calls (service.repo (service.ReassignReviewer scenario.recorded4 "pr-2" "u2").2)
      = storage.calls (service.repo scenario.recorded4)
        ++ [storage.CallUpdatePullRequest written]
    ∧ AssignedReviewers written !! k = Some "u4"
    ∧ "u4" ∈ ["u3"; "u4"]
    ∧ ("u2" ∉ ["u3"; "u4"])
    ∧ StronglySorted postgres.id_le ["u3"; "u4"].
Proof.
  destruct (ReassignReviewer_replaces_reviewer
              scenario.recorded4
              (service.ReassignReviewer scenario.recorded4 "pr-2" "u2").2
              "pr-2" "u2"
              (mkPullRequest "pr-2" "Replace reviewer" "u1" StatusOpen ["u2"; "u3"] 100 None)
              (mkPullRequest "pr-2" "Replace reviewer" "u1" StatusOpen ["u3"; "u4"] 100 None)
              "u4")
    as (k & written & Hk & Hcalls & Hnew & _ & _ & _ & _ & _ & _ & _ & _ & _ & _ & Hin
        & Hout & _ & _ & _ & Hsorted & _).
  - vm_compute. reflexivity.
  - vm_compute. reflexivity.
  - exists k, written.
    split_and!; [exact Hk | exact Hcalls | exact Hnew | exact Hin | exact Hout
                 | exact Hsorted].
Defined.

(** C8 as stated, of the pull request the operation returns, fails. In team
    backend4, pr-2 by u1 reads with the reviewers u2, u3; reassigning u2
    draws u4 and writes u4, u3; the pull request returned, which is the one
    persisted, lists u3, u4: the new reviewer stands at position 1, where u3
    stood, and position 0, where the old reviewer stood, holds u3. *)
Lemma ReassignReviewer_returned_order :
  postgres.GetPullRequest (service.repo scenario.opened4) "pr-2"
  = Ok (mkPullRequest "pr-2" "Replace reviewer" "u1" StatusOpen ["u2"; "u3"] 100 None)
  ∧ (service.ReassignReviewer scenario.opened4 "pr-2" "u2").1
    = Ok (mkPullRequest "pr-2" "Replace reviewer" "u1" StatusOpen ["u3"; "u4"] 100 None,
          "u4")
  ∧ postgres.GetPullRequest
      (service.repo (service.ReassignReviewer scenario.opened4 "pr-2" "u2").2) "pr-2"
    = Ok (mkPullRequest "pr-2" "Replace reviewer" "u1" StatusOpen ["u3"; "u4"] 100 None)
  ∧ ¬ spec.samePosition ["u2"; "u3"] ["u3"; "u4"] "u2" "u4".
Proof.
  split_and!; [vm_compute; reflexivity..|].
  intros (k & Hold & Hnew & _).
  destruct k as [|[|k]]; simpl in Hold, Hnew; discriminate.
Qed.

(** C6. The failures of [ReassignReviewer], in their order of precedence:
    ErrPullRequestNotFound when the pull request does not exist; else
    ErrPRMerged when it is MERGED; else ErrReviewerNotFound (reviewer not
    assigned) when the old reviewer is not among its reviewers; else
    ErrUserNotFound when the old reviewer is not a known user; else, with the
    constraints of the schema in force, ErrNoReplacement exactly when no
    replacement candidate exists, and success otherwise. *)
Theorem ReassignReviewer_error_precedence
    (svc : service.ReviewerService postgres.Store) (prID oldReviewerID : string) :
  (postgres.pull_requests (service.repo svc) !! prID = None →
   (service.ReassignReviewer svc prID oldReviewerID).1 = Err ErrPullRequestNotFound)
  ∧ (∀ pr, postgres.GetPullRequest (service.repo svc) prID = Ok pr →
       (Status pr = StatusMerged →
        (service.ReassignReviewer svc prID oldReviewerID).1 = Err ErrPRMerged)
       ∧ (Status pr ≠ StatusMerged →
          oldReviewerID ∉ AssignedReviewers pr →
          (service.ReassignReviewer svc prID oldReviewerID).1 = Err ErrReviewerNotFound)
       ∧ (Status pr ≠ StatusMerged →
          oldReviewerID ∈ AssignedReviewers pr →
          postgres.users (service.repo svc) !! oldReviewerID = None →
          (service.ReassignReviewer svc prID oldReviewerID).1 = Err ErrUserNotFound)
       ∧ (Status pr ≠ StatusMerged →
          oldReviewerID ∈ AssignedReviewers pr →
          is_Some (postgres.users (service.repo svc) !! oldReviewerID) →
          postgres.constraints (service.repo svc) →
          ((service.ReassignReviewer svc prID oldReviewerID).1 = Err ErrNoReplacement
           ↔ ¬ ∃ id, spec.replacementCandidate (service.repo svc) pr oldReviewerID id)
          ∧ ((∃ id, spec.replacementCandidate (service.repo svc) pr oldReviewerID id) →
             ∃ pr' new,
               (service.ReassignReviewer svc prID oldReviewerID).1 = Ok (pr', new)))).
Proof.
  split.
  { intros Hnone. unfold service.ReassignReviewer. simpl.
    unfold postgres.GetPullRequest. by rewrite Hnone. }
  intros pr Hget. split_and!.
  - intros Hst. unfold service.ReassignReviewer. simpl. rewrite Hget.
    by rewrite decide_True.
  - intros Hst Hnin. unfold service.ReassignReviewer. simpl. rewrite Hget.
    rewrite decide_False by done.
    by rewrite decide_True by (by apply selection.reviewerIndex_absent).
  - intros Hst Hin Hnone. unfold service.ReassignReviewer. simpl. rewrite Hget.
    rewrite decide_False by done.
    rewrite decide_False by (by rewrite selection.reviewerIndex_absent; intros ?).
    unfold postgres.GetUser. by rewrite Hnone.
  - intros Hst Hin Huser Hcs.
    assert ((∃ id, spec.replacementCandidate (service.repo svc) pr oldReviewerID id)
            ∨ ¬ (∃ id, spec.replacementCandidate (service.repo svc) pr oldReviewerID id))
      as [Hsome|Hnone].
    { destruct Hcs as (Hut & _). destruct Huser as [oldRow HoldRow].
      assert (postgres.GetUser (service.repo svc) oldReviewerID
              = Ok (postgres.userOfRow (oldReviewerID, oldRow))) as Huser.
      { apply postgres_facts.GetUser_Ok. by exists oldRow. }
      destruct (postgres_facts.ListUsersByTeam_of_user _ _ _ Hut Huser)
        as [members Hlist]. simpl in Hlist.
      destruct (service.filterForReplacement members oldReviewerID (AssignedReviewers pr))
        as [|u rest] eqn:Hpool.
      - right. intros (id & Hcand).
        pose proof Hcand as [Hteam _].
        destruct (pool.activeTeammate_user _ _ _ Hteam) as (u & Hu & Hid).
        assert (u ∈ service.filterForReplacement members oldReviewerID
                      (AssignedReviewers pr)) as Hmem.
        { apply (pool.filterForReplacement_candidate (service.repo svc) pr oldReviewerID
                   oldRow members u HoldRow Hlist).
          by rewrite Hid. }
        rewrite Hpool in Hmem. by apply elem_of_nil in Hmem.
      - left. exists (ID u).
        apply (pool.filterForReplacement_candidate (service.repo svc) pr oldReviewerID
                 oldRow members u HoldRow Hlist).
        rewrite Hpool. by left. }
    + destruct (reassign.ReassignReviewer_succeeds svc prID oldReviewerID pr
                  Hcs Hget Hst Hin Hsome) as (pr' & new & svc' & Hre).
      rewrite Hre. simpl. split; [|by eexists _, _].
      split; [done | by intros []].
    + destruct Hcs as (Hut & _).
      rewrite (reassign.ReassignReviewer_no_candidate svc prID oldReviewerID pr
                 Hut Hget Hst Hin Huser Hnone). simpl.
      split; [done | by intros ?].
Qed.

Lemma ReassignReviewer_error_precedence_witness :
  (service.ReassignReviewer scenario.opened "pr-0" "u2").1 = Err ErrPullRequestNotFound
  ∧ (service.ReassignReviewer scenario.merged "pr-1" "u2").1 = Err ErrPRMerged
  ∧ (service.ReassignReviewer scenario.opened "pr-1" "u9").1 = Err ErrReviewerNotFound
  ∧ (service.ReassignReviewer
       (service.mkReviewerService scenario.backend_stray_reviewer scenario.seed)
       "pr-1" "u9").1 = Err ErrUserNotFound
  ∧ (¬ ∃ id, spec.replacementCandidate scenario.backend_author_inactive
               (mkPullRequest "pr-1" "Initial" "u1" StatusOpen ["u2"; "u3"] 100 None)
               "u2" id)
  ∧ (∃ pr' new, (service.ReassignReviewer scenario.opened "pr-1" "u2").1 = Ok (pr', new)).
Proof.
  split_and!.
  - apply (proj1 (ReassignReviewer_error_precedence scenario.opened "pr-0" "u2")).
    reflexivity.
  - apply (proj2 (ReassignReviewer_error_precedence scenario.merged "pr-1" "u2")
             (mkPullRequest "pr-1" "Initial" "u1" StatusMerged ["u2"; "u3"] 100 (Some 200))).
    + vm_compute. reflexivity.
    + reflexivity.
  - apply (proj2 (ReassignReviewer_error_precedence scenario.opened "pr-1" "u9")
             (mkPullRequest "pr-1" "Initial" "u1" StatusOpen ["u2"; "u3"] 100 None)).
    + vm_compute. reflexivity.
    + discriminate.
    + creation.by_evaluation.
  - apply (proj2 (ReassignReviewer_error_precedence
                    (service.mkReviewerService scenario.backend_stray_reviewer scenario.seed)
                    "pr-1" "u9")
             (mkPullRequest "pr-1" "Initial" "u1" StatusOpen ["u9"] 100 None)).
    + vm_compute. reflexivity.
    + discriminate.
    + creation.by_evaluation.
    + reflexivity.
  - apply (proj2 (ReassignReviewer_error_precedence
                    (service.mkReviewerService scenario.backend_author_inactive scenario.seed)
                    "pr-1" "u2")
             (mkPullRequest "pr-1" "Initial" "u1" StatusOpen ["u2"; "u3"] 100 None)).
    + vm_compute. reflexivity.
    + discriminate.
    + creation.by_evaluation.
    + by eexists.
    + creation.by_evaluation.
    + vm_compute. reflexivity.
  - apply (proj2 (ReassignReviewer_error_precedence scenario.opened "pr-1" "u2")
             (mkPullRequest "pr-1" "Initial" "u1" StatusOpen ["u2"; "u3"] 100 None)).
    + vm_compute. reflexivity.
    + discriminate.
    + creation.by_evaluation.
    + by eexists.
    + creation.by_evaluation.
    + exists "u1". split.
      * exists (postgres.mkUserRow "Bob" "backend" true),
          (postgres.mkUserRow "Alice" "backend" true).
        split_and!; [reflexivity | reflexivity | discriminate | reflexivity | reflexivity].
      * creation.by_evaluation.
Defined.

(* ===================================================================== *)
(** ** The invariants of a pull request over sequences of operations *)
(* ===================================================================== *)

(** C7, as the code has it. Start from a store whose records have their
    merge timestamp iff they are MERGED, and run any sequence of the three
    core operations in which every creation request carries no merge
    timestamp. Then every record returned, and every record in the store
    afterwards, has its merge timestamp iff it is MERGED. A merge of a record
    that is not MERGED sets status MERGED and the current time together, and
    once a record is MERGED no later operation changes its status or its
    merge timestamp. *)
Theorem merge_timestamp_iff_merged
    (svc : service.ReviewerService postgres.Store) (ops : list service.Op) :
  spec.storeMergedIffTimestamp (service.repo svc) →
  Forall spec.requestWithoutTimestamp ops →
  Forall spec.outcomeMergedIffTimestamp (service.run svc ops).1
  ∧ spec.storeMergedIffTimestamp (service.repo (service.run svc ops).2)
  ∧ (∀ now prID pr pr' svc',
       postgres.GetPullRequest (service.repo svc) prID = Ok pr →
       Status pr ≠ StatusMerged →
       service.MergePullRequest svc now prID = (Ok pr', svc') →
       Status pr' = StatusMerged ∧ MergedAt pr' = Some now)
  ∧ (∀ prID pr,
       postgres.GetPullRequest (service.repo svc) prID = Ok pr →
       Status pr = StatusMerged →
       ∃ pr', postgres.GetPullRequest (service.repo (service.run svc ops).2) prID = Ok pr'
              ∧ Status pr' = StatusMerged ∧ MergedAt pr' = MergedAt pr).
Proof.
  intros Hinv Hreq.
  destruct (lifecycle.run_invariant ops svc Hinv Hreq) as [Houts Hstore].
  split_and!; [done | done | |].
  - intros now prID pr pr' svc' Hget Hst Hmerge.
    apply lifecycle.MergePullRequest_effect in Hmerge
      as [(err & ? & _)|[(pr0 & ? & _ & Hget0 & Hst0)
          |(pr0 & pr1 & row & ? & _ & _ & _ & _ & _ & ? & ?)]].
    + done.
    + rewrite Hget in Hget0. by simplify_eq.
    + by simplify_eq.
  - intros prID pr (row & Hrow & ->)%postgres_facts.GetPullRequest_Ok Hst. simpl in Hst.
    pose proof (lifecycle.run_keeps_merged ops svc prID row Hrow Hst) as Hrow'.
    unfold postgres.GetPullRequest. rewrite Hrow'. by eexists.
Qed.

Lemma merge_timestamp_iff_merged_witness :
  Forall spec.outcomeMergedIffTimestamp
    (service.run (service.mkReviewerService scenario.backend scenario.seed)
       scenario.session).1
  ∧ spec.storeMergedIffTimestamp
      (service.repo (service.run (service.mkReviewerService scenario.backend scenario.seed)
                       scenario.session).2).
Proof.
  destruct (merge_timestamp_iff_merged
              (service.mkReviewerService scenario.backend scenario.seed) scenario.session)
    as (Houts & Hstore & _).
  - apply map_Forall_empty.
  - repeat constructor.
  - split; [exact Houts | exact Hstore].
Defined.

(** C7 as stated, for every record the operations produce, fails: a creation
    request that carries a merge timestamp comes back OPEN with that
    timestamp. *)
Lemma CreatePullRequest_open_with_timestamp :
  (service.CreatePullRequest (service.mkReviewerService scenario.backend scenario.seed)
     100 scenario.requestWithTimestamp).1
  = Ok (mkPullRequest "pr-1" "Initial" "u1" StatusOpen ["u2"; "u3"] 100 (Some 50))
  ∧ ¬ spec.mergedIffTimestamp
        (mkPullRequest "pr-1" "Initial" "u1" StatusOpen ["u2"; "u3"] 100 (Some 50)).
Proof.
  split; [vm_compute; reflexivity|].
  unfold spec.mergedIffTimestamp. simpl. intros [Hto _].
  discriminate (Hto (ex_intro _ 50 eq_refl)).
Qed.

(** C1. The author can become a reviewer of the own pull request. Creation
    keeps the author out ([creation.CreatePullRequest_excludes_author]), but
    in team backend (u1, u2, u3, all active), after u1 opened pr-1 and got u2
    and u3 as reviewers, reassigning u2 selects u1, for every state of the
    random source: [filterForReplacement] keeps the author in the pool,
    where [filterReviewers] removes the author. *)
Theorem ReassignReviewer_selects_author (rnd : rand.Rand) :
  ∃ created reassigned svc',
    service.run (service.mkReviewerService scenario.backend rnd)
      [service.OpCreate 100 (scenario.request "pr-1" "Initial" "u1");
       service.OpReassign "pr-1" "u2"]
    = ([service.Returned created; service.Reassigned reassigned "u1"], svc')
    ∧ AuthorID created = "u1" ∧ AssignedReviewers created = ["u2"; "u3"]
    ∧ AuthorID reassigned = "u1" ∧ AssignedReviewers reassigned = ["u1"; "u3"]
    ∧ AuthorID reassigned ∈ AssignedReviewers reassigned.
Proof.
  assert (∃ rnd',
            service.CreatePullRequest (service.mkReviewerService scenario.backend rnd)
              100 (scenario.request "pr-1" "Initial" "u1")
            = (Ok (mkPullRequest "pr-1" "Initial" "u1" StatusOpen ["u2"; "u3"] 100 None),
               service.mkReviewerService (service.repo scenario.opened) rnd'))
    as [rnd' Hcreate].
  { unfold service.CreatePullRequest.
    change (storage.GetUser _ _) with (Ok scenario.alice). cbv beta iota.
    change (storage.ListUsersByTeam _ _)
      with (Ok [scenario.charlie; scenario.alice; scenario.bob]). cbv beta iota.
    change (service.filterReviewers _ _) with [scenario.charlie; scenario.bob].
    cbn [service.rnd service.repo].
    destruct (selection.pickReviewers_pair rnd scenario.charlie scenario.bob)
      as [rnd' [-> | ->]]; exists rnd'; vm_compute; reflexivity. }
  simpl. rewrite Hcreate.
  eexists _, _, _. split; [vm_compute; reflexivity|].
  split_and!; try reflexivity. simpl. set_solver.
Qed.

(* ===================================================================== *)
(** ** Teams, the active flag and the review lists: the store *)
(* ===================================================================== *)

Module directory_facts.
Import postgres postgres_facts pgdirectory.

#[global] Instance user_le_trans : Transitive user_le.
Proof. intros u v w. unfold user_le. apply id_le_trans. Qed.

#[global] Instance user_le_total : Total user_le.
Proof. intros u v. unfold user_le. apply id_le_total. Qed.

#[global] Instance newer_first_trans : Transitive newer_first.
Proof. intros a b c. unfold newer_first. lia. Qed.

#[global] Instance newer_first_total : Total newer_first.
Proof. intros a b. unfold newer_first. lia. Qed.

(** *** GetTeam *)

Lemma GetTeam_Ok (s : Store) (name : string) (t : team.Team) :
  GetTeam s name = Ok t →
  name ∈ teams s
  ∧ team.Name t = name
  ∧ NoDup (ID <$> team.Members t)
  ∧ StronglySorted user_le (team.Members t)
  ∧ (∀ u, u ∈ team.Members t ↔ GetUser s (ID u) = Ok u ∧ TeamName u = name).
Proof.
  unfold GetTeam. case_decide as Hteam; [|done]. intros [= <-]. simpl.
  assert (ListUsersByTeam s name
          = Ok (filter (λ u, TeamName u = name) (userOfRow <$> map_to_list (users s))))
    as Hlist.
  { unfold ListUsersByTeam. by rewrite decide_True. }
  apply ListUsersByTeam_Ok in Hlist as (_ & Hnd & Hmem).
  split_and!; [done | done | | |].
  - by rewrite merge_sort_Permutation.
  - apply StronglySorted_merge_sort; apply _.
  - intros u. by rewrite merge_sort_Permutation.
Qed.

Lemma GetTeam_Err (s : Store) (name : string) (err : error) :
  GetTeam s name = Err err → (name ∉ teams s) ∧ err = ErrTeamNotFound.
Proof. unfold GetTeam. case_decide; [done|]. by intros [= <-]. Qed.

(** *** The upserts of CreateTeam *)

Lemma upsertMembers_other (us : gmap string UserRow) (teamName : string)
    (members : list User) (id : string) :
  id ∉ ID <$> members → upsertMembers us teamName members !! id = us !! id.
Proof.
  revert us. induction members as [|m rest IH]; intros us Hnin; simpl; [done|].
  rewrite fmap_cons in Hnin. apply not_elem_of_cons in Hnin as [Hne Hnin].
  rewrite IH by done. by rewrite lookup_insert_ne.
Qed.

(** After the upserts every member is a user of the team; of two members
    with the same id the later one is stored. *)
Lemma upsertMembers_member (us : gmap string UserRow) (teamName : string)
    (members : list User) (id : string) :
  id ∈ ID <$> members →
  ∃ m, m ∈ members ∧ ID m = id
       ∧ upsertMembers us teamName members !! id
         = Some (mkUserRow (Username m) teamName (IsActive m)).
Proof.
  revert us. induction members as [|m rest IH]; intros us Hin; simpl.
  - by apply elem_of_nil in Hin.
  - destruct (decide (id ∈ ID <$> rest)) as [Hrest|Hrest].
    + destruct (IH (<[ID m := mkUserRow (Username m) teamName (IsActive m)]> us) Hrest)
        as (m' & Hm' & Hid & Hrow).
      exists m'. split_and!; [by right | done | done].
    + rewrite fmap_cons in Hin. apply elem_of_cons in Hin as [->|Hin]; [|done].
      exists m. split_and!; [by left | done |].
      rewrite upsertMembers_other by done. by rewrite lookup_insert_eq.
Qed.

Lemma upsertMembers_NoDup (us : gmap string UserRow) (teamName : string)
    (members : list User) (m : User) :
  NoDup (ID <$> members) → m ∈ members →
  upsertMembers us teamName members !! ID m
  = Some (mkUserRow (Username m) teamName (IsActive m)).
Proof.
  intros Hnd Hm.
  destruct (upsertMembers_member us teamName members (ID m)) as (m' & Hm' & Hid & ->).
  { by apply list_elem_of_fmap_2. }
  assert (m' = m) as ->; [|done].
  apply list_elem_of_lookup in Hm as [i Hi]. apply list_elem_of_lookup in Hm' as [j Hj].
  assert (i = j) as ->.
  { eapply NoDup_lookup; [exact Hnd| |].
    - by rewrite list_lookup_fmap, Hi.
    - rewrite list_lookup_fmap, Hj. simpl. by rewrite Hid. }
  congruence.
Qed.

(** The rows of a store stay rows: an upsert never removes a user. *)
Lemma upsertMembers_is_Some (us : gmap string UserRow) (teamName : string)
    (members : list User) (id : string) :
  is_Some (us !! id) → is_Some (upsertMembers us teamName members !! id).
Proof.
  intros Hs. destruct (decide (id ∈ ID <$> members)) as [Hin|Hnin].
  - destruct (upsertMembers_member us teamName members id Hin) as (m & _ & _ & ->).
    by eexists.
  - by rewrite upsertMembers_other.
Qed.

(** *** CreateTeam *)

Lemma CreateTeam_exists (s : Store) (t : team.Team) :
  team.Name t ∈ teams s → CreateTeam s t = (Err ErrTeamExists, s).
Proof. intros Hin. unfold CreateTeam, createTeamTx. by rewrite decide_True. Qed.

Lemma CreateTeam_fresh (s : Store) (t : team.Team) :
  team.Name t ∉ teams s →
  ∃ t' s',
    CreateTeam s t = (Ok t', s')
    ∧ GetTeam s' (team.Name t) = Ok t'
    ∧ teams s' = {[ team.Name t ]} ∪ teams s
    ∧ users s' = upsertMembers (users s) (team.Name t) (team.Members t)
    ∧ pull_requests s' = pull_requests s
    ∧ pull_request_reviewers s' = pull_request_reviewers s.
Proof.
  intros Hnin. unfold CreateTeam, createTeamTx. rewrite decide_False by done.
  set (s' := mkStore _ _ _ _).
  destruct (GetTeam s' (team.Name t)) as [t'|err] eqn:Hget.
  - by exists t', s'.
  - apply GetTeam_Err in Hget as [Hget _]. exfalso. apply Hget. simpl. set_solver.
Qed.

Lemma CreateTeam_constraints (s s' : Store) (t t' : team.Team) :
  constraints s → CreateTeam s t = (Ok t', s') → constraints s'.
Proof.
  intros (Hut & Hpa & Hrv) Hcreate.
  destruct (decide (team.Name t ∈ teams s)) as [Hin|Hnin].
  { by rewrite CreateTeam_exists in Hcreate. }
  destruct (CreateTeam_fresh s t Hnin) as (t0 & s0 & Hc & _ & Ht & Hu & Hp & Hr).
  rewrite Hc in Hcreate. simplify_eq.
  unfold constraints, fk_users_team, fk_pull_requests_author, fk_reviewers.
  rewrite Ht, Hu, Hp, Hr. split_and!.
  - intros id row Hrow.
    destruct (decide (id ∈ ID <$> team.Members t)) as [Hmem|Hmem].
    + destruct (upsertMembers_member (users s) (team.Name t) (team.Members t) id Hmem)
        as (m & _ & _ & Hrow').
      rewrite Hrow in Hrow'. simplify_eq. simpl. set_solver.
    + rewrite upsertMembers_other in Hrow by done.
      apply elem_of_union_r. by apply (Hut id row).
  - intros id row Hrow. apply upsertMembers_is_Some. by apply (Hpa id row).
  - intros p Hp'. destruct (Hrv p Hp') as [? ?]. split; [done|].
    by apply upsertMembers_is_Some.
Qed.

(** The members [GetTeam] reads after [CreateTeam]: the members given, each
    with the name of the team, in the order of their ids. *)
Lemma created_team_members (s s' : Store) (t t' : team.Team) :
  fk_users_team s →
  team.Name t ∉ teams s →
  NoDup (ID <$> team.Members t) →
  CreateTeam s t = (Ok t', s') →
  GetTeam s' (team.Name t) = Ok t'
  ∧ team.Name t' = team.Name t
  ∧ team.Members t' ≡ₚ (enrolled (team.Name t) <$> team.Members t)
  ∧ StronglySorted user_le (team.Members t').
Proof.
  intros Hfk Hfresh Hnd Hcreate.
  destruct (CreateTeam_fresh s t Hfresh)
    as (t0 & s0 & Hcreate0 & Hget & Hteams & Husers & _ & _).
  rewrite Hcreate in Hcreate0. injection Hcreate0 as <- <-.
  split; [done|].
  pose proof Hget as (_ & Hname & Hnd' & Hsorted & Hmem)%GetTeam_Ok.
  split_and!; [done | | done].
  apply NoDup_Permutation.
  - by apply NoDup_fmap_1 in Hnd'.
  - apply (NoDup_fmap_1 ID). rewrite <- list_fmap_compose.
    by rewrite (list_fmap_ext (ID ∘ enrolled (team.Name t)) ID (team.Members t)).
  - intros u. rewrite Hmem, list_elem_of_fmap. split.
    + intros [(row & Hrow & Hu)%postgres_facts.GetUser_Ok Hteam].
      rewrite Husers in Hrow.
      destruct (decide (ID u ∈ ID <$> team.Members t)) as [Hin|Hnin].
      * apply list_elem_of_fmap in Hin as (m & Hid & Hm). exists m. split; [|done].
        rewrite Hid, (upsertMembers_NoDup _ _ _ m Hnd Hm) in Hrow.
        simplify_eq. rewrite Hu, Hid. reflexivity.
      * rewrite upsertMembers_other in Hrow by done.
        exfalso. apply Hfresh. rewrite Hu in Hteam. simpl in Hteam. rewrite <- Hteam.
        by apply (Hfk (ID u) row).
    + intros (m & -> & Hm). simpl. split; [|done].
      apply postgres_facts.GetUser_Ok.
      exists (mkUserRow (Username m) (team.Name t) (IsActive m)).
      split; [|reflexivity].
      rewrite Husers. by apply upsertMembers_NoDup.
Qed.

(** *** SetUserActive *)

Lemma SetUserActive_unknown (s : Store) (userID : string) (isActive : bool) :
  users s !! userID = None → SetUserActive s userID isActive = (Err ErrUserNotFound, s).
Proof. intros Hnone. unfold SetUserActive. by rewrite Hnone. Qed.

Lemma SetUserActive_known (s : Store) (userID : string) (isActive : bool) (row : UserRow) :
  users s !! userID = Some row →
  SetUserActive s userID isActive
  = (Ok (mkUser userID (username row) (team_name row) isActive),
     mkStore (teams s)
       (<[userID := mkUserRow (username row) (team_name row) isActive]> (users s))
       (pull_requests s) (pull_request_reviewers s)).
Proof. intros Hrow. unfold SetUserActive. by rewrite Hrow. Qed.

Lemma SetUserActive_constraints (s s' : Store) (userID : string) (isActive : bool)
    (res : result User) :
  constraints s → SetUserActive s userID isActive = (res, s') → constraints s'.
Proof.
  intros (Hut & Hpa & Hrv). unfold SetUserActive.
  destruct (users s !! userID) as [row|] eqn:Hrow; intros [= <- <-]; [|done].
  unfold constraints, fk_users_team, fk_pull_requests_author, fk_reviewers. simpl.
  assert (∀ id, is_Some (users s !! id) →
            is_Some (<[userID := mkUserRow (username row) (team_name row) isActive]>
                       (users s) !! id)) as Hkeep.
  { intros id Hs. destruct (decide (userID = id)) as [->|Hne].
    - rewrite lookup_insert_eq. by eexists.
    - by rewrite lookup_insert_ne. }
  split_and!.
  - apply map_Forall_insert_2; [|done]. simpl. by apply (Hut userID row).
  - intros id prow Hprow. apply Hkeep. by apply (Hpa id prow).
  - intros p Hp. destruct (Hrv p Hp) as [? ?]. split; [done|]. by apply Hkeep.
Qed.

(** *** ListPullRequestsByReviewer *)

Lemma joinedRow_Some (s : Store) (id : string) (pr : PullRequest) :
  joinedRow s id = Some pr ↔
  ∃ row, pull_requests s !! id = Some row
         ∧ pr = mkPullRequest id (pull_request_name row) (author_id row) (status row) []
                  (created_at row) (merged_at row).
Proof.
  unfold joinedRow. destruct (pull_requests s !! id) as [row|]; split.
  - intros [= <-]. by exists row.
  - intros (row' & [= <-] & ->). done.
  - done.
  - by intros (row' & ? & _).
Qed.

Lemma omap_joinedRow_sublist (s : Store) (ids : list string) :
  PRID <$> omap (joinedRow s) ids `sublist_of` ids.
Proof.
  induction ids as [|id ids IH]; simpl; [done|].
  destruct (joinedRow s id) as [pr|] eqn:Hrow; simpl.
  - apply joinedRow_Some in Hrow as (row & _ & ->). simpl. by constructor.
  - by constructor.
Qed.

Lemma reviewed_ids_NoDup (tbl : gset (string * string)) (userID : string) :
  NoDup (fst <$> filter (λ p, p.2 = userID) (elements tbl)).
Proof.
  apply NoDup_fmap_2_strong.
  - intros [i1 r1] [i2 r2] [H1 _]%list_elem_of_filter [H2 _]%list_elem_of_filter ?.
    simpl in *. congruence.
  - apply NoDup_filter, NoDup_elements.
Qed.

Lemma reviewed_ids_elem_of (tbl : gset (string * string)) (userID id : string) :
  id ∈ fst <$> filter (λ p, p.2 = userID) (elements tbl) ↔ (id, userID) ∈ tbl.
Proof.
  rewrite list_elem_of_fmap. split.
  - intros ([i r] & -> & [Hr Hin]%list_elem_of_filter). simpl in *. subst.
    by apply elem_of_elements in Hin.
  - intros Hin. exists (id, userID). split; [done|].
    apply list_elem_of_filter. split; [done|]. by apply elem_of_elements.
Qed.

Lemma ListPullRequestsByReviewer_Ok (s : Store) (userID : string) :
  ∃ prs,
    ListPullRequestsByReviewer s userID = Ok prs
    ∧ NoDup (PRID <$> prs)
    ∧ StronglySorted newer_first prs
    ∧ (∀ pr, pr ∈ prs ↔
             (PRID pr, userID) ∈ pull_request_reviewers s
             ∧ joinedRow s (PRID pr) = Some pr).
Proof.
  eexists. split; [reflexivity|]. split_and!.
  - rewrite merge_sort_Permutation.
    eapply sublist_NoDup; [apply reviewed_ids_NoDup | apply omap_joinedRow_sublist].
  - apply StronglySorted_merge_sort; apply _.
  - intros pr. rewrite merge_sort_Permutation, list_elem_of_omap. split.
    + intros (id & Hid & Hrow). pose proof Hrow as (row & _ & Hpr)%joinedRow_Some.
      assert (PRID pr = id) as -> by (by rewrite Hpr).
      split; [|done]. by apply reviewed_ids_elem_of.
    + intros [Hin Hrow]. exists (PRID pr). split; [|done].
      by apply reviewed_ids_elem_of.
Qed.

(** A pull request is listed for a user exactly when it exists and has the
    user among its reviewers. *)
Lemma listed_iff (s : Store) (userID : string) (prs : list PullRequest) (id : string) :
  ListPullRequestsByReviewer s userID = Ok prs →
  id ∈ PRID <$> prs ↔
  ∃ pr, GetPullRequest s id = Ok pr ∧ userID ∈ AssignedReviewers pr.
Proof.
  intros Hlist.
  destruct (ListPullRequestsByReviewer_Ok s userID) as (prs' & Hlist' & _ & _ & Hmem).
  rewrite Hlist in Hlist'. simplify_eq.
  rewrite list_elem_of_fmap. split.
  - intros (listed & -> & [Hin (row & Hrow & _)%joinedRow_Some]%Hmem).
    eexists. split.
    + apply GetPullRequest_Ok. exists row. split; [done|reflexivity].
    + simpl. by apply reviewersOf_elem_of.
  - intros (pr & (row & Hrow & ->)%GetPullRequest_Ok & Hin).
    simpl in Hin. apply reviewersOf_elem_of in Hin.
    exists (mkPullRequest id (pull_request_name row) (author_id row)
              (status row) [] (created_at row) (merged_at row)).
    split; [done|]. apply Hmem. simpl. split; [done|].
    apply joinedRow_Some. by exists row.
Qed.

End directory_facts.

(* ===================================================================== *)
(** ** Further properties of the selection helpers *)
(* ===================================================================== *)

(** X1. [reviewerIndex] answers -1 exactly when [contains] answers false;
    any other answer is a position of the slice, holds the target, and is
    the first position that does. *)
Theorem reviewerIndex_first_occurrence (reviewers : list string) (target : string) :
  (service.reviewerIndex reviewers target = -1
   ↔ service.contains reviewers target = false)
  ∧ (service.reviewerIndex reviewers target ≠ -1 →
     0 <= service.reviewerIndex reviewers target < Z.of_nat (length reviewers)
     ∧ reviewers !! Z.to_nat (service.reviewerIndex reviewers target) = Some target
     ∧ (target ∉ take (Z.to_nat (service.reviewerIndex reviewers target)) reviewers)).
Proof.
  split.
  - by rewrite selection.reviewerIndex_absent, selection.contains_false.
  - intros (k & -> & Hk & Hfirst)%selection.reviewerIndex_found.
    rewrite Nat2Z.id. pose proof (lookup_lt_Some _ _ _ Hk). split_and!; [lia..|done|done].
Qed.

Lemma reviewerIndex_first_occurrence_witness :
  0 <= service.reviewerIndex ["u3"; "u2"; "u2"] "u2" < 3
  ∧ ["u3"; "u2"; "u2"] !! Z.to_nat (service.reviewerIndex ["u3"; "u2"; "u2"] "u2")
    = Some "u2"
  ∧ ("u2" ∉ take (Z.to_nat (service.reviewerIndex ["u3"; "u2"; "u2"] "u2"))
              ["u3"; "u2"; "u2"]).
Proof.
  apply (proj2 (reviewerIndex_first_occurrence ["u3"; "u2"; "u2"] "u2")).
  vm_compute. discriminate.
Defined.

(** X2. The pool of a reassignment is the pool a creation anchored at the
    old reviewer would have, less the ids already assigned; with nothing
    assigned the two pools are the same. Both filters keep the order of the
    users, and filtering twice changes nothing. *)
Theorem filterForReplacement_refines_filterReviewers
    (users : list User) (anchorID : string) (assigned : list string) :
  service.filterForReplacement users anchorID assigned
  = filter (λ u, ID u ∉ assigned) (service.filterReviewers users anchorID)
  ∧ service.filterForReplacement users anchorID [] = service.filterReviewers users anchorID
  ∧ service.filterForReplacement users anchorID assigned
      `sublist_of` service.filterReviewers users anchorID
  ∧ service.filterReviewers users anchorID `sublist_of` users
  ∧ service.filterReviewers (service.filterReviewers users anchorID) anchorID
    = service.filterReviewers users anchorID.
Proof.
  assert (∀ l, service.filterForReplacement users anchorID l
               = filter (λ u, ID u ∉ l) (service.filterReviewers users anchorID)) as Hrel.
  { intros l. rewrite selection.filterForReplacement_filter,
      selection.filterReviewers_filter, list_filter_filter.
    apply list_filter_iff. naive_solver. }
  split_and!.
  - apply Hrel.
  - rewrite Hrel. rewrite !selection.filterReviewers_filter, list_filter_filter.
    apply list_filter_iff. intros u. split; [naive_solver|].
    intros ?. split; [apply not_elem_of_nil | done].
  - rewrite Hrel. apply sublist_filter.
  - rewrite selection.filterReviewers_filter. apply sublist_filter.
  - rewrite !selection.filterReviewers_filter. by apply list_filter_filter_r.
Qed.

(** X3. Whatever the random source yields, the ids [pickReviewers] returns
    are drawn from the pool without repetition: as a multiset they are
    contained in the ids of the pool, so they are distinct when the ids of
    the pool are. With an empty pool or a limit of zero or less nothing is
    drawn and the random source is not advanced. *)
Theorem pickReviewers_from_pool (rnd : rand.Rand) (users : list User) (limit : Z) :
  (service.pickReviewers rnd users limit).1 ⊆+ (ID <$> users)
  ∧ (NoDup (ID <$> users) → NoDup (service.pickReviewers rnd users limit).1)
  ∧ (users = [] ∨ limit <= 0 → service.pickReviewers rnd users limit = ([], rnd)).
Proof.
  split_and!.
  - destruct (selection.pickReviewers_prefix rnd users limit) as (sh & Hp & ->).
    transitivity (ID <$> sh).
    + apply fmap_submseteq, sublist_submseteq, sublist_take.
    + by apply Permutation_submseteq, fmap_Permutation.
  - apply selection.pickReviewers_NoDup.
  - intros Hc. unfold service.pickReviewers. rewrite decide_True; [done|].
    destruct Hc as [->|?]; [by left | by right].
Qed.

Lemma pickReviewers_from_pool_witness :
  NoDup (service.pickReviewers scenario.seed [scenario.bob; scenario.charlie] 1).1
  ∧ service.pickReviewers scenario.seed [scenario.bob; scenario.charlie] 0
    = ([], scenario.seed).
Proof.
  pose proof (pickReviewers_from_pool scenario.seed [scenario.bob; scenario.charlie] 1)
    as (_ & Hnd & _).
  pose proof (pickReviewers_from_pool scenario.seed [scenario.bob; scenario.charlie] 0)
    as (_ & _ & Hnone).
  split.
  - apply Hnd. creation.by_evaluation.
  - apply Hnone. right. lia.
Defined.

(* ===================================================================== *)
(** ** Teams and the active flag in the store *)
(* ===================================================================== *)

(** X4. Creating a team and reading it back: when the name is new, the
    member ids are distinct and the users of the store all belong to
    existing teams, [Store.CreateTeam] succeeds and returns what [GetTeam]
    reads afterwards: the team under its name, with exactly the members
    given, each carrying the name of the team as TeamName, in the order of
    their ids. *)
Theorem CreateTeam_round_trip (s : postgres.Store) (t : team.Team) :
  postgres.fk_users_team s →
  team.Name t ∉ postgres.teams s →
  NoDup (ID <$> team.Members t) →
  ∃ t' s',
    pgdirectory.CreateTeam s t = (Ok t', s')
    ∧ pgdirectory.GetTeam s' (team.Name t) = Ok t'
    ∧ team.Name t' = team.Name t
    ∧ team.Members t' ≡ₚ (pgdirectory.enrolled (team.Name t) <$> team.Members t)
    ∧ StronglySorted pgdirectory.user_le (team.Members t').
Proof.
  intros Hfk Hfresh Hnd.
  destruct (directory_facts.CreateTeam_fresh s t Hfresh) as (t' & s' & Hcreate & _).
  exists t', s'. split; [done|].
  by apply (directory_facts.created_team_members s s' t t').
Qed.

Lemma CreateTeam_round_trip_witness :
  ∃ t' s',
    pgdirectory.CreateTeam scenario.backend casebook.payments = (Ok t', s')
    ∧ pgdirectory.GetTeam s' "payments" = Ok t'
    ∧ team.Name t' = "payments"
    ∧ team.Members t'
        ≡ₚ [mkUser "u5" "Eve" "payments" false; mkUser "u4" "Dora" "payments" true]
    ∧ StronglySorted pgdirectory.user_le (team.Members t').
Proof.
  apply (CreateTeam_round_trip scenario.backend casebook.payments).
  - creation.by_evaluation.
  - creation.by_evaluation.
  - creation.by_evaluation.
Defined.

(** X5. [Store.CreateTeam] takes over every user it names: after a
    successful call each member given is a user of the new team, also one
    who belonged to another team before, who is then no longer listed in any
    other team. Users not named keep their row, and no pull request or
    reviewer row is touched. *)
Theorem CreateTeam_moves_members (s s' : postgres.Store) (t t' : team.Team) :
  pgdirectory.CreateTeam s t = (Ok t', s') →
  (∀ m, m ∈ team.Members t →
        ∃ u, postgres.GetUser s' (ID m) = Ok u
             ∧ TeamName u = team.Name t ∧ u ∈ team.Members t')
  ∧ (∀ m other members,
       m ∈ team.Members t → other ≠ team.Name t →
       postgres.ListUsersByTeam s' other = Ok members → ID m ∉ ID <$> members)
  ∧ (∀ id, id ∉ ID <$> team.Members t → postgres.GetUser s' id = postgres.GetUser s id)
  ∧ postgres.pull_requests s' = postgres.pull_requests s
  ∧ postgres.pull_request_reviewers s' = postgres.pull_request_reviewers s.
Proof.
  intros Hcreate.
  destruct (decide (team.Name t ∈ postgres.teams s)) as [Hin|Hfresh].
  { by rewrite directory_facts.CreateTeam_exists in Hcreate. }
  destruct (directory_facts.CreateTeam_fresh s t Hfresh)
    as (t0 & s0 & Hc & Hget & _ & Husers & Hprs & Htbl).
  rewrite Hc in Hcreate. simplify_eq.
  pose proof Hget as (_ & _ & _ & _ & Hmem)%directory_facts.GetTeam_Ok.
  assert (∀ m, m ∈ team.Members t →
            ∃ u, postgres.GetUser s' (ID m) = Ok u ∧ TeamName u = team.Name t) as Hmoved.
  { intros m Hm.
    destruct (directory_facts.upsertMembers_member (postgres.users s) (team.Name t)
                (team.Members t) (ID m)) as (m' & _ & _ & Hrow).
    { by apply list_elem_of_fmap_2. }
    exists (mkUser (ID m) (Username m') (team.Name t) (IsActive m')).
    split; [|reflexivity].
    apply postgres_facts.GetUser_Ok.
    exists (postgres.mkUserRow (Username m') (team.Name t) (IsActive m')).
    split; [|reflexivity]. by rewrite Husers, Hrow. }
  split_and!; [| | |done|done].
  - intros m Hm. destruct (Hmoved m Hm) as (u & Hu & Hteam).
    exists u. split_and!; [done..|]. apply Hmem.
    by rewrite (postgres_facts.GetUser_ID _ _ _ Hu).
  - intros m other members Hm Hother (_ & _ & Hlist)%postgres_facts.ListUsersByTeam_Ok.
    intros (v & Hid & [Hv Hteam]%Hlist)%list_elem_of_fmap.
    destruct (Hmoved m Hm) as (u & Hu & Hteam').
    rewrite <- Hid, Hu in Hv. by simplify_eq.
  - intros id Hnin. unfold postgres.GetUser.
    by rewrite Husers, directory_facts.upsertMembers_other.
Qed.

Lemma CreateTeam_moves_members_witness :
  (∃ u, postgres.GetUser (pgdirectory.CreateTeam scenario.backend casebook.mobile).2 "u2"
        = Ok u ∧ TeamName u = "mobile")
  ∧ postgres.GetUser (pgdirectory.CreateTeam scenario.backend casebook.mobile).2 "u3"
    = postgres.GetUser scenario.backend "u3".
Proof.
  destruct (CreateTeam_moves_members scenario.backend
              (pgdirectory.CreateTeam scenario.backend casebook.mobile).2
              casebook.mobile
              (team.mkTeam "mobile"
                 [mkUser "u2" "Bobby" "mobile" true; mkUser "u6" "Frank" "mobile" true]))
    as (Hmoved & _ & Hkept & _).
  - vm_compute. reflexivity.
  - split.
    + destruct (Hmoved (mkUser "u2" "Bobby" "backend" true)) as (u & Hu & Hteam & _).
      * creation.by_evaluation.
      * by exists u.
    + apply Hkept. creation.by_evaluation.
Defined.

(** X6. [Store.SetUserActive] changes the flag of one user and nothing else.
    For an unknown id it fails with ErrUserNotFound and leaves the store as
    it was. For a known user it returns the user with the new flag, which is
    what [GetUser] reads afterwards; every other user, the teams, the pull
    requests and the reviewer rows are as before (a reviewer switched to
    inactive stays assigned), and repeating the call changes nothing. *)
Theorem SetUserActive_changes_only_the_flag
    (s : postgres.Store) (userID : string) (isActive : bool) :
  (postgres.users s !! userID = None →
   pgdirectory.SetUserActive s userID isActive = (Err ErrUserNotFound, s))
  ∧ (∀ u, postgres.GetUser s userID = Ok u →
       ∃ s',
         pgdirectory.SetUserActive s userID isActive
         = (Ok (mkUser (ID u) (Username u) (TeamName u) isActive), s')
         ∧ postgres.GetUser s' userID
           = Ok (mkUser (ID u) (Username u) (TeamName u) isActive)
         ∧ (∀ id, id ≠ userID → postgres.GetUser s' id = postgres.GetUser s id)
         ∧ postgres.teams s' = postgres.teams s
         ∧ postgres.pull_requests s' = postgres.pull_requests s
         ∧ postgres.pull_request_reviewers s' = postgres.pull_request_reviewers s
         ∧ pgdirectory.SetUserActive s' userID isActive
           = (Ok (mkUser (ID u) (Username u) (TeamName u) isActive), s')).
Proof.
  split; [apply directory_facts.SetUserActive_unknown|].
  intros u (row & Hrow & ->)%postgres_facts.GetUser_Ok.
  eexists. split; [by apply directory_facts.SetUserActive_known|]. simpl.
  split_and!; try done.
  - unfold postgres.GetUser. simpl. by rewrite lookup_insert_eq.
  - intros id Hne. unfold postgres.GetUser. simpl. by rewrite lookup_insert_ne.
  - erewrite directory_facts.SetUserActive_known; [|by apply lookup_insert_eq].
    simpl. by rewrite insert_insert_eq.
Qed.

Lemma SetUserActive_changes_only_the_flag_witness :
  pgdirectory.SetUserActive scenario.backend "u7" false
  = (Err ErrUserNotFound, scenario.backend)
  ∧ (∃ s', pgdirectory.SetUserActive scenario.backend "u2" false
           = (Ok (mkUser "u2" "Bob" "backend" false), s')
           ∧ postgres.GetUser s' "u2" = Ok (mkUser "u2" "Bob" "backend" false)).
Proof.
  pose proof (SetUserActive_changes_only_the_flag scenario.backend "u7" false)
    as [Hunknown _].
  pose proof (SetUserActive_changes_only_the_flag scenario.backend "u2" false)
    as [_ Hknown].
  split.
  - apply Hunknown. reflexivity.
  - destruct (Hknown scenario.bob) as (s' & Hset & Hget & _); [reflexivity|].
    by exists s'.
Defined.

(** X7. [Store.ListPullRequestsByReviewer] never fails and lists exactly the
    pull requests that have the user among their reviewers, each once, a
    pull request created later before one created earlier. A listed record
    carries the name, author, status and timestamps of the pull request, but
    its reviewer list is empty: the reviewers are not read. *)
Theorem ListPullRequestsByReviewer_lists_reviewed (s : postgres.Store) (userID : string) :
  ∃ prs,
    pgdirectory.ListPullRequestsByReviewer s userID = Ok prs
    ∧ (∀ id, id ∈ PRID <$> prs ↔
             ∃ pr, postgres.GetPullRequest s id = Ok pr ∧ userID ∈ AssignedReviewers pr)
    ∧ NoDup (PRID <$> prs)
    ∧ StronglySorted (λ a b, CreatedAt b <= CreatedAt a) prs
    ∧ (∀ listed, listed ∈ prs →
         AssignedReviewers listed = []
         ∧ ∃ pr, postgres.GetPullRequest s (PRID listed) = Ok pr
                 ∧ Name listed = Name pr ∧ AuthorID listed = AuthorID pr
                 ∧ Status listed = Status pr ∧ CreatedAt listed = CreatedAt pr
                 ∧ MergedAt listed = MergedAt pr).
Proof.
  destruct (directory_facts.ListPullRequestsByReviewer_Ok s userID)
    as (prs & Hlist & Hnd & Hsorted & Hmem).
  exists prs. split_and!; [done | | done | done |].
  - intros id. by apply directory_facts.listed_iff.
  - intros listed [_ (row & Hrow & Hl)%directory_facts.joinedRow_Some]%Hmem.
    rewrite Hl. simpl. split; [done|].
    eexists. split.
    + apply postgres_facts.GetPullRequest_Ok. exists row. split; [done|reflexivity].
    + done.
Qed.

(** X8. The two reads of a team agree: for a team that exists, [GetTeam]
    and [ListUsersByTeam] return the same members, [GetTeam] in the order of
    their ids and all with the team's name; for a team that does not exist
    both fail with ErrTeamNotFound. *)
Theorem GetTeam_agrees_with_ListUsersByTeam (s : postgres.Store) (name : string) :
  (name ∈ postgres.teams s →
   ∃ t members,
     pgdirectory.GetTeam s name = Ok t
     ∧ postgres.ListUsersByTeam s name = Ok members
     ∧ team.Name t = name
     ∧ team.Members t ≡ₚ members
     ∧ StronglySorted pgdirectory.user_le (team.Members t)
     ∧ (∀ u, u ∈ team.Members t → TeamName u = name))
  ∧ (name ∉ postgres.teams s →
     pgdirectory.GetTeam s name = Err ErrTeamNotFound
     ∧ postgres.ListUsersByTeam s name = Err ErrTeamNotFound).
Proof.
  split.
  - intros Hin. unfold pgdirectory.GetTeam, postgres.ListUsersByTeam.
    rewrite !decide_True by done. eexists _, _.
    split; [reflexivity|]. split; [reflexivity|]. simpl. split_and!.
    + done.
    + apply merge_sort_Permutation.
    + apply StronglySorted_merge_sort; apply _.
    + intros u. rewrite merge_sort_Permutation. by intros [? _]%list_elem_of_filter.
  - intros Hnin. unfold pgdirectory.GetTeam, postgres.ListUsersByTeam.
    by rewrite !decide_False.
Qed.

Lemma GetTeam_agrees_with_ListUsersByTeam_witness :
  (∃ t members,
     pgdirectory.GetTeam scenario.backend "backend" = Ok t
     ∧ postgres.ListUsersByTeam scenario.backend "backend" = Ok members
     ∧ team.Members t ≡ₚ members)
  ∧ pgdirectory.GetTeam scenario.backend "frontend" = Err ErrTeamNotFound.
Proof.
  pose proof (GetTeam_agrees_with_ListUsersByTeam scenario.backend "backend") as [Hyes _].
  pose proof (GetTeam_agrees_with_ListUsersByTeam scenario.backend "frontend") as [_ Hno].
  split.
  - destruct Hyes as (t & members & Hget & Hlist & _ & Hperm & _);
      [creation.by_evaluation|].
    by exists t, members.
  - apply Hno. creation.by_evaluation.
Defined.

(* ===================================================================== *)
(** ** What a call writes *)
(* ===================================================================== *)

Module effects.
Import rand postgres postgres_facts pgdirectory directory_facts service selection writes.

(** A pull request reads the same from two stores that agree on its row and
    on its reviewer rows. *)
Lemma GetPullRequest_ext (s s' : Store) (id : string) :
  pull_requests s' !! id = pull_requests s !! id →
  (∀ r, (id, r) ∈ pull_request_reviewers s' ↔ (id, r) ∈ pull_request_reviewers s) →
  GetPullRequest s' id = GetPullRequest s id.
Proof.
  intros Hrow Hrows. unfold GetPullRequest. rewrite Hrow.
  destruct (pull_requests s !! id) as [row|]; [|done].
  by rewrite (reviewersOf_ext _ _ id Hrows).
Qed.

(** The two transactions leave every other pull request as it was. *)
Lemma createTx_frame (s s' : Store) (pr : PullRequest) (id : string) :
  createTx s pr = Ok s' → id ≠ PRID pr → GetPullRequest s' id = GetPullRequest s id.
Proof.
  intros (_ & _ & _ & _ & _ & _ & Hprs & Hrows)%createTx_Ok Hne.
  apply GetPullRequest_ext.
  - by rewrite Hprs, lookup_insert_ne.
  - intros r. rewrite Hrows. simpl. naive_solver.
Qed.

Lemma updateTx_frame (s s' : Store) (pr : PullRequest) (id : string) :
  updateTx s pr = Ok s' → id ≠ PRID pr → GetPullRequest s' id = GetPullRequest s id.
Proof.
  intros (_ & _ & _ & _ & _ & _ & Hprs & Hrows)%updateTx_Ok Hne.
  apply GetPullRequest_ext.
  - by rewrite Hprs, lookup_insert_ne.
  - intros r. rewrite Hrows. simpl. naive_solver.
Qed.

(** What the two transactions leave under the id they write. *)
Lemma createTx_written (s s' : Store) (pr : PullRequest) :
  fk_reviewers s → createTx s pr = Ok s' →
  ∃ pr', GetPullRequest s' (PRID pr) = Ok pr'
         ∧ AssignedReviewers pr' ≡ₚ AssignedReviewers pr
         ∧ Status pr' = Status pr ∧ AuthorID pr' = AuthorID pr.
Proof.
  intros Hfk Htx.
  pose proof Htx as (Hfresh & _ & Hnd & _ & _ & _ & Hprs & Hrows)%createTx_Ok.
  eexists. split.
  - apply GetPullRequest_Ok. eexists. split; [|reflexivity].
    rewrite Hprs. apply lookup_insert_eq.
  - simpl. split; [|done]. apply reviewersOf_of_list; [done|].
    intros r. rewrite Hrows. simpl. split; [|auto].
    intros [Hin|[_ ?]]; [|done]. by apply fk_reviewers_fresh in Hin.
Qed.

Lemma updateTx_written (s s' : Store) (pr : PullRequest) :
  updateTx s pr = Ok s' →
  ∃ pr', GetPullRequest s' (PRID pr) = Ok pr'
         ∧ AssignedReviewers pr' ≡ₚ AssignedReviewers pr
         ∧ Status pr' = Status pr ∧ AuthorID pr' = AuthorID pr.
Proof.
  intros Htx.
  pose proof Htx as (_ & _ & Hnd & _ & _ & _ & Hprs & Hrows)%updateTx_Ok.
  eexists. split.
  - apply GetPullRequest_Ok. eexists. split; [|reflexivity].
    rewrite Hprs. apply lookup_insert_eq.
  - simpl. split; [|done]. apply reviewersOf_of_list; [done|].
    intros r. rewrite Hrows. simpl. naive_solver.
Qed.

Lemma exec_Write (svc : ReviewerService Store) (op : Op) :
  Write (repo svc) (repo (exec svc op).2).
Proof.
  destruct op as [now pr|now prID|prID oldReviewerID]; simpl.
  - unfold service.CreatePullRequest. simpl.
    destruct (GetUser (repo svc) (AuthorID pr)) as [author|err]; [|by constructor].
    destruct (ListUsersByTeam (repo svc) (TeamName author)) as [members|err];
      [|by constructor].
    pose proof (pickReviewers_length (rnd svc)
                  (filterReviewers members (AuthorID pr)) 2) as Hlen.
    destruct (pickReviewers _ _ 2) as [picked rnd']. simpl in Hlen.
    destruct (postgres.CreatePullRequest (repo svc) _) as [[pr'|err] s'] eqn:Hcreate;
      simpl.
    + apply CreatePullRequest_Ok in Hcreate as (Htx & _).
      eapply Created; [exact Htx|]. simpl. lia.
    + apply CreatePullRequest_Err in Hcreate as [-> _]. by constructor.
  - unfold MergePullRequest. simpl.
    destruct (GetPullRequest (repo svc) prID) as [pr|err] eqn:Hget; [|by constructor].
    case_decide as Hst; [by constructor|].
    destruct (UpdatePullRequest (repo svc) _) as [[pr'|err] s'] eqn:Hupd; simpl.
    + apply UpdatePullRequest_Ok in Hupd as (Htx & _).
      eapply Updated; [| exact Hst | exact Htx | done].
      simpl. by rewrite (GetPullRequest_PRID _ _ _ Hget).
    + apply UpdatePullRequest_Err in Hupd as [-> _]. by constructor.
  - destruct (ReassignReviewer svc prID oldReviewerID) as [[[pr' new]|err] svc'] eqn:Hre;
      simpl.
    + apply reassign.ReassignReviewer_Ok_inv in Hre
        as (pr & k & oldReviewer & members & Hget & Hst & _ & _ & _ & _ & _ & Hupd).
      simpl in Hget, Hupd. apply UpdatePullRequest_Ok in Hupd as (Htx & _).
      eapply Updated; [| exact Hst | exact Htx | apply length_insert].
      simpl. by rewrite (GetPullRequest_PRID _ _ _ Hget).
    + apply lifecycle.ReassignReviewer_effect in Hre
        as [(err' & _ & ->)|(? & ? & ? & ? & ? & _)]; [by constructor | done].
Qed.

(** Creating a team or switching a flag leaves every pull request as it
    reads. *)
Lemma CreateTeam_GetPullRequest (s : Store) (t : team.Team) (id : string) :
  GetPullRequest (pgdirectory.CreateTeam s t).2 id = GetPullRequest s id.
Proof.
  destruct (decide (team.Name t ∈ teams s)) as [Hin|Hnin].
  - by rewrite CreateTeam_exists.
  - destruct (CreateTeam_fresh s t Hnin) as (t' & s' & -> & _ & _ & _ & Hprs & Htbl).
    simpl. apply GetPullRequest_ext; [by rewrite Hprs | by rewrite Htbl].
Qed.

Lemma SetUserActive_GetPullRequest (s : Store) (userID : string) (isActive : bool)
    (id : string) :
  GetPullRequest (pgdirectory.SetUserActive s userID isActive).2 id = GetPullRequest s id.
Proof. unfold pgdirectory.SetUserActive. by destruct (users s !! userID). Qed.

(** The foreign keys survive every call. *)
Lemma Write_constraints (s s' : Store) : Write s s' → constraints s → constraints s'.
Proof.
  intros [->|written Htx _|loaded written _ _ Htx _] Hcs; [done| |].
  - by eapply createTx_constraints.
  - by eapply updateTx_constraints.
Qed.

Lemma after_constraints (svc : ReviewerService Store) (c : frontdesk.Call) :
  constraints (repo svc) → constraints (repo (frontdesk.after svc c)).
Proof.
  intros Hcs. destruct c as [t|name|userID isActive|op|userID]; simpl; try done.
  - unfold frontdesk.CreateTeam. simpl.
    destruct (pgdirectory.CreateTeam (repo svc) t) as [[t'|err] s'] eqn:Hcreate; simpl.
    + by eapply CreateTeam_constraints.
    + destruct (decide (team.Name t ∈ teams (repo svc))) as [Hin|Hnin].
      * rewrite CreateTeam_exists in Hcreate by done. by simplify_eq.
      * destruct (CreateTeam_fresh _ t Hnin) as (? & ? & Hc & _). congruence.
  - unfold frontdesk.SetUserActive. simpl.
    destruct (pgdirectory.SetUserActive (repo svc) userID isActive) as [res s'] eqn:Hset.
    simpl. by eapply SetUserActive_constraints.
  - eapply Write_constraints; [apply exec_Write | done].
Qed.

(** A call either leaves every pull request as it reads or is a write of a
    core operation. *)
Lemma after_cases (svc : ReviewerService Store) (c : frontdesk.Call) :
  (∀ id, GetPullRequest (repo (frontdesk.after svc c)) id = GetPullRequest (repo svc) id)
  ∨ Write (repo svc) (repo (frontdesk.after svc c)).
Proof.
  destruct c as [t|name|userID isActive|op|userID]; simpl; try (by left).
  - left. intros id. unfold frontdesk.CreateTeam. simpl.
    pose proof (CreateTeam_GetPullRequest (repo svc) t id) as Hget.
    by destruct (pgdirectory.CreateTeam (repo svc) t).
  - left. intros id. unfold frontdesk.SetUserActive. simpl.
    pose proof (SetUserActive_GetPullRequest (repo svc) userID isActive id) as Hget.
    by destruct (pgdirectory.SetUserActive (repo svc) userID isActive).
  - right. apply exec_Write.
Qed.

(** Induction over a sequence of calls, for a property of the store that
    every single call keeps. *)
Lemma afterAll_ind (P : Store → Prop) :
  (∀ svc c, P (repo svc) → P (repo (frontdesk.after svc c))) →
  ∀ cs svc, P (repo svc) → P (repo (frontdesk.afterAll svc cs)).
Proof.
  intros Hstep cs. induction cs as [|c cs IH]; intros svc HP; [done|].
  simpl. apply IH. by apply Hstep.
Qed.

End effects.

(* ===================================================================== *)
(** ** Invariants of the store over every sequence of calls *)
(* ===================================================================== *)

(** X9. No call of the service breaks the foreign keys of the schema: if
    every user's team exists, every author is a user and every reviewer row
    names an existing pull request and a user, this is still so after any
    sequence of calls. *)
Theorem calls_keep_constraints
    (svc : service.ReviewerService postgres.Store) (cs : list frontdesk.Call) :
  postgres.constraints (service.repo svc) →
  postgres.constraints (service.repo (frontdesk.afterAll svc cs)).
Proof.
  apply (effects.afterAll_ind postgres.constraints). intros svc0 c.
  apply effects.after_constraints.
Qed.

Lemma calls_keep_constraints_witness :
  postgres.constraints (service.repo (frontdesk.afterAll casebook.morning casebook.day)).
Proof.
  apply (calls_keep_constraints casebook.morning casebook.day).
  creation.by_evaluation.
Defined.

(** X10. No pull request ever has more than two reviewers: a creation
    assigns at most two, a reassignment replaces one by one, and nothing else
    writes reviewers. If it holds of a store that satisfies the foreign keys,
    it holds after any sequence of calls. *)
Theorem at_most_two_reviewers
    (svc : service.ReviewerService postgres.Store) (cs : list frontdesk.Call) :
  postgres.constraints (service.repo svc) →
  (∀ id pr, postgres.GetPullRequest (service.repo svc) id = Ok pr →
            (length (AssignedReviewers pr) ≤ 2)%nat) →
  ∀ id pr,
    postgres.GetPullRequest (service.repo (frontdesk.afterAll svc cs)) id = Ok pr →
    (length (AssignedReviewers pr) ≤ 2)%nat.
Proof.
  intros Hcs Htwo.
  pose (P := λ s : postgres.Store,
          postgres.constraints s
          ∧ ∀ id pr, postgres.GetPullRequest s id = Ok pr →
                     (length (AssignedReviewers pr) ≤ 2)%nat).
  assert (P (service.repo (frontdesk.afterAll svc cs))) as [_ HP]; [|exact HP].
  apply (effects.afterAll_ind P); [|by split].
  clear. intros svc c [Hcs Htwo]. split; [by apply effects.after_constraints|].
  intros id pr Hget.
  destruct (effects.after_cases svc c) as [Hsame|Hwrite].
  { rewrite Hsame in Hget. by eapply Htwo. }
  destruct Hwrite as [Heq|written Htx Hlen|loaded written Hloaded _ Htx Hlen].
  - rewrite Heq in Hget. by eapply Htwo.
  - destruct (decide (id = PRID written)) as [->|Hne].
    + destruct Hcs as (_ & _ & Hrv).
      destruct (effects.createTx_written _ _ _ Hrv Htx) as (pr' & Hget' & Hperm & _).
      rewrite Hget in Hget'. simplify_eq. by rewrite (Permutation_length Hperm).
    + rewrite (effects.createTx_frame _ _ _ _ Htx Hne) in Hget. by eapply Htwo.
  - destruct (decide (id = PRID written)) as [->|Hne].
    + destruct (effects.updateTx_written _ _ _ Htx) as (pr' & Hget' & Hperm & _).
      rewrite Hget in Hget'. simplify_eq.
      rewrite (Permutation_length Hperm), Hlen. by eapply Htwo.
    + rewrite (effects.updateTx_frame _ _ _ _ Htx Hne) in Hget. by eapply Htwo.
Qed.

Lemma at_most_two_reviewers_witness :
  ∃ pr,
    postgres.GetPullRequest
      (service.repo (frontdesk.afterAll casebook.morning casebook.day)) "pr-1" = Ok pr
    ∧ (length (AssignedReviewers pr) ≤ 2)%nat.
Proof.
  eexists. split; [vm_compute; reflexivity|].
  refine (at_most_two_reviewers casebook.morning casebook.day _ _ "pr-1" _ _).
  - creation.by_evaluation.
  - intros id pr Hget. vm_compute in Hget. discriminate Hget.
  - vm_compute. reflexivity.
Defined.

(** X11. A MERGED pull request is final: whatever calls follow, it reads
    back exactly as it did, with the same status, merge timestamp and
    reviewers. *)
Theorem merged_pull_request_is_final
    (svc : service.ReviewerService postgres.Store) (cs : list frontdesk.Call)
    (id : string) (pr : PullRequest) :
  postgres.GetPullRequest (service.repo svc) id = Ok pr →
  Status pr = StatusMerged →
  postgres.GetPullRequest (service.repo (frontdesk.afterAll svc cs)) id = Ok pr.
Proof.
  intros Hget Hmerged.
  apply (effects.afterAll_ind (λ s, postgres.GetPullRequest s id = Ok pr)); [|done].
  clear svc Hget. intros svc c Hget.
  destruct (effects.after_cases svc c) as [Hsame|Hwrite]; [by rewrite Hsame|].
  destruct Hwrite as [Heq|written Htx _|loaded written Hloaded Hst Htx _].
  - by rewrite Heq.
  - rewrite (effects.createTx_frame _ _ _ _ Htx); [done|].
    intros ->. apply postgres_facts.createTx_Ok in Htx as (Hfresh & _).
    apply postgres_facts.GetPullRequest_Ok in Hget as (row & Hrow & _). congruence.
  - rewrite (effects.updateTx_frame _ _ _ _ Htx); [done|].
    intros ->. rewrite Hget in Hloaded. by simplify_eq.
Qed.

Lemma merged_pull_request_is_final_witness :
  postgres.GetPullRequest
    (service.repo (frontdesk.afterAll scenario.merged casebook.day)) "pr-1"
  = Ok (mkPullRequest "pr-1" "Initial" "u1" StatusMerged ["u2"; "u3"] 100 (Some 200)).
Proof.
  apply (merged_pull_request_is_final scenario.merged casebook.day).
  - vm_compute. reflexivity.
  - reflexivity.
Defined.

(* ===================================================================== *)
(** ** The path of a successful creation, and one reviewer replaced *)
(* ===================================================================== *)

Module paths.
Import rand postgres postgres_facts service selection.

Lemma CreatePullRequest_Ok_inv {St : Type} {R : storage.Repository St}
    (svc svc' : ReviewerService St) (now : Time) (pr pr' : PullRequest) :
  service.CreatePullRequest svc now pr = (Ok pr', svc') →
  ∃ (author : User) (members : list User),
    storage.GetUser (repo svc) (AuthorID pr) = Ok author
    ∧ storage.ListUsersByTeam (repo svc) (TeamName author) = Ok members
    ∧ storage.CreatePullRequest (repo svc)
        (mkPullRequest (PRID pr) (Name pr) (AuthorID pr) StatusOpen
           (pickReviewers (rnd svc) (filterReviewers members (AuthorID pr)) 2).1
           now (MergedAt pr))
      = (Ok pr', repo svc').
Proof.
  unfold service.CreatePullRequest. intros Hcreate.
  destruct (storage.GetUser (repo svc) (AuthorID pr)) as [author|err] eqn:Hau; [|done].
  destruct (storage.ListUsersByTeam (repo svc) (TeamName author)) as [members|err]
    eqn:Hlist; [|done].
  exists author, members. split; [done|]. split; [done|].
  destruct (pickReviewers _ _ 2) as [picked rnd']. simpl.
  destruct (storage.CreatePullRequest (repo svc) _) as [res repo'].
  by simplify_eq.
Qed.

(** With the foreign keys in force, the reviewers of a pull request that was
    just created are active teammates of its author. *)
Lemma created_reviewers_active (svc svc' : ReviewerService Store) (now : Time)
    (pr pr' : PullRequest) (r : string) :
  constraints (repo svc) →
  service.CreatePullRequest svc now pr = (Ok pr', svc') →
  r ∈ AssignedReviewers pr' →
  spec.activeTeammate (repo svc) (AuthorID pr) r.
Proof.
  intros (_ & _ & Hrv) Hcreate Hr.
  apply CreatePullRequest_Ok_inv in Hcreate as (author & members & Hau & Hlist & Hstore).
  simpl in Hau, Hlist, Hstore.
  apply CreatePullRequest_Ok in Hstore as (Htx & _ & _ & _ & _ & _ & _ & _ & Hrevs).
  apply createTx_Ok in Htx as (Hfresh & _). simpl in Hfresh, Hrevs.
  apply Hrevs in Hr as [Hr|Hr]; [by apply fk_reviewers_fresh in Hr|].
  apply pickReviewers_elem_of in Hr as (u & Hu & <-).
  apply GetUser_Ok in Hau as (arow & Harow & ->).
  by apply (pool.filterReviewers_activeTeammate (repo svc) (AuthorID pr) arow members u
              Harow Hlist) in Hu as [? _].
Qed.


End paths.

(* ===================================================================== *)
(** ** The review lists follow the assignments *)
(* ===================================================================== *)

(** X12. After a successful [CreatePullRequest] the new pull request is in
    the review list of each of its reviewers and of nobody else, and every
    review list is otherwise what it was. *)
Theorem CreatePullRequest_then_ListUserReviews
    (svc svc' : service.ReviewerService postgres.Store) (now : Time)
    (pr pr' : PullRequest) (userID : string) :
  service.CreatePullRequest svc now pr = (Ok pr', svc') →
  ∃ before after,
    frontdesk.ListUserReviews svc userID = Ok before
    ∧ frontdesk.ListUserReviews svc' userID = Ok after
    ∧ (∀ id, id ∈ PRID <$> after ↔
             id ∈ PRID <$> before ∨ (id = PRID pr ∧ userID ∈ AssignedReviewers pr')).
Proof.
  intros Hcreate.
  apply paths.CreatePullRequest_Ok_inv in Hcreate as (author & members & _ & _ & Hstore).
  simpl in Hstore.
  apply postgres_facts.CreatePullRequest_Ok in Hstore as (Htx & Hget' & _). simpl in Hget'.
  pose proof Htx as (Hfresh & _)%postgres_facts.createTx_Ok. simpl in Hfresh.
  destruct (directory_facts.ListPullRequestsByReviewer_Ok (service.repo svc) userID)
    as (before & Hbefore & _).
  destruct (directory_facts.ListPullRequestsByReviewer_Ok (service.repo svc') userID)
    as (after & Hafter & _).
  exists before, after. split; [done|]. split; [done|]. intros id.
  rewrite (directory_facts.listed_iff _ _ _ id Hbefore),
    (directory_facts.listed_iff _ _ _ id Hafter).
  destruct (decide (id = PRID pr)) as [->|Hne].
  - rewrite Hget'. split.
    + intros (p & [= <-] & Hin). by right.
    + intros [(p & Hp & _)|[_ Hin]]; [|by exists pr'].
      apply postgres_facts.GetPullRequest_Ok in Hp as (row & Hrow & _). congruence.
  - rewrite (effects.createTx_frame _ _ _ id Htx) by done. naive_solver.
Qed.

Lemma CreatePullRequest_then_ListUserReviews_witness :
  ∃ before after,
    frontdesk.ListUserReviews casebook.morning "u2" = Ok before
    ∧ frontdesk.ListUserReviews scenario.opened "u2" = Ok after
    ∧ (∀ id, id ∈ PRID <$> after ↔
             id ∈ PRID <$> before ∨ (id = "pr-1" ∧ "u2" ∈ ["u2"; "u3"])).
Proof.
  apply (CreatePullRequest_then_ListUserReviews casebook.morning scenario.opened 100
           (scenario.request "pr-1" "Initial" "u1")
           (mkPullRequest "pr-1" "Initial" "u1" StatusOpen ["u2"; "u3"] 100 None) "u2").
  vm_compute. reflexivity.
Defined.

(** X13. After a successful [ReassignReviewer] the pull request has left the
    review list of the old reviewer and entered that of the replacement;
    every other entry of every review list is as before. *)
Theorem ReassignReviewer_then_ListUserReviews
    (svc svc' : service.ReviewerService postgres.Store) (prID oldReviewerID : string)
    (pr' : PullRequest) (new userID : string) :
  service.ReassignReviewer svc prID oldReviewerID = (Ok (pr', new), svc') →
  ∃ before after,
    frontdesk.ListUserReviews svc userID = Ok before
    ∧ frontdesk.ListUserReviews svc' userID = Ok after
    ∧ (∀ id, id ∈ PRID <$> after ↔
             (id ∈ PRID <$> before ∧ ¬ (id = prID ∧ userID = oldReviewerID))
             ∨ (id = prID ∧ userID = new)).
Proof.
  intros Hre.
  apply reassign.ReassignReviewer_Ok_inv in Hre
    as (pr & k & oldReviewer & members & Hget & _ & Hk & _ & _ & _ & _ & Hupd).
  simpl in Hget, Hupd.
  apply postgres_facts.UpdatePullRequest_Ok in Hupd
    as (Htx & Hget' & _ & _ & _ & _ & _ & _ & Hperm).
  simpl in Hget', Hperm.
  pose proof (postgres_facts.GetPullRequest_PRID _ _ _ Hget) as Hid.
  pose proof (postgres_facts.GetPullRequest_NoDup _ _ _ Hget) as Hnd.
  rewrite Hid in Hget'.
  destruct (directory_facts.ListPullRequestsByReviewer_Ok (service.repo svc) userID)
    as (before & Hbefore & _).
  destruct (directory_facts.ListPullRequestsByReviewer_Ok (service.repo svc') userID)
    as (after & Hafter & _).
  exists before, after. split; [done|]. split; [done|]. intros id.
  rewrite (directory_facts.listed_iff _ _ _ id Hbefore),
    (directory_facts.listed_iff _ _ _ id Hafter).
  destruct (decide (id = prID)) as [->|Hne].
  - rewrite Hget, Hget'. split.
    + intros (p & [= <-] & Hin). rewrite Hperm in Hin.
      apply (selection.elem_of_insert_NoDup _ _ oldReviewerID) in Hin as [->|[Hin Hneq]];
        [by right | | done..].
      left. split; [by exists pr | naive_solver].
    + intros [[(p & [= <-] & Hin) Hnot]|[_ ->]]; exists pr'; (split; [done|]);
        rewrite Hperm; apply (selection.elem_of_insert_NoDup _ _ oldReviewerID); try done.
      * right. split; [done|]. naive_solver.
      * by left.
  - rewrite (effects.updateTx_frame _ _ _ id Htx) by (simpl; congruence). naive_solver.
Qed.

Lemma ReassignReviewer_then_ListUserReviews_witness :
  ∃ before after,
    frontdesk.ListUserReviews scenario.opened4 "u2" = Ok before
    ∧ frontdesk.ListUserReviews
        (service.ReassignReviewer scenario.opened4 "pr-2" "u2").2 "u2" = Ok after
    ∧ (∀ id, id ∈ PRID <$> after ↔
             (id ∈ PRID <$> before ∧ ¬ (id = "pr-2" ∧ "u2" = "u2"))
             ∨ (id = "pr-2" ∧ "u2" = "u4")).
Proof.
  apply (ReassignReviewer_then_ListUserReviews scenario.opened4
           (service.ReassignReviewer scenario.opened4 "pr-2" "u2").2 "pr-2" "u2"
           (mkPullRequest "pr-2" "Replace reviewer" "u1" StatusOpen ["u3"; "u4"] 100 None)
           "u4" "u2").
  vm_compute. reflexivity.
Defined.

(* ===================================================================== *)
(** ** Inactive users, and when the operations fail *)
(* ===================================================================== *)

(** X14. A user switched to inactive is not assigned any more: on the state
    [SetUserActive] with false leaves, no creation selects the user as a
    reviewer and no reassignment selects the user as a replacement (the
    foreign keys being in force). *)
Theorem inactive_user_is_never_assigned
    (svc0 svc : service.ReviewerService postgres.Store) (userID : string) (u : User) :
  postgres.constraints (service.repo svc0) →
  frontdesk.SetUserActive svc0 userID false = (Ok u, svc) →
  (∀ now pr pr' svc',
     service.CreatePullRequest svc now pr = (Ok pr', svc') →
     userID ∉ AssignedReviewers pr')
  ∧ (∀ prID oldReviewerID pr' new svc',
       service.ReassignReviewer svc prID oldReviewerID = (Ok (pr', new), svc') →
       new ≠ userID).
Proof.
  intros Hcs0 Hset. unfold frontdesk.SetUserActive in Hset. simpl in Hset.
  destruct (pgdirectory.SetUserActive (service.repo svc0) userID false)
    as [res s] eqn:Hstore.
  injection Hset as -> <-. simpl.
  pose proof (directory_facts.SetUserActive_constraints _ _ _ _ _ Hcs0 Hstore) as Hcs.
  assert (∀ row, postgres.users s !! userID = Some row → postgres.is_active row = false)
    as Hflag.
  { unfold pgdirectory.SetUserActive in Hstore.
    destruct (postgres.users (service.repo svc0) !! userID) as [row0|]; [|done].
    injection Hstore as _ <-. simpl. rewrite lookup_insert_eq. by intros row [= <-]. }
  split.
  - intros now pr pr' svc' Hcreate Hin.
    destruct (paths.created_reviewers_active
                (service.mkReviewerService s (service.rnd svc0)) svc' now pr pr' userID
                Hcs Hcreate Hin)
      as (_ & row & _ & Hrow & _ & _ & Hact).
    simpl in Hrow. rewrite (Hflag row Hrow) in Hact. done.
  - intros prID oldReviewerID pr' new svc' Hre ->.
    apply reassign.ReassignReviewer_Ok_inv in Hre
      as (pr & k & oldReviewer & members & _ & _ & _ & _ & Huser & Hlist
          & (v & Hv & Hid) & _).
    simpl in Huser, Hlist.
    apply postgres_facts.GetUser_Ok in Huser as (oldRow & HoldRow & ->).
    apply (pool.filterForReplacement_candidate s pr oldReviewerID oldRow members v
             HoldRow Hlist) in Hv as [[(_ & row & _ & Hrow & _ & _ & Hact) _] _].
    rewrite Hid in Hrow. rewrite (Hflag row Hrow) in Hact. done.
Qed.

Lemma inactive_user_is_never_assigned_witness :
  (∀ now pr pr' svc',
     service.CreatePullRequest (frontdesk.SetUserActive casebook.morning "u3" false).2
       now pr = (Ok pr', svc') →
     "u3" ∉ AssignedReviewers pr')
  ∧ (∀ prID oldReviewerID pr' new svc',
       service.ReassignReviewer (frontdesk.SetUserActive casebook.morning "u3" false).2
         prID oldReviewerID = (Ok (pr', new), svc') →
       new ≠ "u3").
Proof.
  apply (inactive_user_is_never_assigned casebook.morning
           (frontdesk.SetUserActive casebook.morning "u3" false).2 "u3"
           (mkUser "u3" "Charlie" "backend" false)).
  - creation.by_evaluation.
  - vm_compute. reflexivity.
Defined.

(** X15. When [CreatePullRequest] fails and what it leaves. For an unknown
    author it fails with ErrUserNotFound and leaves the service as it was.
    With the foreign keys in force, for a known author and an id already in
    use it fails with ErrPRExists and leaves the store as it was (the record
    there is not overwritten); for a known author and an unused id it
    succeeds, also when the author has no active teammate, in which case the
    pull request is created without reviewers. *)
Theorem CreatePullRequest_outcomes
    (svc : service.ReviewerService postgres.Store) (now : Time) (pr : PullRequest) :
  (postgres.users (service.repo svc) !! AuthorID pr = None →
   service.CreatePullRequest svc now pr = (Err ErrUserNotFound, svc))
  ∧ (postgres.constraints (service.repo svc) →
     is_Some (postgres.users (service.repo svc) !! AuthorID pr) →
     (is_Some (postgres.pull_requests (service.repo svc) !! PRID pr) →
      (service.CreatePullRequest svc now pr).1 = Err ErrPRExists
      ∧ service.repo (service.CreatePullRequest svc now pr).2 = service.repo svc)
     ∧ (postgres.pull_requests (service.repo svc) !! PRID pr = None →
        ∃ pr' svc',
          service.CreatePullRequest svc now pr = (Ok pr', svc')
          ∧ postgres.GetPullRequest (service.repo svc') (PRID pr) = Ok pr'
          ∧ PRID pr' = PRID pr ∧ Name pr' = Name pr ∧ AuthorID pr' = AuthorID pr
          ∧ Status pr' = StatusOpen ∧ CreatedAt pr' = now
          ∧ ((¬ ∃ id, spec.activeTeammate (service.repo svc) (AuthorID pr) id) →
             AssignedReviewers pr' = []))).
Proof.
  split.
  { intros Hnone. unfold service.CreatePullRequest. simpl.
    unfold postgres.GetUser. by rewrite Hnone. }
  intros Hcs [arow Harow].
  pose proof Hcs as (Hut & _ & Hrv).
  assert (postgres.GetUser (service.repo svc) (AuthorID pr)
          = Ok (postgres.userOfRow (AuthorID pr, arow))) as Hau.
  { apply postgres_facts.GetUser_Ok. by exists arow. }
  destruct (postgres_facts.ListUsersByTeam_of_user _ _ _ Hut Hau) as [members Hlist].
  simpl in Hlist.
  unfold service.CreatePullRequest. simpl. rewrite Hau. simpl. rewrite Hlist.
  set (candidates := service.filterReviewers members (AuthorID pr)).
  assert (∀ v, v ∈ candidates →
            spec.activeTeammate (service.repo svc) (AuthorID pr) (ID v)) as Hcand.
  { intros v Hv.
    by apply (pool.filterReviewers_activeTeammate _ _ arow members v Harow Hlist)
      in Hv as [? _]. }
  assert (NoDup (ID <$> candidates)) as Hnd.
  { apply postgres_facts.ListUsersByTeam_Ok in Hlist as (_ & Hnd & _).
    eapply sublist_NoDup; [exact Hnd|]. apply fmap_sublist.
    unfold candidates. rewrite selection.filterReviewers_filter. apply sublist_filter. }
  pose proof (selection.pickReviewers_NoDup (service.rnd svc) candidates 2 Hnd) as Hpnd.
  pose proof (selection.pickReviewers_elem_of (service.rnd svc) candidates 2) as Hpin.
  destruct (service.pickReviewers (service.rnd svc) candidates 2) as [picked rnd'].
  simpl in Hpnd, Hpin.
  set (record := mkPullRequest (PRID pr) (Name pr) (AuthorID pr) StatusOpen picked now
                   (MergedAt pr)).
  split.
  - intros Hused. unfold postgres.CreatePullRequest, postgres.createTx.
    rewrite decide_True by done. done.
  - intros Hfresh.
    destruct (postgres_facts.createTx_succeeds (service.repo svc) record) as [s' Htx];
      simpl; [done | by eexists | done | |].
    { intros r Hr. split; [by apply postgres_facts.fk_reviewers_fresh|].
      destruct (Hpin r Hr) as (v & Hv & <-).
      destruct (Hcand v Hv) as (_ & row & _ & Hrow & _). by eexists. }
    destruct (postgres.CreatePullRequest (service.repo svc) record) as [[pr'|err] s'']
      eqn:Hcreate.
    + eexists pr', _. split; [reflexivity|].
      apply postgres_facts.CreatePullRequest_Ok in Hcreate
        as (_ & Hget & ? & ? & ? & ? & ? & _ & Hrevs).
      simpl in *. split_and!; try done.
      intros Hnone. destruct (AssignedReviewers pr') as [|r rest] eqn:Hr; [done|].
      exfalso. apply Hnone. exists r.
      destruct (Hrevs r) as [[Hin|Hin] _]; [by left | |].
      * by apply postgres_facts.fk_reviewers_fresh in Hin.
      * destruct (Hpin r Hin) as (v & Hv & <-). by apply Hcand.
    + apply postgres_facts.CreatePullRequest_Err in Hcreate as (_ & e & He & _).
      congruence.
Qed.

Lemma CreatePullRequest_outcomes_witness :
  service.CreatePullRequest casebook.morning 100 (scenario.request "pr-9" "Lost" "u0")
  = (Err ErrUserNotFound, casebook.morning)
  ∧ ((service.CreatePullRequest scenario.opened 150
        (scenario.request "pr-1" "Again" "u2")).1 = Err ErrPRExists
     ∧ service.repo (service.CreatePullRequest scenario.opened 150
                       (scenario.request "pr-1" "Again" "u2")).2
       = service.repo scenario.opened)
  ∧ (∃ pr' svc',
       service.CreatePullRequest casebook.solo 100 (scenario.request "pr-1" "Alone" "u9")
       = (Ok pr', svc')
       ∧ AssignedReviewers pr' = []).
Proof.
  split; [|split].
  - apply (proj1 (CreatePullRequest_outcomes casebook.morning 100
                    (scenario.request "pr-9" "Lost" "u0"))).
    reflexivity.
  - apply (proj2 (CreatePullRequest_outcomes scenario.opened 150
                    (scenario.request "pr-1" "Again" "u2"))).
    + creation.by_evaluation.
    + creation.by_evaluation.
    + creation.by_evaluation.
  - destruct (proj2 (CreatePullRequest_outcomes casebook.solo 100
                       (scenario.request "pr-1" "Alone" "u9")))
      as [_ Hfresh].
    + creation.by_evaluation.
    + creation.by_evaluation.
    + destruct Hfresh as (pr' & svc' & Hcreate & _ & _ & _ & _ & _ & _ & Hnone);
        [reflexivity|].
      exists pr', svc'. split; [exact Hcreate|]. apply Hnone.
      intros (id & arow & row & Ha & Hrow & Hne & _).
      simpl in Hrow, Hne. apply lookup_singleton_Some in Hrow as [Hid _].
      by apply Hne.
Defined.

(** X16. [MergePullRequest] fails only when the pull request does not
    exist, then with ErrPullRequestNotFound and the service left as it was.
    With the foreign keys in force it succeeds on every pull request that
    exists, whatever its status; the record returned is MERGED and is what
    the store reads afterwards, every other pull request reads as before,
    and the random source is not advanced. *)
Theorem MergePullRequest_outcomes
    (svc : service.ReviewerService postgres.Store) (now : Time) (prID : string) :
  (postgres.pull_requests (service.repo svc) !! prID = None →
   service.MergePullRequest svc now prID = (Err ErrPullRequestNotFound, svc))
  ∧ (postgres.constraints (service.repo svc) →
     is_Some (postgres.pull_requests (service.repo svc) !! prID) →
     ∃ pr' svc',
       service.MergePullRequest svc now prID = (Ok pr', svc')
       ∧ Status pr' = StatusMerged
       ∧ postgres.GetPullRequest (service.repo svc') prID = Ok pr'
       ∧ service.rnd svc' = service.rnd svc
       ∧ (∀ id, id ≠ prID →
                postgres.GetPullRequest (service.repo svc') id
                = postgres.GetPullRequest (service.repo svc) id)).
Proof.
  split.
  { intros Hnone. unfold service.MergePullRequest. simpl.
    unfold postgres.GetPullRequest. by rewrite Hnone. }
  intros (Hut & Hpa & Hrv) [row Hrow].
  destruct (postgres.GetPullRequest (service.repo svc) prID) as [pr|err] eqn:Hget.
  2:{ apply postgres_facts.GetPullRequest_Err in Hget as [Hget _]. congruence. }
  unfold service.MergePullRequest. simpl. rewrite Hget.
  case_decide as Hst.
  { exists pr, svc. by split_and!. }
  set (written := mkPullRequest (PRID pr) (Name pr) (AuthorID pr) StatusMerged
                    (AssignedReviewers pr) (CreatedAt pr) (Some now)).
  pose proof (postgres_facts.GetPullRequest_PRID _ _ _ Hget) as Hid.
  destruct (postgres_facts.updateTx_succeeds (service.repo svc) written) as [s' Htx];
    simpl.
  { rewrite Hid. by eexists. }
  { by eapply postgres_facts.fk_author_user. }
  { by eapply postgres_facts.GetPullRequest_NoDup. }
  { intros r Hr. by eapply postgres_facts.fk_reviewers_user. }
  destruct (postgres.UpdatePullRequest (service.repo svc) written) as [[pr'|err] s'']
    eqn:Hupd.
  - eexists pr', _. split; [reflexivity|]. simpl.
    apply postgres_facts.UpdatePullRequest_Ok in Hupd
      as (Htx' & Hget' & _ & _ & _ & Hstatus & _).
    simpl in Hget', Hstatus. rewrite Hid in Hget'.
    split_and!; try done.
    intros id Hne. apply (effects.updateTx_frame _ _ written); [done|].
    simpl. congruence.
  - apply postgres_facts.UpdatePullRequest_Err in Hupd as (_ & e & He & _). congruence.
Qed.

Lemma MergePullRequest_outcomes_witness :
  service.MergePullRequest scenario.opened 200 "pr-0"
  = (Err ErrPullRequestNotFound, scenario.opened)
  ∧ (∃ pr' svc',
       service.MergePullRequest scenario.opened 200 "pr-1" = (Ok pr', svc')
       ∧ Status pr' = StatusMerged).
Proof.
  split.
  - apply (proj1 (MergePullRequest_outcomes scenario.opened 200 "pr-0")).
    vm_compute. reflexivity.
  - destruct (proj2 (MergePullRequest_outcomes scenario.opened 200 "pr-1"))
      as (pr' & svc' & Hmerge & Hst & _).
    + creation.by_evaluation.
    + creation.by_evaluation.
    + exists pr', svc'. split; [exact Hmerge | exact Hst].
Defined.

(* ===================================================================== *)
(** ** The errors an operation can end with *)
(* ===================================================================== *)

Module failures.
Import postgres service postgres_facts.

(** With the foreign keys in force a creation fails only for an unknown
    author or an id in use. *)
Lemma create_fails_with (svc svc' : ReviewerService Store) (now : Time)
    (pr : PullRequest) (err : error) :
  constraints (repo svc) →
  service.CreatePullRequest svc now pr = (Err err, svc') →
  err = ErrUserNotFound ∨ err = ErrPRExists.
Proof.
  intros Hcs. pose proof Hcs as (Hut & _ & Hrv).
  unfold service.CreatePullRequest. simpl.
  destruct (GetUser (repo svc) (AuthorID pr)) as [author|e] eqn:Hau.
  2:{ apply GetUser_Err in Hau as [_ ->]. intros [= <- _]. by left. }
  pose proof Hau as (arow & Harow & Hauthor)%GetUser_Ok.
  destruct (ListUsersByTeam_of_user _ _ _ Hut Hau) as [members Hlist].
  rewrite Hlist.
  set (candidates := filterReviewers members (AuthorID pr)).
  assert (∀ v, v ∈ candidates → is_Some (users (repo svc) !! ID v)) as Hcand.
  { intros v Hv. rewrite Hauthor in Hlist. simpl in Hlist.
    apply (pool.filterReviewers_activeTeammate _ _ arow members v Harow Hlist)
      in Hv as [(_ & row & _ & Hrow & _) _]. by eexists. }
  assert (NoDup (ID <$> candidates)) as Hnd.
  { apply ListUsersByTeam_Ok in Hlist as (_ & Hnd & _).
    eapply sublist_NoDup; [exact Hnd|]. apply fmap_sublist.
    unfold candidates. rewrite selection.filterReviewers_filter. apply sublist_filter. }
  pose proof (selection.pickReviewers_NoDup (rnd svc) candidates 2 Hnd) as Hpnd.
  pose proof (selection.pickReviewers_elem_of (rnd svc) candidates 2) as Hpin.
  destruct (pickReviewers (rnd svc) candidates 2) as [picked rnd'].
  simpl in Hpnd, Hpin.
  set (record := mkPullRequest (PRID pr) (Name pr) (AuthorID pr) StatusOpen picked now
                   (MergedAt pr)).
  destruct (postgres.CreatePullRequest (repo svc) record) as [[pr'|e] s''] eqn:Hcreate;
    [done|].
  intros [= <- _].
  destruct (pull_requests (repo svc) !! PRID pr) as [row|] eqn:Hrow.
  - right. unfold postgres.CreatePullRequest, createTx in Hcreate.
    rewrite decide_True in Hcreate by (by eexists). by simplify_eq.
  - exfalso.
    destruct (createTx_succeeds (repo svc) record) as [s' Htx];
      simpl; [done | by eexists | done | |].
    { intros r Hr. split; [by apply fk_reviewers_fresh|].
      destruct (Hpin r Hr) as (v & Hv & <-). by apply Hcand. }
    apply CreatePullRequest_Err in Hcreate as (_ & e' & He & _). congruence.
Qed.

(** With the foreign keys in force a merge fails only for an unknown id. *)
Lemma merge_fails_with (svc svc' : ReviewerService Store) (now : Time)
    (prID : string) (err : error) :
  constraints (repo svc) →
  MergePullRequest svc now prID = (Err err, svc') →
  err = ErrPullRequestNotFound.
Proof.
  intros (Hut & Hpa & Hrv). unfold MergePullRequest. simpl.
  destruct (GetPullRequest (repo svc) prID) as [pr|e] eqn:Hget.
  2:{ apply GetPullRequest_Err in Hget as [_ ->]. by intros [= <- _]. }
  case_decide as Hst; [done|].
  set (written := mkPullRequest (PRID pr) (Name pr) (AuthorID pr) StatusMerged
                    (AssignedReviewers pr) (CreatedAt pr) (Some now)).
  pose proof (GetPullRequest_PRID _ _ _ Hget) as Hid.
  pose proof Hget as (row & Hrow & _)%GetPullRequest_Ok.
  destruct (updateTx_succeeds (repo svc) written) as [s' Htx]; simpl.
  { rewrite Hid. by eexists. }
  { by eapply fk_author_user. }
  { by eapply GetPullRequest_NoDup. }
  { intros r Hr. by eapply fk_reviewers_user. }
  destruct (UpdatePullRequest (repo svc) written) as [[pr'|e] s''] eqn:Hupd; [done|].
  apply UpdatePullRequest_Err in Hupd as (_ & e' & He & _). congruence.
Qed.

(** With the foreign keys in force a reassignment fails only with one of
    the four errors of its own checks. *)
Lemma reassign_fails_with (svc svc' : ReviewerService Store)
    (prID oldReviewerID : string) (err : error) :
  constraints (repo svc) →
  ReassignReviewer svc prID oldReviewerID = (Err err, svc') →
  err = ErrPullRequestNotFound ∨ err = ErrPRMerged
  ∨ err = ErrReviewerNotFound ∨ err = ErrNoReplacement.
Proof.
  intros Hcs Hre. pose proof Hcs as (Hut & _ & Hrv).
  destruct (GetPullRequest (repo svc) prID) as [pr|e] eqn:Hget.
  2:{ unfold ReassignReviewer in Hre. simpl in Hre. rewrite Hget in Hre.
      apply GetPullRequest_Err in Hget as [_ ->]. simplify_eq. by left. }
  destruct (decide (Status pr = StatusMerged)) as [Hst|Hst].
  { unfold ReassignReviewer in Hre. simpl in Hre. rewrite Hget in Hre.
    rewrite decide_True in Hre by done. simplify_eq. right. by left. }
  destruct (decide (oldReviewerID ∈ AssignedReviewers pr)) as [Hold|Hold].
  2:{ unfold ReassignReviewer in Hre. simpl in Hre. rewrite Hget in Hre.
      rewrite decide_False in Hre by done.
      rewrite decide_True in Hre by (by apply selection.reviewerIndex_absent).
      simplify_eq. right. right. by left. }
  pose proof (fk_reviewers_user _ _ _ _ Hrv Hget Hold) as [oldRow HoldRow].
  assert (GetUser (repo svc) oldReviewerID = Ok (userOfRow (oldReviewerID, oldRow)))
    as Huser.
  { apply GetUser_Ok. by exists oldRow. }
  destruct (ListUsersByTeam_of_user _ _ _ Hut Huser) as [members Hlist].
  simpl in Hlist.
  destruct (filterForReplacement members oldReviewerID (AssignedReviewers pr))
    as [|u rest] eqn:Hpool.
  - rewrite (reassign.ReassignReviewer_no_candidate svc prID oldReviewerID pr) in Hre;
      [simplify_eq; by right; right; right | done.. | by eexists |].
    intros (id & Hcand).
    destruct (pool.activeTeammate_user _ _ _ (proj1 Hcand)) as (v & Hv & <-).
    assert (v ∈ filterForReplacement members oldReviewerID (AssignedReviewers pr))
      as Hin.
    { apply (pool.filterForReplacement_candidate (repo svc) pr oldReviewerID oldRow
               members v); done. }
    rewrite Hpool in Hin. by apply elem_of_nil in Hin.
  - destruct (reassign.ReassignReviewer_succeeds svc prID oldReviewerID pr)
      as (pr' & new & svc'' & Hok); [done.. | | congruence].
    exists (ID u).
    apply (pool.filterForReplacement_candidate (repo svc) pr oldReviewerID oldRow
             members u); [done..|].
    rewrite Hpool. by left.
Qed.

(** Creating a team fails only for a name in use; the switch of the active
    flag only for an unknown user. *)
Lemma create_team_fails_with (s s' : Store) (t : team.Team) (err : error) :
  pgdirectory.CreateTeam s t = (Err err, s') → err = ErrTeamExists ∧ s' = s.
Proof.
  destruct (decide (team.Name t ∈ teams s)) as [Hin|Hnin].
  - rewrite directory_facts.CreateTeam_exists by done. by intros [= <- <-].
  - destruct (directory_facts.CreateTeam_fresh s t Hnin) as (t' & s'' & -> & _). done.
Qed.

Lemma set_active_fails_with (s s' : Store) (userID : string) (isActive : bool)
    (err : error) :
  pgdirectory.SetUserActive s userID isActive = (Err err, s') →
  err = ErrUserNotFound ∧ s' = s.
Proof.
  unfold pgdirectory.SetUserActive. destruct (users s !! userID); [done|].
  by intros [= <- <-].
Qed.

End failures.

(* ===================================================================== *)
(** ** The HTTP handlers over the relational store *)
(* ===================================================================== *)

Module transport_facts.
Import postgres service httptransport apispec.

Lemma handleDomainError_answered (err : error) :
  (∀ code name, err ≠ PgError code name) → answered (handleDomainError err).
Proof.
  intros Hdomain. destruct err; unfold answered; simpl;
    try (by destruct (Hdomain Code ConstraintName)); set_solver.
Qed.

Lemma handleDomainError_payload (err : error) :
  payloadMergedIffTimestamp (payload (handleDomainError err)).
Proof. by destruct err. Qed.

(** What a request leaves behind is what a call of the service leaves. *)
Lemma serve_after (h : ReviewerService Store) (r : Request) :
  (serve h r).2 = h ∨ ∃ c, (serve h r).2 = frontdesk.after h c.
Proof.
  destruct r as [[req|]|teamName|[req|]|userID|now [req|]|now [req|]|[req|]]; simpl;
    try (by left).
  - destruct (teamRequest.validate req); [by left|].
    right. exists (frontdesk.CallCreateTeam (teamRequest.toDomain req)). simpl.
    by destruct (frontdesk.CreateTeam h _) as [[created|err] h'].
  - destruct (setUserActiveRequest.validate req); [by left|].
    right. exists (frontdesk.CallSetUserActive (setUserActiveRequest.UserID req)
                     (setUserActiveRequest.IsActive req)). simpl.
    by destruct (frontdesk.SetUserActive h _ _) as [[user|err] h'].
  - destruct (createPRRequest.validate req); [by left|].
    set (record := mkPullRequest _ _ _ _ _ _ _).
    right. exists (frontdesk.CallCore (OpCreate now record)). simpl.
    by destruct (service.CreatePullRequest h now record) as [[pr|err] h'].
  - destruct (mergePRRequest.validate req); [by left|].
    right. exists (frontdesk.CallCore (OpMerge now (mergePRRequest.ID req))). simpl.
    by destruct (service.MergePullRequest h now _) as [[pr|err] h'].
  - destruct (reassignRequest.validate req); [by left|].
    right. exists (frontdesk.CallCore (OpReassign (reassignRequest.PullRequestID req)
                                          (reassignRequest.OldUserID req))). simpl.
    by destruct (service.ReassignReviewer h _ _) as [[[pr replacedBy]|err] h'].
Qed.

Lemma serve_constraints (h : ReviewerService Store) (r : Request) :
  constraints (repo h) → constraints (repo (serve h r).2).
Proof.
  intros Hcs. destruct (serve_after h r) as [->|[c ->]]; [done|].
  by apply effects.after_constraints.
Qed.

(** With the foreign keys in force no request is answered with a server
    error. *)
Lemma serve_answered (h : ReviewerService Store) (r : Request) :
  constraints (repo h) → answered (serve h r).1.
Proof.
  intros Hcs.
  assert (∀ code message, answered (respondError http.StatusBadRequest code message))
    as Hbad by (intros; unfold answered; simpl; set_solver).
  destruct r as [[req|]|teamName|[req|]|userID|now [req|]|now [req|]|[req|]]; simpl;
    try apply Hbad.
  - destruct (teamRequest.validate req); [apply Hbad|].
    unfold frontdesk.CreateTeam. simpl.
    destruct (pgdirectory.CreateTeam (repo h) _) as [[created|err] s'] eqn:Hcreate; simpl.
    + unfold answered. simpl. set_solver.
    + apply failures.create_team_fails_with in Hcreate as [-> _].
      by apply handleDomainError_answered.
  - unfold GetTeam. case_decide; [apply Hbad|]. unfold frontdesk.GetTeam. simpl.
    destruct (pgdirectory.GetTeam (repo h) teamName) as [t|err] eqn:Hget.
    + unfold answered. simpl. set_solver.
    + apply directory_facts.GetTeam_Err in Hget as [_ ->].
      by apply handleDomainError_answered.
  - destruct (setUserActiveRequest.validate req); [apply Hbad|].
    unfold frontdesk.SetUserActive. simpl.
    destruct (pgdirectory.SetUserActive (repo h) _ _) as [[user|err] s'] eqn:Hset; simpl.
    + unfold answered. simpl. set_solver.
    + apply failures.set_active_fails_with in Hset as [-> _].
      by apply handleDomainError_answered.
  - unfold GetUserReviews. case_decide; [apply Hbad|].
    change (frontdesk.ListUserReviews h userID)
      with (pgdirectory.ListPullRequestsByReviewer (repo h) userID).
    destruct (directory_facts.ListPullRequestsByReviewer_Ok (repo h) userID)
      as (prs & -> & _).
    unfold answered. simpl. set_solver.
  - destruct (createPRRequest.validate req); [apply Hbad|].
    destruct (service.CreatePullRequest h now _) as [[pr|err] h'] eqn:Hcreate; simpl.
    + unfold answered. simpl. set_solver.
    + apply failures.create_fails_with in Hcreate as [-> | ->]; [| |done];
        by apply handleDomainError_answered.
  - destruct (mergePRRequest.validate req); [apply Hbad|].
    destruct (service.MergePullRequest h now _) as [[pr|err] h'] eqn:Hmerge; simpl.
    + unfold answered. simpl. set_solver.
    + apply failures.merge_fails_with in Hmerge as ->; [|done].
      by apply handleDomainError_answered.
  - destruct (reassignRequest.validate req); [apply Hbad|].
    destruct (service.ReassignReviewer h _ _) as [[[pr replacedBy]|err] h'] eqn:Hre; simpl.
    + unfold answered. simpl. set_solver.
    + apply failures.reassign_fails_with in Hre as [-> | [-> | [-> | ->]]]; [| | | |done];
        by apply handleDomainError_answered.
Qed.

(** Creating a team or switching a flag leaves the table of pull requests
    as it is. *)
Lemma CreateTeam_pull_requests (s : Store) (t : team.Team) :
  pull_requests (pgdirectory.CreateTeam s t).2 = pull_requests s.
Proof.
  destruct (decide (team.Name t ∈ teams s)) as [Hin|Hnin].
  - by rewrite directory_facts.CreateTeam_exists.
  - destruct (directory_facts.CreateTeam_fresh s t Hnin)
      as (t' & s' & Hcreate & _ & _ & _ & Hprs & _).
    by rewrite Hcreate.
Qed.

Lemma SetUserActive_pull_requests (s : Store) (userID : string) (isActive : bool) :
  pull_requests (pgdirectory.SetUserActive s userID isActive).2 = pull_requests s.
Proof. unfold pgdirectory.SetUserActive. by destruct (users s !! userID). Qed.

Lemma mapPullRequest_payload (pr : PullRequest) :
  spec.mergedIffTimestamp pr → payloadMergedIffTimestamp (prEnvelope (mapPullRequest pr)).
Proof. done. Qed.

(** One request keeps the invariant of the table and answers with a record
    that satisfies it: the creation handler hands over no merge timestamp. *)
Lemma serve_invariant (h : ReviewerService Store) (r : Request) :
  spec.storeMergedIffTimestamp (repo h) →
  payloadMergedIffTimestamp (payload (serve h r).1)
  ∧ spec.storeMergedIffTimestamp (repo (serve h r).2).
Proof.
  intros Hinv.
  destruct r as [[req|]|teamName|[req|]|userID|now [req|]|now [req|]|[req|]]; simpl;
    try done.
  - destruct (teamRequest.validate req); [done|].
    pose proof (CreateTeam_pull_requests (repo h) (teamRequest.toDomain req)) as Hprs.
    unfold frontdesk.CreateTeam. simpl.
    destruct (pgdirectory.CreateTeam (repo h) _) as [[created|err] s']; simpl in *.
    + split; [done|]. unfold spec.storeMergedIffTimestamp. by rewrite Hprs.
    + split; [apply handleDomainError_payload|].
      unfold spec.storeMergedIffTimestamp. by rewrite Hprs.
  - split; [|done]. unfold GetTeam. case_decide; [done|].
    destruct (frontdesk.GetTeam h teamName); [done | apply handleDomainError_payload].
  - destruct (setUserActiveRequest.validate req); [done|].
    pose proof (SetUserActive_pull_requests (repo h) (setUserActiveRequest.UserID req)
                  (setUserActiveRequest.IsActive req)) as Hprs.
    unfold frontdesk.SetUserActive. simpl.
    destruct (pgdirectory.SetUserActive (repo h) _ _) as [[user|err] s']; simpl in *.
    + split; [done|]. unfold spec.storeMergedIffTimestamp. by rewrite Hprs.
    + split; [apply handleDomainError_payload|].
      unfold spec.storeMergedIffTimestamp. by rewrite Hprs.
  - split; [|done]. unfold GetUserReviews. case_decide; [done|].
    destruct (frontdesk.ListUserReviews h userID); [done | apply handleDomainError_payload].
  - destruct (createPRRequest.validate req); [done|].
    set (record := mkPullRequest _ _ _ _ _ _ _).
    destruct (service.CreatePullRequest h now record) as [res h'] eqn:Hcreate.
    destruct (lifecycle.exec_invariant h h' (OpCreate now record)
                (match res with Ok pr => Returned pr | Err err => Failed err end) Hinv)
      as [Hout Hinv']; [done | by simpl; rewrite Hcreate; destruct res |].
    destruct res as [pr|err]; simpl; split; try done. apply handleDomainError_payload.
  - destruct (mergePRRequest.validate req); [done|].
    destruct (service.MergePullRequest h now (mergePRRequest.ID req)) as [res h'] eqn:Hmerge.
    destruct (lifecycle.exec_invariant h h' (OpMerge now (mergePRRequest.ID req))
                (match res with Ok pr => Returned pr | Err err => Failed err end) Hinv)
      as [Hout Hinv']; [done | by simpl; rewrite Hmerge; destruct res |].
    destruct res as [pr|err]; simpl; split; try done. apply handleDomainError_payload.
  - destruct (reassignRequest.validate req); [done|].
    destruct (service.ReassignReviewer h (reassignRequest.PullRequestID req)
                (reassignRequest.OldUserID req)) as [res h'] eqn:Hre.
    destruct (lifecycle.exec_invariant h h'
                (OpReassign (reassignRequest.PullRequestID req)
                   (reassignRequest.OldUserID req))
                (match res with
                 | Ok (pr, replacedBy) => Reassigned pr replacedBy
                 | Err err => Failed err
                 end) Hinv)
      as [Hout Hinv']; [done | by simpl; rewrite Hre; destruct res as [[? ?]|] |].
    destruct res as [[pr replacedBy]|err]; simpl; split; try done.
    apply handleDomainError_payload.
Qed.

End transport_facts.

(* ===================================================================== *)
(** ** The HTTP interface: statuses and timestamps *)
(* ===================================================================== *)



(** X18. Through the HTTP interface the merge timestamp goes with the
    status without any condition on the requests: the creation handler
    hands the service a record without MergedAt. From a store whose records
    have merged_at iff they are MERGED, after any sequence of requests every
    pull request in a response has mergedAt iff its status is MERGED, and so
    has every record in the store. *)
Theorem responses_have_mergedAt_iff_merged
    (h : service.ReviewerService postgres.Store) (rs : list httptransport.Request) :
  spec.storeMergedIffTimestamp (service.repo h) →
  Forall (λ resp, httptransport.payloadMergedIffTimestamp (httptransport.payload resp))
    (httptransport.serveAll h rs).1
  ∧ spec.storeMergedIffTimestamp (service.repo (httptransport.serveAll h rs).2).
Proof.
  revert h. induction rs as [|r rest IH]; intros h Hinv; simpl; [by split|].
  destruct (transport_facts.serve_invariant h r Hinv) as [Hresp Hinv'].
  destruct (httptransport.serve h r) as [resp h']. simpl in Hresp, Hinv'.
  destruct (IH h' Hinv') as [Hresps Hfinal].
  destruct (httptransport.serveAll h' rest) as [resps h'']. simpl in *.
  split; [by constructor | done].
Qed.

Lemma responses_have_mergedAt_iff_merged_witness :
  Forall (λ resp, httptransport.payloadMergedIffTimestamp (httptransport.payload resp))
    (httptransport.serveAll casebook.morning wire.traffic).1
  ∧ spec.storeMergedIffTimestamp
      (service.repo (httptransport.serveAll casebook.morning wire.traffic).2).
Proof.
  apply (responses_have_mergedAt_iff_merged casebook.morning wire.traffic).
  apply map_Forall_empty.
Defined.

(* ===================================================================== *)
(** ** The HTTP interface: teams *)
(* ===================================================================== *)

Module team_facts.
Import postgres httptransport apispec.

(** The loop of [teamRequest.validate]: it passes iff every member is
    complete, and otherwise reports the first member that is not, under its
    index. *)
Lemma validateMembers_None (i : nat) (members : list teamMemberRequest.t) :
  teamRequest.validateMembers i members = None ↔ Forall complete members.
Proof.
  revert i. induction members as [|member rest IH]; intros i; simpl.
  - split; [constructor | done].
  - unfold complete at 1. rewrite Forall_cons.
    repeat case_decide; [naive_solver..|]. rewrite IH. naive_solver.
Qed.

Lemma validateMembers_Some (i : nat) (members : list teamMemberRequest.t)
    (message : string) :
  teamRequest.validateMembers i members = Some message →
  ∃ k member,
    members !! k = Some member
    ∧ Forall complete (take k members)
    ∧ ((teamMemberRequest.UserID member = ""
        ∧ message = "members[" +:+ pretty (i + k)%nat +:+ "].user_id is required")
       ∨ (teamMemberRequest.UserID member ≠ ""
          ∧ teamMemberRequest.Username member = ""
          ∧ message = "members[" +:+ pretty (i + k)%nat +:+ "].username is required")).
Proof.
  revert i. induction members as [|member rest IH]; intros i; simpl; [done|].
  case_decide as Hid.
  { intros [= <-]. exists 0%nat, member. rewrite Nat.add_0_r. simpl.
    split_and!; [done | constructor | by left]. }
  case_decide as Hname.
  { intros [= <-]. exists 0%nat, member. rewrite Nat.add_0_r. simpl.
    split_and!; [done | constructor | by right]. }
  intros (k & m & Hk & Hbefore & Hm)%IH.
  exists (S k), m. simpl. replace (i + S k)%nat with (S i + k)%nat by lia.
  split_and!; [done | by constructor | done].
Qed.

End team_facts.

(** X19. [teamRequest.validate] accepts a request iff it has a team name, at
    least one member, and every member has a user id and a username. A
    request with a team name and members that it rejects is rejected for its
    first incomplete member: the message names the index of that member,
    counted from 0, and the field that is empty, user_id before username. *)
Theorem teamRequest_validate_first_incomplete (req : teamRequest.t) :
  (teamRequest.validate req = None ↔
   teamRequest.TeamName req ≠ ""
   ∧ teamRequest.Members req ≠ []
   ∧ Forall apispec.complete (teamRequest.Members req))
  ∧ (∀ message,
       teamRequest.validate req = Some message →
       teamRequest.TeamName req ≠ "" →
       teamRequest.Members req ≠ [] →
       ∃ k member,
         teamRequest.Members req !! k = Some member
         ∧ Forall apispec.complete (take k (teamRequest.Members req))
         ∧ ((teamMemberRequest.UserID member = ""
             ∧ message = "members[" +:+ pretty k +:+ "].user_id is required")
            ∨ (teamMemberRequest.UserID member ≠ ""
               ∧ teamMemberRequest.Username member = ""
               ∧ message = "members[" +:+ pretty k +:+ "].username is required"))).
Proof.
  unfold teamRequest.validate. split.
  - case_decide as Hname; [naive_solver|].
    case_decide as Hlen.
    + apply length_zero_iff_nil in Hlen. naive_solver.
    + rewrite team_facts.validateMembers_None.
      assert (teamRequest.Members req ≠ []) by (by intros Hnil; rewrite Hnil in Hlen).
      naive_solver.
  - intros message Hmsg Hname Hmembers.
    rewrite decide_False in Hmsg by done.
    rewrite decide_False in Hmsg by (by rewrite length_zero_iff_nil).
    by apply team_facts.validateMembers_Some in Hmsg.
Qed.

Lemma teamRequest_validate_first_incomplete_witness :
  ∃ k member,
    teamRequest.Members wire.unnamed !! k = Some member
    ∧ Forall apispec.complete (take k (teamRequest.Members wire.unnamed))
    ∧ ((teamMemberRequest.UserID member = ""
        ∧ "members[2].username is required"
          = "members[" +:+ pretty k +:+ "].user_id is required")
       ∨ (teamMemberRequest.UserID member ≠ ""
          ∧ teamMemberRequest.Username member = ""
          ∧ "members[2].username is required"
            = "members[" +:+ pretty k +:+ "].username is required")).
Proof.
  apply (proj2 (teamRequest_validate_first_incomplete wire.unnamed)).
  - vm_compute. reflexivity.
  - creation.by_evaluation.
  - creation.by_evaluation.
Defined.



(** X21. A request that is not answered 200 or 201 writes nothing: whatever
    the route, the body and the reason of the refusal (a body that does not
    decode or validate, a domain error, an error of the database), the store
    is afterwards what it was. *)
Theorem refused_request_writes_nothing
    (h : service.ReviewerService postgres.Store) (r : httptransport.Request) :
  httptransport.status (httptransport.serve h r).1 ∉ [200; 201] →
  service.repo (httptransport.serve h r).2 = service.repo h.
Proof.
  destruct r as [[req|]|teamName|[req|]|userID|now [req|]|now [req|]|[req|]]; simpl;
    try done.
  - destruct (teamRequest.validate req); [done|].
    unfold frontdesk.CreateTeam. simpl.
    destruct (pgdirectory.CreateTeam (service.repo h) _) as [[created|err] s']
      eqn:Hcreate; simpl.
    + intros Hst. destruct Hst. simpl. set_solver.
    + by apply failures.create_team_fails_with in Hcreate as [_ ->].
  - destruct (setUserActiveRequest.validate req); [done|].
    unfold frontdesk.SetUserActive. simpl.
    destruct (pgdirectory.SetUserActive (service.repo h) _ _) as [[user|err] s']
      eqn:Hset; simpl.
    + intros Hst. destruct Hst. simpl. set_solver.
    + by apply failures.set_active_fails_with in Hset as [_ ->].
  - destruct (createPRRequest.validate req); [done|].
    destruct (service.CreatePullRequest h now _) as [[pr|err] h'] eqn:Hcreate; simpl.
    + intros Hst. destruct Hst. simpl. set_solver.
    + by apply lifecycle.CreatePullRequest_effect in Hcreate
        as [(e & _ & ->)|(? & ? & ? & _)].
  - destruct (mergePRRequest.validate req); [done|].
    destruct (service.MergePullRequest h now _) as [[pr|err] h'] eqn:Hmerge; simpl.
    + intros Hst. destruct Hst. simpl. set_solver.
    + by apply lifecycle.MergePullRequest_effect in Hmerge
        as [(e & _ & ->)|[(? & ? & _)|(? & ? & ? & ? & _)]].
  - destruct (reassignRequest.validate req); [done|].
    destruct (service.ReassignReviewer h _ _) as [[[pr replacedBy]|err] h'] eqn:Hre;
      simpl.
    + intros Hst. destruct Hst. simpl. set_solver.
    + by apply lifecycle.ReassignReviewer_effect in Hre
        as [(e & _ & ->)|(? & ? & ? & ? & ? & _)].
Qed.

Lemma refused_request_writes_nothing_witness :
  service.repo
    (httptransport.serve scenario.opened
       (httptransport.PostPullRequestCreate 110
          (Some (createPRRequest.mk "pr-1" "Again" "u2")))).2
  = service.repo scenario.opened.
Proof.
  apply (refused_request_writes_nothing scenario.opened
           (httptransport.PostPullRequestCreate 110
              (Some (createPRRequest.mk "pr-1" "Again" "u2")))).
  creation.by_evaluation.
Defined.
